(** * Batch OCR extraction loops: a shallow embedding

    The repository holds four desktop front ends around the same loop:
    list a folder, keep the image files, run OCR on each, store the text
    under some naming policy, report progress, honour a cancel flag.

    - [LRD_QT_EXT]          the PyQt worker thread ([OCRWorker.run])
    - [update]              Tk, one aggregate text file
    - [extra_button]        Tk, one text file per image, optional PDF
    - [extra_excel_prompt]  Tk, three save options and a spreadsheet

    What lies outside the repository is taken as an oracle ([World]): the
    directory listing, the OCR engine, whether an image can be opened for
    the preview, whether a call into the filesystem or into a writer
    library succeeds, whether the platform has [os.startfile], and the value
    of the cancel flag each time the loop reads it.  A Python [str] is a list of
    code points.  [os.path] is the POSIX flavour.  Everything a function
    does to the outside is recorded, in order, in a trace of events; an
    exception that nothing catches ends the computation with [None]. *)

From Stdlib Require Import Ascii String.
From Stdlib Require Import List NArith ZArith Bool Lia.
Import ListNotations.
Open Scope list_scope.

(** ** Python strings *)

Definition str := list N.

(** An ASCII literal as a Python string. *)
Definition lit (s : string) : str :=
  map N_of_ascii (list_ascii_of_string s).

Definition space : N := 32%N.
Definition underscore : N := 95%N.
Definition slash : N := 47%N.
Definition newline : N := 10%N.
Definition dot : N := 46%N.

Fixpoint str_eqb (a b : str) : bool :=
  match a, b with
  | [], [] => true
  | x :: a', y :: b' => N.eqb x y && str_eqb a' b'
  | _, _ => false
  end.

(** Truth value of a string: [if s:]. *)
Definition truthy (s : str) : bool :=
  match s with [] => false | _ :: _ => true end.

(** [str.isspace] on one code point: the characters [str.split()] and
    [str.strip()] treat as whitespace. *)
Definition isspace (c : N) : bool :=
  ((9 <=? c) && (c <=? 13) || (28 <=? c) && (c <=? 32)
   || (c =? 133) || (c =? 160) || (c =? 5760)
   || (8192 <=? c) && (c <=? 8202)
   || (c =? 8232) || (c =? 8233) || (c =? 8239) || (c =? 8287)
   || (c =? 12288))%N.

(** [s.split()]: the maximal runs of non-whitespace, scanned left to right;
    [cur] is the run being read, most recent character first. *)
Fixpoint split_scan (cur : str) (s : str) : list str :=
  match s with
  | [] => if truthy cur then [rev cur] else []
  | c :: s' =>
      if isspace c
      then (if truthy cur then rev cur :: split_scan [] s'
            else split_scan [] s')
      else split_scan (c :: cur) s'
  end.

Definition split_ws (s : str) : list str := split_scan [] s.

(** [sep.join(parts)] for a one-character separator. *)
Fixpoint join (sep : N) (parts : list str) : str :=
  match parts with
  | [] => []
  | [p] => p
  | p :: rest => p ++ sep :: join sep rest
  end.

Fixpoint lstrip (s : str) : str :=
  match s with
  | [] => []
  | c :: s' => if isspace c then lstrip s' else s
  end.

Fixpoint rstrip (s : str) : str :=
  match s with
  | [] => []
  | c :: s' =>
      match rstrip s' with
      | [] => if isspace c then [] else [c]
      | r => c :: r
      end
  end.

(** [s.strip()] *)
Definition strip (s : str) : str := rstrip (lstrip s).

(** [s.startswith(p)] and [s.endswith(p)] *)
Definition startswith (s p : str) : bool :=
  str_eqb (firstn (length p) s) p.

Definition endswith (s p : str) : bool :=
  (length p <=? length s)%nat && str_eqb (skipn (length s - length p) s) p.

(** [s.replace(a, b)] for one-character [a] and [b]. *)
Definition replace_char (a b : N) (s : str) : str :=
  map (fun c => if N.eqb c a then b else c) s.

(** [s.split('\n')[0]]: the text before the first line feed. *)
Fixpoint first_line (s : str) : str :=
  match s with
  | [] => []
  | c :: s' => if N.eqb c newline then [] else c :: first_line s'
  end.

(** [s.lower()] on the ASCII letters.  Outside ASCII, [lower] yields an
    ASCII letter in two cases only: the Kelvin sign gives [k], a letter of
    no extension below, and the dotted capital I gives [i] followed by a
    combining dot, which cannot stand inside [.tiff]; so the suffix test
    this is used for is the same. *)
Definition lower_char (c : N) : N :=
  if ((65 <=? c) && (c <=? 90))%N then (c + 32)%N else c.

Definition lower (s : str) : str := map lower_char s.

(** ** [os.path], POSIX flavour *)

Definition path_join (a b : str) : str :=
  if startswith b [slash] then b
  else if negb (truthy a) || endswith a [slash] then a ++ b
  else a ++ slash :: b.

(** [s.rfind(c)], counting from [i]: the highest index, or [-1]. *)
Fixpoint rfind_from (c : N) (s : str) (i : Z) : Z :=
  match s with
  | [] => (-1)%Z
  | x :: s' =>
      let r := rfind_from c s' (i + 1)%Z in
      if (0 <=? r)%Z then r else if N.eqb x c then i else (-1)%Z
  end.

Definition rfind (c : N) (s : str) : Z := rfind_from c s 0%Z.

(** [os.path.splitext(p)[0]] *)
Definition splitext_root (p : str) : str :=
  let sepIndex := rfind slash p in
  let dotIndex := rfind dot p in
  if (sepIndex <? dotIndex)%Z
     && existsb (fun c => negb (N.eqb c dot))
          (firstn (Z.to_nat (dotIndex - (sepIndex + 1)))
             (skipn (Z.to_nat (sepIndex + 1)) p))
  then firstn (Z.to_nat dotIndex) p
  else p.

(** ** The outside world and the trace *)

(** What a call into a library gives back: a value, or an exception whose
    text is [cause]. *)
Inductive result (A : Type) : Type :=
| Ok (a : A)
| Err (cause : str).
Arguments Ok {A} a.
Arguments Err {A} cause.

(** A Python dict with string keys and values, in insertion order. *)
Definition dict := list (str * str).

Fixpoint get (key : str) (d : dict) : option str :=
  match d with
  | [] => None
  | (k, v) :: d' => if str_eqb k key then Some v else get key d'
  end.

(** The radio buttons of the spreadsheet variant. *)
Inductive scan_mode := normal | super_scan | intense_scan.
Inductive save_option := single_file | separate_files | extracted_name.

(** Calls into the filesystem and into the libraries that write documents;
    each of them can raise.  [OpenW] creates or truncates a file, [WriteTo]
    appends to a file opened before.  [PdfCell] is [pdf.add_page()],
    [pdf.set_font(...)] and [pdf.multi_cell(0, 10, text)]: the text is laid
    out in the document in memory, beginning on a new page and running over
    as many pages as it needs; [PdfOutput] writes the document, given by the
    texts of its cells. *)
Inductive fs_op :=
| MakeDirs (path : str)
| OpenW (path : str)
| WriteTo (path : str) (data : str)
| ToExcel (path : str) (rows : list dict)
| PdfCell (text : str)
| PdfOutput (path : str) (pages : list str).

(** The signals of [OCRWorker]. *)
Inductive signal :=
| progress_step (processed total : nat)
| file_done (file_path text : str)
| file_preview (file_path : str)
| all_done (records : list dict) (output_folder : str)
| error_msg (msg : str)
| log_msg (msg : str).

Inductive box := showerror | showinfo | showwarning.

(** What the progress label is set to; the percentage is a function of
    the two counts. *)
Inductive label :=
| LabelProgress (processed total : nat)
| LabelCanceled.

Inductive event :=
| Fs (op : fs_op)                        (* a call of [fs_op] that succeeded *)
| ReadText (image_path : str)            (* OCR is attempted on a file *)
| Emit (s : signal)
| MessageBox (b : box) (title msg : str)
| BarMaximum (n : nat)                   (* progress_bar["maximum"] = n *)
| BarValue (n : nat)                     (* progress_bar["value"] = n *)
| ProgressLabel (l : label)
| ImagePreview (file_path : str)         (* Image.open ... label.config(image=...) *)
| TextPreview (text : str)
| UpdateIdleTasks
| StartFile (path : str).                (* os.startfile opened the path *)

Record World := {
  isdir : str -> bool;
  listdir : str -> result (list str);
  (* easyocr.Reader(["en"], gpu=False), built once by the PyQt worker *)
  load_reader : result unit;
  (* building a reader when the caller does, then reader.readtext(path):
     the text r[1] of each result *)
  readtext : scan_mode -> str -> result (list str);
  (* None: the call succeeds; Some cause: it raises *)
  io_error : fs_op -> option str;
  (* whether PIL can open the file for the thumbnail *)
  image_open : str -> bool;
  (* os.startfile(path), which Windows alone has.  None: the call succeeds;
     Some cause: it raises, with AttributeError where the function is
     missing *)
  startfile : str -> option str;
  (* the cancel flag as the loop finds it at the top of iteration idx *)
  stop_flag : nat -> bool;
  (* os.path.relpath, which depends on the working directory *)
  relpath : str -> str -> str
}.

(** A computation: the events it caused, and its value unless an exception
    escaped. *)
Definition M (A : Type) : Type := list event * option A.

Definition ret {A} (a : A) : M A := ([], Some a).

Definition raise {A} : M A := ([], None).

Definition bind {A B} (m : M A) (k : A -> M B) : M B :=
  match m with
  | (t, None) => (t, None)
  | (t, Some a) => let (t', r) := k a in (t ++ t', r)
  end.

Notation "x <- m ;; k" := (bind m (fun x => k))
  (at level 61, m at next level, right associativity).
Notation "m ;; k" := (bind m (fun _ => k))
  (at level 61, right associativity).

Definition emit (e : event) : M unit := ([e], Some tt).

(** A filesystem call outside any [try]. *)
Definition fs (w : World) (op : fs_op) : M unit :=
  match io_error w op with
  | None => emit (Fs op)
  | Some _ => raise
  end.

(** A filesystem call inside [try: ... except Exception as e]. *)
Definition try_fs (w : World) (op : fs_op) : M (result unit) :=
  match io_error w op with
  | None => emit (Fs op) ;; ret (Ok tt)
  | Some e => ret (Err e)
  end.

(** [with open(path, "w", encoding="utf-8") as f: f.write(data)] *)
Definition write_text (w : World) (path data : str) : M unit :=
  fs w (OpenW path) ;; fs w (WriteTo path data).

(** [Image.open(path)], thumbnail, show in the label. *)
Definition show_image (w : World) (path : str) : M unit :=
  if image_open w path then emit (ImagePreview path) else raise.

(** [os.startfile(path)], outside any [try]. *)
Definition start_file (w : World) (path : str) : M unit :=
  match startfile w path with
  | None => emit (StartFile path)
  | Some _ => raise
  end.

(** The file names the bulk functions keep. *)
Definition image_extensions : list str :=
  [lit ".png"; lit ".jpg"; lit ".jpeg"; lit ".bmp"; lit ".tiff"].

Definition is_image (f : str) : bool :=
  existsb (endswith (lower f)) image_extensions.

(** How a loop was left. *)
Inductive loop_exit := Exhausted | Break.

(** ** LRD_QT_EXT.py: the PyQt worker *)

Module LRD_QT_EXT.

(** The module-level global; nothing in the file assigns it again. *)
Definition use_full_path : bool := true.

(** The character class of the regular expression in [sanitize_filename]:
    backslash, slash, star, question mark, colon, double quote, the two
    angle brackets and the bar. *)
Definition illegal_chars : str := [92; 47; 42; 63; 58; 34; 60; 62; 124]%N.

Definition sanitize_filename (name : str) : str :=
  filter (fun c => negb (existsb (N.eqb c) illegal_chars)) name.

(** [OCRApp.set_text_limit]: the dialog gives back [val >= 0] and whether the
    user accepted; the result is the new value of [text_length_limit]. *)
Definition set_text_limit (text_length_limit : option nat)
    (val : nat) (ok : bool) : option nat :=
  if ok then (if (val =? 0)%nat then None else Some val)
  else text_length_limit.

(** The [try] branch of [_extract_text], from the texts the engine
    returned; [text_length_limit] is the value of the global of that name
    while the run lasts. *)
Definition text_of_results (text_length_limit : option nat)
    (results : list str) : str :=
  let text := join space results in
  let text := join space (split_ws text) in
  let text := match text_length_limit with
              | Some n => firstn n text
              | None => text
              end in
  if truthy (strip text) then strip text else lit "[No text found]".

Definition _extract_text (w : World) (text_length_limit : option nat)
    (image_path : str) : M str :=
  emit (ReadText image_path) ;;
  ret (match readtext w normal image_path with
       | Ok results => text_of_results text_length_limit results
       | Err e => lit "Error: " ++ e
       end).

Definition _get_reader (w : World) : M (option unit) :=
  match load_reader w with
  | Ok r => ret (Some r)
  | Err e =>
      emit (Emit (error_msg (lit "Failed to load OCR model: " ++ e))) ;;
      ret None
  end.

(** The expression that names the folder of one file. *)
Definition folder_name_of (extracted_text : str) : str :=
  let name :=
    sanitize_filename (replace_char space underscore (firstn 50 extracted_text)) in
  if truthy name then name else lit "Extracted".

(** The body of the [for] loop of [run], after the interruption test; its
    value is the record appended to [records]. *)
Definition file_step (w : World) (text_length_limit : option nat)
    (folder_path output_folder : str) (total_files idx : nat)
    (file_name : str) : M dict :=
  let file_path := path_join folder_path file_name in
  emit (Emit (file_preview file_path)) ;;
  emit (Emit (log_msg (lit "Processing: " ++ file_name))) ;;
  extracted_text <- _extract_text w text_length_limit file_path ;;
  saved_path <-
    (if truthy (strip extracted_text)
        && negb (startswith extracted_text (lit "Error"))
     then
       let folder_name := folder_name_of extracted_text in
       let folder_path_final := path_join output_folder folder_name in
       fs w (MakeDirs folder_path_final) ;;
       let text_file_path :=
         path_join folder_path_final (lit "extracted_text.txt") in
       write_text w text_file_path extracted_text ;;
       ret (if use_full_path then folder_path_final
            else relpath w folder_path_final folder_path)
     else ret (lit "[No folder created]")) ;;
  emit (Emit (file_done file_path extracted_text)) ;;
  emit (Emit (progress_step (idx + 1) total_files)) ;;
  ret [(lit "File Name", file_name);
       (lit "Extracted Text", extracted_text);
       (lit "Saved Path", saved_path)].

(** [for idx, file_name in enumerate(files)], from index [idx] on. *)
Fixpoint loop (w : World) (text_length_limit : option nat)
    (folder_path output_folder : str) (total_files idx : nat)
    (files : list str) (records : list dict) : M (loop_exit * list dict) :=
  match files with
  | [] => ret (Exhausted, records)
  | file_name :: rest =>
      if stop_flag w idx then ret (Break, records)
      else
        record <- file_step w text_length_limit folder_path output_folder
                    total_files idx file_name ;;
        loop w text_length_limit folder_path output_folder total_files
          (S idx) rest (records ++ [record])
  end.

(** The files [run] works on: [specific_files] when it is given and not
    empty, the images of the folder otherwise. *)
Definition select_files (w : World) (folder_path : str)
    (specific_files : option (list str)) : result (list str) :=
  match specific_files with
  | Some (f :: l) => Ok (f :: l)
  | _ =>
      match listdir w folder_path with
      | Ok names => Ok (filter is_image names)
      | Err e => Err e
      end
  end.

(** [OCRWorker.run] *)
Definition run (w : World) (text_length_limit : option nat)
    (folder_path : str) (specific_files : option (list str)) : M unit :=
  match select_files w folder_path specific_files with
  | Err e => emit (Emit (error_msg (lit "Invalid folder: " ++ e)))
  | Ok files =>
      let total_files := length files in
      if (total_files =? 0)%nat then
        emit (Emit (error_msg
          (lit "No valid image files found in the selected folder.")))
      else
        let output_folder := path_join folder_path (lit "Extracted_Texts") in
        fs w (MakeDirs output_folder) ;;
        reader <- _get_reader w ;;
        match reader with
        | None => ret tt
        | Some _ =>
            r <- loop w text_length_limit folder_path output_folder
                   total_files 0 files [] ;;
            let records := snd r in
            (match records with
             | [] => ret tt
             | _ :: _ =>
                 let excel_file_path :=
                   path_join output_folder (lit "extracted_texts.xlsx") in
                 saved <- try_fs w (ToExcel excel_file_path records) ;;
                 match saved with
                 | Ok _ =>
                     emit (Emit (log_msg
                       (lit "Saved results to " ++ excel_file_path)))
                 | Err e =>
                     emit (Emit (error_msg
                       (lit "Failed writing Excel: " ++ e)))
                 end
             end) ;;
            emit (Emit (all_done records output_folder))
        end
  end.

End LRD_QT_EXT.

(** ** update.py: Tk, one aggregate text file *)

Module update.

Definition extract_text_from_image (w : World) (image_path : str) : M str :=
  emit (ReadText image_path) ;;
  ret (match readtext w normal image_path with
       | Ok results => join newline results
       | Err e => lit "Error: " ++ e
       end).

(** The text written for one file: name, colon, text, forty dashes. *)
Definition entry (file_name extracted_text : str) : str :=
  file_name ++ lit ":" ++ [newline] ++ extracted_text ++ [newline]
  ++ repeat 45%N 40 ++ [newline].

(** The [for] loop; [Break] stands for the [return] in the cancel branch. *)
Fixpoint loop (w : World) (folder_path output_file_path : str)
    (total_files i : nat) (files : list str) : M loop_exit :=
  match files with
  | [] => ret Exhausted
  | file_name :: rest =>
      if stop_flag w i then
        emit (MessageBox showinfo (lit "Process Stopped")
                (lit "The extraction process was canceled.")) ;;
        emit (BarValue 0) ;;
        emit (ProgressLabel LabelCanceled) ;;
        ret Break
      else
        let file_path := path_join folder_path file_name in
        extracted_text <- extract_text_from_image w file_path ;;
        fs w (WriteTo output_file_path (entry file_name extracted_text)) ;;
        emit (BarValue (i + 1)) ;;
        emit (ProgressLabel (LabelProgress (i + 1) total_files)) ;;
        show_image w file_path ;;
        emit UpdateIdleTasks ;;
        loop w folder_path output_file_path total_files (S i) rest
  end.

Definition process_bulk_images (w : World) (folder_path : str) : M unit :=
  if negb (isdir w folder_path) then
    emit (MessageBox showerror (lit "Error") (lit "Selected folder is invalid."))
  else
    match listdir w folder_path with
    | Err _ => raise
    | Ok names =>
        let files := filter is_image names in
        let total_files := length files in
        if (total_files =? 0)%nat then
          emit (MessageBox showinfo (lit "No Images Found")
                  (lit "No valid image files found in the selected folder."))
        else
          emit (BarMaximum total_files) ;;
          emit (ProgressLabel (LabelProgress 0 total_files)) ;;
          let output_file_path :=
            path_join folder_path (lit "extracted_texts.txt") in
          fs w (OpenW output_file_path) ;;
          ex <- loop w folder_path output_file_path total_files 0 files ;;
          match ex with
          | Break => ret tt
          | Exhausted =>
              emit (MessageBox showinfo (lit "Success")
                      (lit "All texts have been extracted and saved to "
                       ++ output_file_path)) ;;
              start_file w folder_path
          end
    end.

End update.

(** ** extra_button.py: Tk, one text file per image, optional PDF *)

Module extra_button.

Definition extract_text_from_image (w : World) (image_path : str) : M str :=
  emit (ReadText image_path) ;;
  ret (match readtext w normal image_path with
       | Ok results => join newline results
       | Err e => lit "Error: " ++ e
       end).

(** The file name built from the text in [save_text_as_filename] and
    [save_text_with_preview]. *)
Definition filename_of (extracted_text : str) : str :=
  replace_char slash underscore
    (replace_char space underscore (firstn 50 (first_line extracted_text)))
  ++ lit ".txt".

Definition save_text_as_filename (w : World) (image_path folder_path : str)
    : M unit :=
  extracted_text <- extract_text_from_image w image_path ;;
  if truthy (strip extracted_text) then
    let filename := filename_of extracted_text in
    let save_path := path_join folder_path filename in
    opened <- try_fs w (OpenW save_path) ;;
    match opened with
    | Err e =>
        emit (MessageBox showerror (lit "Error")
                (lit "Could not save file: " ++ e))
    | Ok _ =>
        written <- try_fs w (WriteTo save_path extracted_text) ;;
        match written with
        | Err e =>
            emit (MessageBox showerror (lit "Error")
                    (lit "Could not save file: " ++ e))
        | Ok _ =>
            emit (MessageBox showinfo (lit "Success")
                    (lit "File saved as: " ++ filename))
        end
    end
  else
    emit (MessageBox showwarning (lit "No Text Found")
            (lit "No text detected in the image to save.")).

(** The [for] loop of [process_bulk_images]; [pages] are the texts laid out
    in the PDF so far, one [add_page] each.  This loop reads no cancel
    flag. *)
Fixpoint loop (w : World) (folder_path : str) (save_as_pdf : bool)
    (i : nat) (files : list str) (pages : list str) : M (list str) :=
  match files with
  | [] => ret pages
  | file_name :: rest =>
      let file_path := path_join folder_path file_name in
      extracted_text <- extract_text_from_image w file_path ;;
      let text_file_path :=
        path_join folder_path (splitext_root file_name ++ lit ".txt") in
      write_text w text_file_path extracted_text ;;
      pages <-
        (if save_as_pdf
         then
           let cell :=
             file_name ++ lit ":" ++ [newline; newline] ++ extracted_text in
           fs w (PdfCell cell) ;;
           ret (pages ++ [cell])
         else ret pages) ;;
      emit (BarValue (i + 1)) ;;
      emit UpdateIdleTasks ;;
      loop w folder_path save_as_pdf (S i) rest pages
  end.

Definition process_bulk_images (w : World) (folder_path : str)
    (save_as_pdf : bool) : M unit :=
  if negb (isdir w folder_path) then
    emit (MessageBox showerror (lit "Error") (lit "Selected folder is invalid."))
  else
    match listdir w folder_path with
    | Err _ => raise
    | Ok names =>
        let files := filter is_image names in
        let total_files := length files in
        if (total_files =? 0)%nat then
          emit (MessageBox showinfo (lit "No Images Found")
                  (lit "No valid image files found in the selected folder."))
        else
          emit (BarMaximum total_files) ;;
          pages <- loop w folder_path save_as_pdf 0 files [] ;;
          if save_as_pdf then
            let pdf_file_path :=
              path_join folder_path (lit "extracted_texts.pdf") in
            fs w (PdfOutput pdf_file_path pages) ;;
            emit (MessageBox showinfo (lit "Success")
                    (lit "Texts saved as PDF at " ++ pdf_file_path))
          else
            emit (MessageBox showinfo (lit "Success")
                    (lit "Texts extracted and saved as .txt files."))
    end.

End extra_button.

(** ** extra_excel.prompt.py: Tk, three save options and a spreadsheet *)

Module extra_excel_prompt.

Definition extract_text_from_image (w : World) (image_path : str)
    (mode : scan_mode) : M str :=
  emit (ReadText image_path) ;;
  ret (match readtext w mode image_path with
       | Ok results => join newline results
       | Err e => lit "Error: " ++ e
       end).

(** The folder name built from the text under [extracted_name]. *)
Definition folder_name_of (extracted_text : str) : str :=
  replace_char slash underscore
    (replace_char space underscore (firstn 50 (first_line extracted_text))).

(** The save step of one file: the new value of [folder_path], which the
    [extracted_name] branch assigns, and the records after the step. *)
Definition save_step (w : World) (option : save_option)
    (output_folder folder_path file_name extracted_text : str)
    (records : list dict) : M (str * list dict) :=
  match option with
  | single_file =>
      ret (folder_path,
           records ++ [[(lit "File Name", file_name);
                        (lit "Extracted Text", extracted_text)]])
  | separate_files =>
      let subfolder := path_join output_folder (splitext_root file_name) in
      fs w (MakeDirs subfolder) ;;
      let text_file_path := path_join subfolder (lit "extracted_text.txt") in
      write_text w text_file_path extracted_text ;;
      ret (folder_path,
           records ++ [[(lit "File Name", file_name);
                        (lit "Saved Path", text_file_path)]])
  | extracted_name =>
      if truthy (strip extracted_text) then
        let folder_name := folder_name_of extracted_text in
        let folder_path := path_join output_folder folder_name in
        fs w (MakeDirs folder_path) ;;
        let text_file_path := path_join folder_path (lit "extracted_text.txt") in
        write_text w text_file_path extracted_text ;;
        ret (folder_path,
             records ++ [[(lit "Extracted Name", folder_name);
                          (lit "Saved Path", text_file_path)]])
      else ret (folder_path, records)
  end.

(** The [for] loop; [Break] stands for the [return] in the cancel branch. *)
Fixpoint loop (w : World) (option : save_option) (mode : scan_mode)
    (output_folder : str) (total_files i : nat) (files : list str)
    (folder_path : str) (records : list dict) : M (loop_exit * list dict) :=
  match files with
  | [] => ret (Exhausted, records)
  | file_name :: rest =>
      if stop_flag w i then
        emit (MessageBox showinfo (lit "Process Stopped")
                (lit "The extraction process was canceled.")) ;;
        emit (BarValue 0) ;;
        emit (ProgressLabel LabelCanceled) ;;
        ret (Break, records)
      else
        let file_path := path_join folder_path file_name in
        extracted_text <- extract_text_from_image w file_path mode ;;
        saved <- save_step w option output_folder folder_path file_name
                   extracted_text records ;;
        let (folder_path, records) := saved in
        emit (BarValue (i + 1)) ;;
        emit (ProgressLabel (LabelProgress (i + 1) total_files)) ;;
        show_image w file_path ;;
        emit (TextPreview extracted_text) ;;
        emit UpdateIdleTasks ;;
        loop w option mode output_folder total_files (S i) rest
          folder_path records
  end.

Definition process_bulk_images (w : World) (folder_path : str)
    (option : save_option) (mode : scan_mode) : M unit :=
  if negb (isdir w folder_path) then
    emit (MessageBox showerror (lit "Error") (lit "Selected folder is invalid."))
  else
    match listdir w folder_path with
    | Err _ => raise
    | Ok names =>
        let files := filter is_image names in
        let total_files := length files in
        if (total_files =? 0)%nat then
          emit (MessageBox showinfo (lit "No Images Found")
                  (lit "No valid image files found in the selected folder."))
        else
          emit (BarMaximum total_files) ;;
          emit (ProgressLabel (LabelProgress 0 total_files)) ;;
          let output_folder := path_join folder_path (lit "Extracted_Texts") in
          fs w (MakeDirs output_folder) ;;
          r <- loop w option mode output_folder total_files 0 files
                 folder_path [] ;;
          match r with
          | (Break, _) => ret tt
          | (Exhausted, records) =>
              let excel_file_path :=
                path_join output_folder (lit "extracted_texts.xlsx") in
              fs w (ToExcel excel_file_path records) ;;
              emit (MessageBox showinfo (lit "Success")
                      (lit "All texts have been extracted and saved in "
                       ++ output_folder)) ;;
              start_file w output_folder
          end
    end.

End extra_excel_prompt.

(** ** Reading a trace *)

Definition fs_ops (t : list event) : list fs_op :=
  flat_map (fun e => match e with Fs op => [op] | _ => [] end) t.

Definition ocr_calls (t : list event) : list str :=
  flat_map (fun e => match e with ReadText p => [p] | _ => [] end) t.

Definition made_dirs (t : list event) : list str :=
  flat_map (fun e => match e with Fs (MakeDirs p) => [p] | _ => [] end) t.

(** The data written to files, in order. *)
Definition written_texts (t : list event) : list str :=
  flat_map (fun e => match e with Fs (WriteTo _ d) => [d] | _ => [] end) t.


(** The rows of each spreadsheet written. *)
Definition excel_writes (t : list event) : list (list dict) :=
  flat_map (fun e => match e with Fs (ToExcel _ rows) => [rows] | _ => [] end) t.

(** What one filesystem call makes, writes or saves. *)
Definition op_dirs (op : fs_op) : list str :=
  match op with MakeDirs p => [p] | _ => [] end.

Definition op_texts (op : fs_op) : list str :=
  match op with WriteTo _ d => [d] | _ => [] end.

Definition op_rows (op : fs_op) : list (list dict) :=
  match op with ToExcel _ rows => [rows] | _ => [] end.

(** The (processed, total) pairs the PyQt worker reported. *)
Definition progress_signals (t : list event) : list (nat * nat) :=
  flat_map (fun e => match e with
                     | Emit (progress_step p n) => [(p, n)]
                     | _ => []
                     end) t.

(** The values the Tk progress bar took, in order. *)
Definition bar_values (t : list event) : list nat :=
  flat_map (fun e => match e with BarValue v => [v] | _ => [] end) t.

(** What a Tk variant tells about its progress, in order: the events that
    set the maximum of the bar, its value, or the progress label. *)
Definition tk_progress (t : list event) : list event :=
  filter (fun e => match e with
                   | BarMaximum _ | BarValue _ | ProgressLabel _ => true
                   | _ => false
                   end) t.

(** The messages of the [error_msg] signal. *)
Definition error_msgs (t : list event) : list str :=
  flat_map (fun e => match e with Emit (error_msg m) => [m] | _ => [] end) t.

(** The records handed over with [all_done]. *)
Definition done_records (t : list event) : list (list dict) :=
  flat_map (fun e => match e with
                     | Emit (all_done records _) => [records]
                     | _ => []
                     end) t.


(** ** The specification's words *)

(** Whitespace runs collapsed to single spaces: a whitespace character is
    dropped when another follows it and becomes a space otherwise. *)
Fixpoint collapse_runs (s : str) : str :=
  match s with
  | [] => []
  | c :: s' =>
      if isspace c then
        match s' with
        | [] => [space]
        | c' :: _ => if isspace c' then collapse_runs s'
                     else space :: collapse_runs s'
        end
      else c :: collapse_runs s'
  end.

(** The collapsed form of [r] when a whitespace character precedes it. *)
Definition after_space (r : str) : str :=
  match r with
  | [] => [space]
  | c :: _ => if isspace c then collapse_runs r else space :: collapse_runs r
  end.

(** "collapsing internal whitespace runs to single spaces and trimming
    leading/trailing whitespace" *)
Definition spec_normalize (s : str) : str := collapse_runs (strip s).

(** "if the result is empty, substitute a sentinel" *)
Definition spec_stored_text (s : str) : str :=
  match spec_normalize s with
  | [] => lit "[No text found]"
  | t => t
  end.

(** A name ends, case-insensitively, in [ext]. *)
Definition ends_with_ci (name ext : str) : Prop :=
  exists stem suffix, name = stem ++ suffix /\ lower suffix = ext.

(** A name carries one of the recognized image extensions. *)
Definition recognized (name : str) : Prop :=
  exists ext, In ext image_extensions /\ ends_with_ci name ext.

(** ** Values the steps compute *)

(** The text [LRD_QT_EXT._extract_text] returns for a path. *)
Definition qt_text (w : World) (text_length_limit : option nat)
    (image_path : str) : str :=
  match readtext w normal image_path with
  | Ok results => LRD_QT_EXT.text_of_results text_length_limit results
  | Err e => lit "Error: " ++ e
  end.

(** The text [extract_text_from_image] of the Tk variants returns. *)
Definition tk_text (w : World) (mode : scan_mode) (image_path : str) : str :=
  match readtext w mode image_path with
  | Ok results => join newline results
  | Err e => lit "Error: " ++ e
  end.

(** Whether the PyQt worker makes a folder for a text: the condition of
    the [if] in the loop of [run]. *)
Definition qt_gets_folder (text : str) : bool :=
  truthy (strip text) && negb (startswith text (lit "Error")).

(** The filesystem calls of one PyQt step for a text. *)
Definition qt_step_ops (output_folder text : str) : list fs_op :=
  if qt_gets_folder text then
    let d := path_join output_folder (LRD_QT_EXT.folder_name_of text) in
    [MakeDirs d;
     OpenW (path_join d (lit "extracted_text.txt"));
     WriteTo (path_join d (lit "extracted_text.txt")) text]
  else [].

(** The record of one PyQt step for a file and its text. *)
Definition qt_step_record (output_folder file_name text : str) : dict :=
  [(lit "File Name", file_name);
   (lit "Extracted Text", text);
   (lit "Saved Path",
    if qt_gets_folder text
    then path_join output_folder (LRD_QT_EXT.folder_name_of text)
    else lit "[No folder created]")].

(** The record and the filesystem calls of the PyQt step on a file. *)
Definition qt_record_of (w : World) (text_length_limit : option nat)
    (folder_path output_folder file_name : str) : dict :=
  qt_step_record output_folder file_name
    (qt_text w text_length_limit (path_join folder_path file_name)).

Definition qt_ops_of (w : World) (text_length_limit : option nat)
    (folder_path output_folder file_name : str) : list fs_op :=
  qt_step_ops output_folder
    (qt_text w text_length_limit (path_join folder_path file_name)).

(** How many files a loop that tests [stop] before each step handles when
    it starts at index [idx] with [n] files ahead. *)
Fixpoint steps_before_stop (stop : nat -> bool) (idx n : nat) : nat :=
  match n with
  | 0 => 0
  | S n' => if stop idx then 0 else S (steps_before_stop stop (S idx) n')
  end.

(** ** Worlds *)

(** What [os.startfile] raises where the platform has no such function. *)
Definition no_startfile : str :=
  lit "module 'os' has no attribute 'startfile'".

(** A world where every folder exists and lists [names], the engine answers
    [ocr], every call of [fs_op] and every preview succeeds, there is no
    [os.startfile], and the cancel flag reads [stop]. *)
Definition world_of (names : list str) (ocr : str -> result (list str))
    (stop : nat -> bool) : World :=
  {| isdir := fun _ => true;
     listdir := fun _ => Ok names;
     load_reader := Ok tt;
     readtext := fun _ p => ocr p;
     io_error := fun _ => None;
     image_open := fun _ => true;
     startfile := fun _ => Some no_startfile;
     stop_flag := stop;
     relpath := fun p _ => p |}.

(** Every call of [fs_op] and every preview of the world succeeds. *)
Definition io_ok (w : World) : Prop :=
  (forall op, io_error w op = None) /\ (forall p, image_open w p = true).

(** The cancel flag is down at the first [k] checks and up at the next. *)
Definition cancelled_at (w : World) (k : nat) : Prop :=
  (forall i, i < k -> stop_flag w i = false) /\ stop_flag w k = true.

(** The cancel flag is down at every check. *)
Definition never_cancelled (w : World) : Prop :=
  forall i, stop_flag w i = false.

(** ** Stored texts and folder names *)

(** A text respects the limit [n]: it has at most [n] characters, or it is
    the placeholder for an empty result, or an error marker. *)
Definition limited (n : nat) (text : str) : Prop :=
  length text <= n
  \/ text = lit "[No text found]"
  \/ exists cause, text = lit "Error: " ++ cause.

(** The text of a record, when it has one, respects the limit. *)
Definition record_limited (n : nat) (r : dict) : Prop :=
  forall text, get (lit "Extracted Text") r = Some text -> limited n text.

(** What an event stores respects the limit: the data written to a file,
    the rows of a spreadsheet, the records handed over at the end. *)
Definition event_limited (n : nat) (e : event) : Prop :=
  match e with
  | Fs (WriteTo _ data) => limited n data
  | Fs (ToExcel _ rows) => Forall (record_limited n) rows
  | Emit (all_done rows _) => Forall (record_limited n) rows
  | _ => True
  end.

(** The name before the fallback: the sanitized first fifty characters,
    spaces turned into underscores. *)
Definition sanitized_prefix (text : str) : str :=
  LRD_QT_EXT.sanitize_filename
    (replace_char space underscore (firstn 50 text)).

(** A folder made for a file inside [output_folder] carries a name that is
    not empty: the sanitized prefix of some text, or [Extracted] when that
    prefix is empty. *)
Definition named_folder (output_folder path : str) : Prop :=
  exists text name,
    path = path_join output_folder name
    /\ name = LRD_QT_EXT.folder_name_of text
    /\ name <> []
    /\ (sanitized_prefix text = [] -> name = lit "Extracted")
    /\ (sanitized_prefix text <> [] -> name = sanitized_prefix text).

(** ** Example worlds *)

Definition imgs : str := lit "/imgs".

(** One image whose text is empty; nobody cancels. *)
Definition w_blank : World :=
  world_of [lit "a.png"] (fun _ => Ok []) (fun _ => false).


(** Two images reading [Hello World]; nobody cancels. *)
Definition w_hello : World :=
  world_of [lit "a.png"; lit "b.png"] (fun _ => Ok [lit "Hello World"])
    (fun _ => false).

(** The same two images; cancel is pressed while the first is handled. *)
Definition w_hello_cancel : World :=
  world_of [lit "a.png"; lit "b.png"] (fun _ => Ok [lit "Hello World"])
    (fun i => (1 <=? i)%nat).

(** The scenario of the specification: [a.png] reads [Hello World], the
    engine fails on [b.jpg] with [cause]. *)
Definition w_scenario (cause : str) : World :=
  world_of [lit "a.png"; lit "b.jpg"]
    (fun p => if endswith p (lit "a.png") then Ok [lit "Hello World"]
              else Err cause)
    (fun _ => false).

(** One image whose whole text is a question mark. *)
Definition w_question : World :=
  world_of [lit "a.png"] (fun _ => Ok [lit "?"]) (fun _ => false).

(** One image that reads [Q: What?]. *)
Definition w_colon : World :=
  world_of [lit "a.png"] (fun _ => Ok [lit "Q: What?"]) (fun _ => false).

(** ** More of the sources *)

(** The value the dialog of [OCRApp.set_text_limit] opens with:
    [text_length_limit if text_length_limit is not None else 0]. *)
Definition current_limit (text_length_limit : option nat) : nat :=
  match text_length_limit with
  | Some n => n
  | None => 0
  end.

(** The limit after a series of dialogs, each given by the number entered
    and whether it was accepted. *)
Definition after_dialogs (text_length_limit : option nat)
    (dialogs : list (nat * bool)) : option nat :=
  fold_left (fun l d => LRD_QT_EXT.set_text_limit l (fst d) (snd d))
    dialogs text_length_limit.

Module extra_button_ui.

(** [add_to_history]: the listbox as the list of its items, first item
    first; [delete(10, END)] drops the items from index 10 on. *)
Definition add_to_history (path : str) (history_list : list str) : list str :=
  let items := path :: history_list in
  if (10 <? length items)%nat then firstn 10 items else items.

(** [save_text_with_preview] *)
Definition save_text_with_preview (w : World) (image_path folder_path : str)
    : M unit :=
  extracted_text <- extra_button.extract_text_from_image w image_path ;;
  if truthy (strip extracted_text) then
    let filename := extra_button.filename_of extracted_text in
    let save_path := path_join folder_path filename in
    write_text w save_path extracted_text ;;
    emit (TextPreview extracted_text) ;;
    emit (MessageBox showinfo (lit "Success")
            (lit "Text saved as: " ++ filename))
  else
    emit (MessageBox showwarning (lit "No Text Found")
            (lit "No text detected in the image.")).

End extra_button_ui.

(** ** What the filesystem calls leave behind *)

(** The effect of one call on the content of the file at [path]; [None]
    while the file has not been opened for writing. *)
Definition apply_op (path : str) (content : option str) (op : fs_op)
    : option str :=
  match op with
  | OpenW p => if str_eqb p path then Some [] else content
  | WriteTo p data =>
      if str_eqb p path then option_map (fun c => c ++ data) content
      else content
  | _ => content
  end.

Definition file_content (path : str) (ops : list fs_op) : option str :=
  fold_left (apply_op path) ops None.

(** The message boxes of a trace. *)
Definition boxes (t : list event) : list box :=
  flat_map (fun e => match e with MessageBox b _ _ => [b] | _ => [] end) t.

(** A word as [str.split()] gives them: not empty, no whitespace in it. *)
Definition is_word (word : str) : Prop :=
  word <> [] /\ Forall (fun c => isspace c = false) word.

(** [prefix p s]: [s] begins with [p]. *)
Definition prefix (p s : str) : Prop := exists rest, s = p ++ rest.

(** ** More example worlds *)

(** Two images reading [Hello World]; everything succeeds but writing the
    spreadsheet. *)
Definition w_excel_fails : World :=
  {| isdir := fun _ => true;
     listdir := fun _ => Ok [lit "a.png"; lit "b.png"];
     load_reader := Ok tt;
     readtext := fun _ _ => Ok [lit "Hello World"];
     io_error := fun op => match op with
                           | ToExcel _ _ => Some (lit "disk full")
                           | _ => None
                           end;
     image_open := fun _ => true;
     startfile := fun _ => Some no_startfile;
     stop_flag := fun _ => false;
     relpath := fun p _ => p |}.

(** Two images that the engine reads but PIL cannot open. *)
Definition w_no_preview : World :=
  {| isdir := fun _ => true;
     listdir := fun _ => Ok [lit "a.png"; lit "b.png"];
     load_reader := Ok tt;
     readtext := fun _ _ => Ok [lit "Hello World"];
     io_error := fun _ => None;
     image_open := fun _ => false;
     startfile := fun _ => Some no_startfile;
     stop_flag := fun _ => false;
     relpath := fun p _ => p |}.

(** An image whose text is the heading of an error dialog. *)
Definition w_error_text : World :=
  world_of [lit "a.png"] (fun _ => Ok [lit "Error 404"]) (fun _ => false).

(** A folder that cannot be listed. *)
Definition w_unlistable : World :=
  {| isdir := fun _ => true;
     listdir := fun _ => Err (lit "gone");
     load_reader := Ok tt;
     readtext := fun _ _ => Ok [lit "Hello World"];
     io_error := fun _ => None;
     image_open := fun _ => true;
     startfile := fun _ => Some no_startfile;
     stop_flag := fun _ => false;
     relpath := fun p _ => p |}.

(** Two images reading [Hello World]; the output folder can be made, no
    folder inside it can. *)
Definition w_no_subfolder : World :=
  {| isdir := fun _ => true;
     listdir := fun _ => Ok [lit "a.png"; lit "b.png"];
     load_reader := Ok tt;
     readtext := fun _ _ => Ok [lit "Hello World"];
     io_error := fun op =>
       match op with
       | MakeDirs p =>
           if str_eqb p (lit "/imgs/Extracted_Texts") then None
           else Some (lit "denied")
       | _ => None
       end;
     image_open := fun _ => true;
     startfile := fun _ => Some no_startfile;
     stop_flag := fun _ => false;
     relpath := fun p _ => p |}.

(** One image reading [Hello World] in a folder nothing can be written
    to. *)
Definition w_read_only : World :=
  {| isdir := fun _ => true;
     listdir := fun _ => Ok [lit "a.png"];
     load_reader := Ok tt;
     readtext := fun _ _ => Ok [lit "Hello World"];
     io_error := fun op => match op with
                           | OpenW _ => Some (lit "read-only")
                           | _ => None
                           end;
     image_open := fun _ => true;
     startfile := fun _ => Some no_startfile;
     stop_flag := fun _ => false;
     relpath := fun p _ => p |}.

(** Two images with one stem. *)
Definition w_same_stem : World :=
  world_of [lit "a.png"; lit "a.jpg"]
    (fun p => if endswith p (lit ".png") then Ok [lit "first"]
              else Ok [lit "second"])
    (fun _ => false).

(** The slots of [OCRApp] in LRD_QT_EXT.py that compute something. *)
Module OCRApp.

(** [_on_file_done]: the text put into the preview. *)
Definition _on_file_done (text : str) : str :=
  if truthy text then text else lit "[No text found]".

End OCRApp.

(** The (path, text) pairs of the [file_done] signals of a trace. *)
Definition file_done_signals (t : list event) : list (str * str) :=
  flat_map (fun e => match e with
                     | Emit (file_done p text) => [(p, text)]
                     | _ => []
                     end) t.

(** A [file_done] signal carries the text of its path. *)
Definition done_with_own_text (w : World) (text_length_limit : option nat)
    (e : event) : Prop :=
  match e with
  | Emit (file_done p text) => text = qt_text w text_length_limit p
  | _ => True
  end.

(** Two images, the first reading [Hello], the second a euro sign and a
    five; the PDF library refuses a cell with a character outside
    Latin-1, as fpdf2 does with its built-in fonts. *)
Definition w_euro : World :=
  {| isdir := fun _ => true;
     listdir := fun _ => Ok [lit "a.png"; lit "b.png"];
     load_reader := Ok tt;
     readtext := fun _ p => if endswith p (lit "b.png")
                            then Ok [[8364; 53]%N]
                            else Ok [lit "Hello"];
     io_error := fun op =>
       match op with
       | PdfCell text =>
           if existsb (fun c => (255 <? c)%N) text
           then Some (lit "character outside the range of the font")
           else None
       | _ => None
       end;
     image_open := fun _ => true;
     startfile := fun _ => Some no_startfile;
     stop_flag := fun _ => false;
     relpath := fun p _ => p |}.

(** The event is not the [all_done] signal. *)
Definition not_all_done (e : event) : Prop :=
  match e with Emit (all_done _ _) => False | _ => True end.

(** * Proofs *)

(** ** The monad *)

Lemma bind_ret_l {A B} (a : A) (k : A -> M B) : bind (ret a) k = k a.
Proof. unfold bind, ret. destruct (k a) as [t r]. reflexivity. Qed.

Lemma bind_none {A B} (t : list event) (k : A -> M B) :
  bind (t, None) k = (t, None).
Proof. reflexivity. Qed.

Lemma bind_emit {B} (e : event) (k : unit -> M B) :
  bind (emit e) k = (e :: fst (k tt), snd (k tt)).
Proof. unfold bind, emit. destruct (k tt) as [t r]. reflexivity. Qed.

Lemma fs_ok (w : World) (op : fs_op) :
  io_error w op = None -> fs w op = ([Fs op], Some tt).
Proof. unfold fs. now intros ->. Qed.

Lemma fs_refused (w : World) (op : fs_op) (e : str) :
  io_error w op = Some e -> fs w op = ([], None).
Proof. unfold fs. now intros ->. Qed.

(** ** Strings *)

Lemma str_eqb_eq (a b : str) : str_eqb a b = true <-> a = b.
Proof.
  revert b. induction a as [|x a IH]; intros [|y b]; simpl; split;
    try discriminate; try reflexivity.
  - intros H. apply andb_true_iff in H as [H1 H2].
    apply N.eqb_eq in H1. apply IH in H2. now subst.
  - intros H. inversion H; subst. rewrite N.eqb_refl. simpl. now apply IH.
Qed.

Lemma truthy_false (s : str) : truthy s = false <-> s = [].
Proof. destruct s; simpl; split; congruence. Qed.

Lemma lstrip_length (s : str) : length (lstrip s) <= length s.
Proof.
  induction s as [|c s IH]; simpl; [lia|].
  destruct (isspace c); simpl; lia.
Qed.

Lemma rstrip_length (s : str) : length (rstrip s) <= length s.
Proof.
  induction s as [|c s IH]; simpl; [lia|].
  destruct (rstrip s); [destruct (isspace c)|]; simpl in *; lia.
Qed.

Lemma strip_length (s : str) : length (strip s) <= length s.
Proof.
  unfold strip. pose proof (rstrip_length (lstrip s)).
  pose proof (lstrip_length s). lia.
Qed.

Lemma rstrip_cons_nonspace (c : N) (s : str) :
  isspace c = false -> rstrip (c :: s) = c :: rstrip s.
Proof. intros H. simpl. rewrite H. now destruct (rstrip s). Qed.

Lemma rstrip_cons_nonempty (c : N) (s : str) :
  rstrip s <> [] -> rstrip (c :: s) = c :: rstrip s.
Proof. intros H. simpl. destruct (rstrip s); congruence. Qed.

Lemma rstrip_cons_space_nil (c : N) (s : str) :
  isspace c = true -> rstrip s = [] -> rstrip (c :: s) = [].
Proof. intros H E. simpl. now rewrite E, H. Qed.

(** Trimming on the left cannot bring text back. *)
Lemma rstrip_lstrip_nil (s : str) : rstrip (lstrip s) = [] -> rstrip s = [].
Proof.
  induction s as [|c s IH]; simpl; [easy|].
  destruct (isspace c) eqn:E.
  - intros H. rewrite (IH H). reflexivity.
  - simpl. rewrite E. destruct (rstrip s); discriminate.
Qed.

Lemma collapse_runs_nil (s : str) : collapse_runs s = [] -> s = [].
Proof.
  induction s as [|c s IH]; [easy|]. simpl.
  destruct (isspace c).
  - destruct s as [|c' s']; [discriminate|].
    destruct (isspace c'); [|discriminate].
    intros H. apply IH in H. discriminate.
  - discriminate.
Qed.

Lemma collapse_runs_space (c : N) (r : str) :
  isspace c = true -> collapse_runs (c :: r) = after_space r.
Proof. intros H. simpl. rewrite H. reflexivity. Qed.

Lemma after_space_rstrip (s : str) :
  rstrip s <> [] ->
  after_space (rstrip s) = space :: collapse_runs (rstrip (lstrip s)).
Proof.
  induction s as [|d s IH]; [easy|]. intros Hne.
  destruct (isspace d) eqn:Ed.
  - assert (Hs : rstrip s <> []).
    { intros E. apply Hne. now apply rstrip_cons_space_nil. }
    rewrite (rstrip_cons_nonempty d s Hs).
    cbn [after_space lstrip]. rewrite Ed.
    rewrite (collapse_runs_space d _ Ed). now apply IH.
  - rewrite (rstrip_cons_nonspace d s Ed).
    cbn [after_space lstrip]. rewrite Ed.
    now rewrite (rstrip_cons_nonspace d s Ed).
Qed.

Lemma join_cons (sep : N) (p : str) (rest : list str) :
  join sep (p :: rest) =
  p ++ match rest with [] => [] | _ :: _ => sep :: join sep rest end.
Proof. destruct rest; simpl; [now rewrite app_nil_r | reflexivity]. Qed.

(** Every word [split_scan] produces has a character. *)
Lemma split_scan_words (s cur : str) :
  Forall (fun word => word <> []) (split_scan cur s).
Proof.
  revert cur. induction s as [|c s IH]; intros cur; simpl.
  - destruct cur as [|x cur]; simpl; constructor; [|constructor].
    intros E. apply (f_equal (@length N)) in E. simpl in E.
    rewrite length_app in E. simpl in E. lia.
  - destruct (isspace c); [|apply IH].
    destruct cur as [|x cur]; simpl; [apply IH|].
    constructor; [|apply IH].
    intros E. apply (f_equal (@length N)) in E.
    rewrite length_app in E. simpl in E. lia.
Qed.

Lemma join_words_nil (sep : N) (words : list str) :
  Forall (fun word => word <> []) words -> join sep words = [] -> words = [].
Proof.
  intros H E. destruct words as [|p rest]; [reflexivity|].
  rewrite join_cons in E. inversion H; subst.
  destruct p; [congruence | discriminate].
Qed.

(** Joining the words of a scan: [cur] is the word in progress. *)
Lemma join_split_scan (s cur : str) :
  join space (split_scan cur s) =
  rev cur ++ collapse_runs (if truthy cur then rstrip s else strip s).
Proof.
  revert cur. induction s as [|c s IH]; intros cur.
  - destruct cur; simpl; [reflexivity | now rewrite app_nil_r].
  - cbn [split_scan]. destruct (isspace c) eqn:Ec.
    + destruct (truthy cur) eqn:Ecur.
      * rewrite join_cons. f_equal.
        pose proof (IH []) as IH0. cbn [truthy rev app] in IH0.
        destruct (split_scan [] s) as [|p rest] eqn:Ew.
        -- simpl in IH0. symmetry in IH0. apply collapse_runs_nil in IH0.
           unfold strip in IH0. apply rstrip_lstrip_nil in IH0.
           now rewrite (rstrip_cons_space_nil c s Ec IH0).
        -- assert (Hne : rstrip s <> []).
           { intros E. pose proof (split_scan_words s []) as Hw.
             rewrite Ew in Hw.
             assert (Hj : join space (p :: rest) = []).
             { rewrite IH0. unfold strip.
               assert (El : rstrip (lstrip s) = []).
               { clear -E. induction s as [|d s IHs]; [reflexivity|].
                 simpl in *. destruct (rstrip s) eqn:Er.
                 - destruct (isspace d); [now apply IHs | discriminate].
                 - discriminate. }
               now rewrite El. }
             apply (join_words_nil _ _ Hw) in Hj. discriminate. }
           rewrite (rstrip_cons_nonempty c s Hne).
           rewrite (collapse_runs_space c _ Ec).
           rewrite (after_space_rstrip s Hne). f_equal. exact IH0.
      * apply truthy_false in Ecur. subst cur.
        rewrite (IH []). cbn [truthy rev app]. unfold strip.
        cbn [lstrip]. now rewrite Ec.
    + rewrite (IH (c :: cur)). cbn [truthy rev].
      rewrite <- app_assoc. f_equal. cbn [app].
      destruct (truthy cur).
      * rewrite (rstrip_cons_nonspace c s Ec). simpl. now rewrite Ec.
      * unfold strip. cbn [lstrip]. rewrite Ec.
        rewrite (rstrip_cons_nonspace c s Ec). simpl. now rewrite Ec.
Qed.

(** Split on whitespace and join with single spaces: the normal form of
    the specification. *)
Lemma join_split_ws (s : str) :
  join space (split_ws s) = spec_normalize s.
Proof. unfold split_ws. now rewrite join_split_scan. Qed.

Lemma lstrip_head (s : str) (c : N) (r : str) :
  lstrip s = c :: r -> isspace c = false.
Proof.
  induction s as [|d s IH]; simpl; [discriminate|].
  destruct (isspace d) eqn:E; [exact IH|].
  intros H. inversion H; subst. exact E.
Qed.

Lemma lstrip_strip (s : str) : lstrip (strip s) = strip s.
Proof.
  unfold strip. destruct (lstrip s) as [|c r] eqn:E; [reflexivity|].
  pose proof (lstrip_head s c r E) as Hc.
  rewrite (rstrip_cons_nonspace c r Hc). simpl. now rewrite Hc.
Qed.

Lemma rstrip_idem (s : str) : rstrip (rstrip s) = rstrip s.
Proof.
  induction s as [|c s IH]; [reflexivity|].
  simpl. destruct (rstrip s) as [|d r] eqn:E.
  - destruct (isspace c) eqn:Ec; simpl; [reflexivity | now rewrite Ec].
  - rewrite rstrip_cons_nonempty; rewrite IH; [reflexivity | discriminate].
Qed.

Lemma rstrip_strip (s : str) : rstrip (strip s) = strip s.
Proof. unfold strip. apply rstrip_idem. Qed.

Lemma lstrip_collapse_runs (t : str) :
  lstrip t = t -> lstrip (collapse_runs t) = collapse_runs t.
Proof.
  destruct t as [|c t]; [reflexivity|]. intros H.
  assert (Hc : isspace c = false) by (apply (lstrip_head _ _ _ H)).
  simpl. rewrite Hc. simpl. now rewrite Hc.
Qed.

Lemma rstrip_collapse_runs (t : str) :
  rstrip t = t -> rstrip (collapse_runs t) = collapse_runs t.
Proof.
  induction t as [|c t IH]; [reflexivity|]. intros H.
  destruct t as [|d t'].
  - simpl in H. destruct (isspace c) eqn:Ec; [discriminate|].
    simpl. rewrite Ec. simpl. now rewrite Ec.
  - assert (Hne : rstrip (d :: t') <> []).
    { intros E. simpl in H. simpl in E. rewrite E in H.
      destruct (isspace c); discriminate. }
    rewrite (rstrip_cons_nonempty c _ Hne) in H.
    assert (Ht : rstrip (d :: t') = d :: t') by congruence.
    specialize (IH Ht).
    assert (Hc : collapse_runs (d :: t') <> []).
    { intros E. apply collapse_runs_nil in E. discriminate. }
    destruct (isspace c) eqn:Ec.
    + rewrite (collapse_runs_space c _ Ec). cbn [after_space].
      destruct (isspace d); [exact IH|].
      rewrite rstrip_cons_nonempty; rewrite IH; [reflexivity | exact Hc].
    + assert (E : collapse_runs (c :: d :: t') = c :: collapse_runs (d :: t')).
      { cbn [collapse_runs]. now rewrite Ec. }
      rewrite E. rewrite rstrip_cons_nonempty; rewrite IH;
        [reflexivity | exact Hc].
Qed.

(** The normal form has nothing left to trim. *)
Lemma strip_spec_normalize (s : str) :
  strip (spec_normalize s) = spec_normalize s.
Proof.
  unfold spec_normalize.
  assert (L : lstrip (collapse_runs (strip s)) = collapse_runs (strip s))
    by (apply lstrip_collapse_runs, lstrip_strip).
  unfold strip at 1. rewrite L.
  apply rstrip_collapse_runs, rstrip_strip.
Qed.

(** The normal form holds no whitespace but single spaces. *)
Lemma collapse_runs_chars (s : str) (c : N) :
  In c (collapse_runs s) -> isspace c = true -> c = space.
Proof.
  induction s as [|d s IH]; simpl; [easy|].
  destruct (isspace d) eqn:Ed.
  - destruct s as [|e s'].
    + intros [H|[]] _. now subst.
    + destruct (isspace e); [exact IH|].
      intros [H|H] Hc; [now subst | now apply IH].
  - intros [H|H] Hc; [subst; congruence | now apply IH].
Qed.

(** No two spaces of the normal form are neighbours. *)
Lemma collapse_runs_single (s l r : str) :
  collapse_runs s <> l ++ space :: space :: r.
Proof.
  revert l. induction s as [|d s IH]; intros l.
  - simpl. destruct l; discriminate.
  - destruct (isspace d) eqn:Ed.
    + rewrite (collapse_runs_space d s Ed). destruct s as [|e s'].
      * simpl. destruct l as [|? [|? ?]]; discriminate.
      * cbn [after_space]. destruct (isspace e) eqn:Ee; [apply IH|].
        destruct l as [|x l].
        -- simpl. cbn [collapse_runs]. rewrite Ee. intros H.
           inversion H; subst. discriminate.
        -- simpl. intros H. inversion H; subst. eapply IH; eauto.
    + cbn [collapse_runs]. rewrite Ed. destruct l as [|x l].
      * simpl. intros H. inversion H; subst. discriminate.
      * simpl. intros H. inversion H; subst. eapply IH; eauto.
Qed.

(** ** The text of one file, PyQt worker *)

Lemma text_of_results_unlimited (results : list str) :
  LRD_QT_EXT.text_of_results None results =
  spec_stored_text (join space results).
Proof.
  unfold LRD_QT_EXT.text_of_results, spec_stored_text.
  rewrite join_split_ws, strip_spec_normalize.
  now destruct (spec_normalize (join space results)).
Qed.

Lemma text_of_results_limited (n : nat) (results : list str) :
  LRD_QT_EXT.text_of_results (Some n) results = lit "[No text found]"
  \/ length (LRD_QT_EXT.text_of_results (Some n) results) <= n.
Proof.
  unfold LRD_QT_EXT.text_of_results.
  destruct (truthy _); [right | now left].
  etransitivity; [apply strip_length|]. apply firstn_le_length.
Qed.

(** ** Traces of composed computations *)

Lemma fst_bind {A B} (m : M A) (k : A -> M B) :
  fst (bind m k) =
  fst m ++ match snd m with Some a => fst (k a) | None => [] end.
Proof.
  destruct m as [t [a|]]; simpl.
  - now destruct (k a).
  - now rewrite app_nil_r.
Qed.

Lemma snd_bind {A B} (m : M A) (k : A -> M B) :
  snd (bind m k) = match snd m with Some a => snd (k a) | None => None end.
Proof. destruct m as [t [a|]]; simpl; [now destruct (k a) | reflexivity]. Qed.

Lemma Forall_bind {A B} (P : event -> Prop) (m : M A) (k : A -> M B) :
  Forall P (fst m) -> (forall a, snd m = Some a -> Forall P (fst (k a))) ->
  Forall P (fst (bind m k)).
Proof.
  intros Hm Hk. rewrite fst_bind. apply Forall_app. split; [exact Hm|].
  destruct (snd m); [now apply Hk | constructor].
Qed.

Lemma fs_ops_app (t u : list event) : fs_ops (t ++ u) = fs_ops t ++ fs_ops u.
Proof. apply flat_map_app. Qed.

Lemma ocr_calls_app (t u : list event) :
  ocr_calls (t ++ u) = ocr_calls t ++ ocr_calls u.
Proof. apply flat_map_app. Qed.

Lemma progress_signals_app (t u : list event) :
  progress_signals (t ++ u) = progress_signals t ++ progress_signals u.
Proof. apply flat_map_app. Qed.

Lemma done_records_app (t u : list event) :
  done_records (t ++ u) = done_records t ++ done_records u.
Proof. apply flat_map_app. Qed.

Lemma error_msgs_app (t u : list event) :
  error_msgs (t ++ u) = error_msgs t ++ error_msgs u.
Proof. apply flat_map_app. Qed.

(** ** The PyQt worker: one file *)

Section QtStep.

Variable w : World.
Variable text_length_limit : option nat.
Variables folder_path output_folder : str.
Variable total_files : nat.

Lemma qt_extract_text (image_path : str) :
  LRD_QT_EXT._extract_text w text_length_limit image_path =
  ([ReadText image_path], Some (qt_text w text_length_limit image_path)).
Proof. reflexivity. Qed.

(** With the filesystem willing, a step ends normally: it calls the engine
    once, on the file, makes the calls of [qt_step_ops], reports progress
    once and yields the record of [qt_step_record]. *)
Lemma qt_file_step_ok (idx : nat) (file_name : str) :
  (forall op, io_error w op = None) ->
  let text := qt_text w text_length_limit (path_join folder_path file_name) in
  exists t,
    LRD_QT_EXT.file_step w text_length_limit folder_path output_folder
      total_files idx file_name =
    (t, Some (qt_step_record output_folder file_name text))
    /\ ocr_calls t = [path_join folder_path file_name]
    /\ fs_ops t = qt_step_ops output_folder text
    /\ progress_signals t = [(idx + 1, total_files)]
    /\ error_msgs t = [] /\ done_records t = [].
Proof.
  intros Hio text.
  unfold LRD_QT_EXT.file_step, LRD_QT_EXT._extract_text, write_text, fs,
    bind, emit, ret.
  cbv beta iota zeta.
  fold (qt_text w text_length_limit (path_join folder_path file_name)).
  fold text. unfold qt_step_record, qt_step_ops, qt_gets_folder.
  destruct (truthy (strip text) && negb (startswith text (lit "Error"))).
  - rewrite !Hio. cbv beta iota zeta.
    eexists. split; [reflexivity|]. repeat split; reflexivity.
  - cbv beta iota zeta.
    eexists. split; [reflexivity|]. repeat split; reflexivity.
Qed.


End QtStep.

(** ** The PyQt worker: the loop *)

Section QtLoop.

Variable w : World.
Variable text_length_limit : option nat.
Variables folder_path output_folder : str.
Variable total_files : nat.

Let loop := LRD_QT_EXT.loop w text_length_limit folder_path output_folder
              total_files.
Let record_of := qt_record_of w text_length_limit folder_path output_folder.
Let ops_of := qt_ops_of w text_length_limit folder_path output_folder.

(** The loop over [files] from index [idx] when the flag is down for the
    next [k] checks and, if files remain after them, up at the next one:
    it handles the first [k] files, one step each, and leaves by [break]
    exactly when files remain. *)
Lemma qt_loop_prefix (files : list str) :
  forall (idx : nat) (records : list dict) (k : nat),
    (forall op, io_error w op = None) ->
    (forall i, idx <= i < idx + k -> stop_flag w i = false) ->
    k <= length files ->
    (k < length files -> stop_flag w (idx + k) = true) ->
    exists t,
      loop idx files records =
      (t, Some (if k <? length files then Break else Exhausted,
                records ++ map record_of (firstn k files)))
      /\ ocr_calls t = map (path_join folder_path) (firstn k files)
      /\ fs_ops t = flat_map ops_of (firstn k files)
      /\ progress_signals t = map (fun i => (i + 1, total_files)) (seq idx k)
      /\ error_msgs t = [] /\ done_records t = [].
Proof.
  induction files as [|f rest IH]; intros idx records k Hio Hdown Hk Hup.
  - assert (k = 0) by (simpl in Hk; lia). subst k.
    exists []. simpl. rewrite app_nil_r. repeat split; reflexivity.
  - destruct k as [|k].
    + exists []. unfold loop. simpl.
      rewrite <- (Nat.add_0_r idx) at 1. rewrite Hup by (simpl; lia).
      rewrite app_nil_r. repeat split; reflexivity.
    + unfold loop. cbn [LRD_QT_EXT.loop].
      rewrite (Hdown idx) by lia.
      destruct (qt_file_step_ok w text_length_limit folder_path output_folder
                  total_files idx f Hio)
        as (t1 & E1 & O1 & F1 & P1 & M1 & D1).
      rewrite E1.
      destruct (IH (S idx) (records ++ [record_of f]) k Hio) as
        (t2 & E2 & O2 & F2 & P2 & M2 & D2).
      * intros i Hi. apply Hdown. lia.
      * simpl in Hk. lia.
      * intros Hlt. replace (S idx + k) with (idx + S k) by lia.
        apply Hup. simpl. lia.
      * unfold loop, record_of, qt_record_of in E2. unfold bind.
        rewrite E2. exists (t1 ++ t2). split.
        -- f_equal. f_equal. f_equal.
           cbn [firstn map]. rewrite <- app_assoc. reflexivity.
        -- rewrite ocr_calls_app, fs_ops_app, progress_signals_app,
             error_msgs_app, done_records_app, O1, O2, F1, F2, P1, P2,
             M1, M2, D1, D2.
           repeat split; reflexivity.
Qed.


End QtLoop.

(** ** The cancel flag *)

Lemma steps_before_stop_spec (stop : nat -> bool) (n : nat) :
  forall idx,
    let k := steps_before_stop stop idx n in
    k <= n
    /\ (forall i, idx <= i < idx + k -> stop i = false)
    /\ (k < n -> stop (idx + k) = true).
Proof.
  induction n as [|n IH]; intros idx; simpl.
  - repeat split; [lia | intros; lia | lia].
  - destruct (stop idx) eqn:E.
    + repeat split; [lia | intros; lia |].
      intros _. now rewrite Nat.add_0_r.
    + destruct (IH (S idx)) as (H1 & H2 & H3).
      repeat split; [lia | |].
      * intros i Hi. destruct (Nat.eq_dec i idx) as [->|Hne]; [exact E|].
        apply H2. lia.
      * intros Hlt. replace (idx + S (steps_before_stop stop (S idx) n))
          with (S idx + steps_before_stop stop (S idx) n) by lia.
        apply H3. lia.
Qed.

Lemma steps_before_stop_cancelled (w : World) (k n : nat) :
  cancelled_at w k -> k < n -> steps_before_stop (stop_flag w) 0 n = k.
Proof.
  intros [Hdown Hup] Hlt.
  destruct (steps_before_stop_spec (stop_flag w) n 0) as (H1 & H2 & H3).
  set (j := steps_before_stop (stop_flag w) 0 n) in *.
  destruct (Nat.lt_trichotomy j k) as [Hjk|[Hjk|Hjk]]; [|exact Hjk|].
  - rewrite Hdown in H3 by (simpl; lia). discriminate H3. lia.
  - rewrite (H2 k) in Hup by lia. discriminate.
Qed.

Lemma steps_before_stop_never (w : World) (n : nat) :
  never_cancelled w -> steps_before_stop (stop_flag w) 0 n = n.
Proof.
  intros Hnever.
  destruct (steps_before_stop_spec (stop_flag w) n 0) as (H1 & H2 & H3).
  set (j := steps_before_stop (stop_flag w) 0 n) in *.
  destruct (Nat.eq_dec j n) as [|Hne]; [assumption|].
  rewrite Hnever in H3. discriminate H3. lia.
Qed.


Lemma bind_val {A B} (t : list event) (a : A) (k : A -> M B) :
  bind (t, Some a) k = (t ++ fst (k a), snd (k a)).
Proof. unfold bind. now destruct (k a). Qed.

Section QtRun.

Variable w : World.
Variable text_length_limit : option nat.
Variable folder_path : str.
Variable specific_files : option (list str).
Variable files : list str.

Hypothesis Hio : forall op, io_error w op = None.
Hypothesis Hreader : load_reader w = Ok tt.
Hypothesis Hfiles : LRD_QT_EXT.select_files w folder_path specific_files = Ok files.
Hypothesis Hsome : files <> [].

Let output_folder := path_join folder_path (lit "Extracted_Texts").
Let k := steps_before_stop (stop_flag w) 0 (length files).
Let records :=
  map (qt_record_of w text_length_limit folder_path output_folder)
    (firstn k files).

Lemma qt_run_ok :
  let t := fst (LRD_QT_EXT.run w text_length_limit folder_path specific_files) in
  snd (LRD_QT_EXT.run w text_length_limit folder_path specific_files) = Some tt
    /\ ocr_calls t = map (path_join folder_path) (firstn k files)
    /\ fs_ops t =
       MakeDirs output_folder
       :: flat_map (qt_ops_of w text_length_limit folder_path output_folder)
            (firstn k files)
       ++ match records with
          | [] => []
          | _ :: _ =>
              [ToExcel (path_join output_folder (lit "extracted_texts.xlsx"))
                 records]
          end
    /\ progress_signals t =
       map (fun i => (i + 1, length files)) (seq 0 k)
    /\ done_records t = [records]
    /\ error_msgs t = [].
Proof.
  destruct (steps_before_stop_spec (stop_flag w) (length files) 0)
    as (H1 & H2 & H3). fold k in H1, H2, H3.
  destruct (qt_loop_prefix w text_length_limit folder_path output_folder
              (length files) files 0 [] k Hio H2 H1 H3)
    as (t & E & O & F & P & M & D).
  unfold LRD_QT_EXT.run. rewrite Hfiles.
  destruct (length files =? 0) eqn:En.
  { apply Nat.eqb_eq, length_zero_iff_nil in En. contradiction. }
  fold output_folder. rewrite (fs_ok w _ (Hio _)).
  unfold LRD_QT_EXT._get_reader. rewrite Hreader.
  rewrite bind_val. rewrite !bind_ret_l. rewrite E. rewrite !bind_val.
  cbn [app snd fst]. fold records.
  unfold try_fs. rewrite Hio.
  unfold ocr_calls, fs_ops, progress_signals, done_records, error_msgs in *.
  destruct records as [|r rs];
    rewrite ?bind_ret_l, ?bind_val; unfold emit, ret; cbn [fst snd app];
    rewrite ?bind_val; cbn [fst snd app flat_map];
    rewrite !flat_map_app, O, F, P, M, D; cbn [flat_map app];
    rewrite ?app_nil_r; repeat split; reflexivity.
Qed.
End QtRun.

(** ** update.py: the loop *)

Lemma tk_extract_text (w : World) (image_path : str) :
  update.extract_text_from_image w image_path =
  ([ReadText image_path], Some (tk_text w normal image_path)).
Proof. reflexivity. Qed.

Section UpdateLoop.

Variable w : World.
Variables folder_path output_file_path : str.
Variable total_files : nat.

Let loop := update.loop w folder_path output_file_path total_files.
Let entry_of (file_name : str) : str :=
  update.entry file_name (tk_text w normal (path_join folder_path file_name)).

(** The loop when the flag is down for the next [k] checks and, if files
    remain, up at the next: [k] entries are written, the bar goes up by one
    per file and, on cancellation, back to zero. *)
Lemma update_loop_prefix (files : list str) :
  forall (i k : nat),
    io_ok w ->
    (forall j, i <= j < i + k -> stop_flag w j = false) ->
    k <= length files ->
    (k < length files -> stop_flag w (i + k) = true) ->
    exists t,
      loop i files =
      (t, Some (if k <? length files then Break else Exhausted))
      /\ ocr_calls t = map (path_join folder_path) (firstn k files)
      /\ fs_ops t =
         map (fun f => WriteTo output_file_path (entry_of f)) (firstn k files)
      /\ bar_values t =
         map (fun j => j + 1) (seq i k)
         ++ (if k <? length files then [0] else []).
Proof.
  induction files as [|f rest IH]; intros i k Hio Hdown Hk Hup.
  - assert (k = 0) by (simpl in Hk; lia). subst k.
    exists []. simpl. repeat split; reflexivity.
  - destruct k as [|k].
    + unfold loop. cbn [update.loop].
      assert (Hs : stop_flag w i = true).
      { rewrite <- (Nat.add_0_r i). apply Hup. simpl. lia. }
      rewrite Hs.
      eexists. split; [reflexivity|]. repeat split; reflexivity.
    + unfold loop. cbn [update.loop]. rewrite (Hdown i) by lia.
      destruct (IH (S i) k Hio) as (t2 & E2 & O2 & F2 & B2).
      * intros j Hj. apply Hdown. lia.
      * simpl in Hk. lia.
      * intros Hlt. replace (S i + k) with (i + S k) by lia.
        apply Hup. simpl. lia.
      * unfold loop in E2. destruct Hio as [Hfs Himg].
        rewrite tk_extract_text, bind_val. cbv beta.
        rewrite (fs_ok w _ (Hfs _)). unfold show_image. rewrite Himg.
        unfold emit. rewrite !bind_val. rewrite E2. cbn [fst snd app].
        eexists. split; [reflexivity|].
        unfold ocr_calls, fs_ops, bar_values in *.
        cbn [flat_map app firstn map seq]. rewrite O2, F2, B2.
        repeat split; reflexivity.
Qed.

End UpdateLoop.

(** Reduce the binds whose first computation is known. *)
Ltac mred :=
  repeat (progress (cbn [fst snd app]; rewrite ?bind_val, ?bind_ret_l)).

(** ** update.py: the whole run *)

Section UpdateRun.

Variable w : World.
Variable folder_path : str.
Variable names : list str.

Hypothesis Hio : io_ok w.
Hypothesis Hdir : isdir w folder_path = true.
Hypothesis Hlist : listdir w folder_path = Ok names.
Hypothesis Hsome : filter is_image names <> [].

Let files := filter is_image names.
Let output_file_path := path_join folder_path (lit "extracted_texts.txt").
Let k := steps_before_stop (stop_flag w) 0 (length files).

(** A run on a non-empty file set: the aggregate file is opened first, then
    one entry is written for each of the first [k] files; a run that is not
    cancelled ends with [os.startfile]. *)
Lemma update_run_ok :
  let t := fst (update.process_bulk_images w folder_path) in
  snd (update.process_bulk_images w folder_path)
  = (if k <? length files then Some tt
     else match startfile w folder_path with
          | None => Some tt
          | Some _ => None
          end)
  /\ ocr_calls t = map (path_join folder_path) (firstn k files)
  /\ fs_ops t =
     OpenW output_file_path
     :: map (fun f => WriteTo output_file_path
                        (update.entry f
                           (tk_text w normal (path_join folder_path f))))
          (firstn k files)
  /\ bar_values t =
     map (fun j => j + 1) (seq 0 k)
     ++ (if k <? length files then [0] else []).
Proof.
  destruct (steps_before_stop_spec (stop_flag w) (length files) 0)
    as (H1 & H2 & H3). fold k in H1, H2, H3.
  destruct (update_loop_prefix w folder_path output_file_path
              (length files) files 0 k Hio H2 H1 H3)
    as (t & E & O & F & B).
  unfold update.process_bulk_images. rewrite Hdir, Hlist. cbn [negb].
  fold files. destruct (length files =? 0) eqn:En.
  { apply Nat.eqb_eq, length_zero_iff_nil in En. contradiction. }
  fold output_file_path. destruct Hio as [Hfs Himg].
  rewrite (fs_ok w _ (Hfs _)). unfold emit. rewrite !bind_val. rewrite E.
  rewrite !bind_val. cbn [fst snd app].
  unfold ocr_calls, fs_ops, bar_values in *.
  unfold start_file, emit, raise.
  destruct (k <? length files); [|destruct (startfile w folder_path)];
    unfold ret; rewrite ?bind_val;
    cbn [fst snd app flat_map]; rewrite !flat_map_app, O, F, B;
    cbn [flat_map app]; rewrite ?app_nil_r; repeat split; reflexivity.
Qed.

End UpdateRun.

(** ** extra_button.py: the loop *)

Lemma button_extract_text (w : World) (image_path : str) :
  extra_button.extract_text_from_image w image_path =
  ([ReadText image_path], Some (tk_text w normal image_path)).
Proof. reflexivity. Qed.


(** ** extra_excel.prompt.py: the loop *)

Lemma excel_extract_text (w : World) (image_path : str) (mode : scan_mode) :
  extra_excel_prompt.extract_text_from_image w image_path mode =
  ([ReadText image_path], Some (tk_text w mode image_path)).
Proof. reflexivity. Qed.

(** The save step with the filesystem willing: it ends normally, appends at
    most one record, and exactly one, keeping [folder_path], unless the
    option is [extracted_name]. *)
Lemma excel_save_step_ok (w : World) (option : save_option)
    (output_folder folder_path file_name text : str) (records : list dict) :
  (forall op, io_error w op = None) ->
  exists t folder_path' records',
    extra_excel_prompt.save_step w option output_folder folder_path file_name
      text records = (t, Some (folder_path', records'))
    /\ ocr_calls t = [] /\ bar_values t = [] /\ excel_writes t = []
    /\ length records <= length records' <= S (length records)
    /\ (option <> extracted_name ->
        folder_path' = folder_path /\ length records' = S (length records)).
Proof.
  intros Hio. unfold extra_excel_prompt.save_step.
  destruct option.
  - eexists _, _, _. split; [reflexivity|].
    rewrite length_app. simpl. repeat split; lia.
  - unfold write_text. rewrite !(fs_ok w _ (Hio _)). mred. unfold ret.
    eexists _, _, _. split; [reflexivity|].
    rewrite length_app. simpl. repeat split; lia.
  - destruct (truthy (strip text)).
    + unfold write_text. rewrite !(fs_ok w _ (Hio _)). mred. unfold ret.
      eexists _, _, _. split; [reflexivity|].
      rewrite length_app. simpl. repeat split; try lia; congruence.
    + eexists _, _, _. split; [reflexivity|].
      simpl. repeat split; try lia; congruence.
Qed.

Section ExcelLoop.

Variable w : World.
Variable option : save_option.
Variable mode : scan_mode.
Variable output_folder : str.
Variable total_files : nat.

Let loop := extra_excel_prompt.loop w option mode output_folder total_files.

(** The loop when the flag is down for the next [k] checks and, if files
    remain, up at the next: the engine is called [k] times, no spreadsheet
    is written inside the loop, and the records grow by at most [k]; by
    exactly [k], on the paths of the first [k] files, unless the option is
    [extracted_name]. *)
Lemma excel_loop_prefix (files : list str) :
  forall (i k : nat) (folder_path : str) (records : list dict),
    io_ok w ->
    (forall j, i <= j < i + k -> stop_flag w j = false) ->
    k <= length files ->
    (k < length files -> stop_flag w (i + k) = true) ->
    exists t records',
      loop i files folder_path records =
      (t, Some (if k <? length files then Break else Exhausted, records'))
      /\ length (ocr_calls t) = k
      /\ excel_writes t = []
      /\ bar_values t =
         map (fun j => j + 1) (seq i k)
         ++ (if k <? length files then [0] else [])
      /\ length records <= length records' <= length records + k
      /\ (option <> extracted_name ->
          length records' = length records + k
          /\ ocr_calls t = map (path_join folder_path) (firstn k files)).
Proof.
  induction files as [|f rest IH]; intros i k fp records Hio Hdown Hk Hup.
  - assert (k = 0) by (simpl in Hk; lia). subst k.
    exists [], records. simpl. repeat split; lia.
  - destruct k as [|k].
    + unfold loop. cbn [extra_excel_prompt.loop].
      assert (Hs : stop_flag w i = true).
      { rewrite <- (Nat.add_0_r i). apply Hup. simpl. lia. }
      rewrite Hs. eexists _, _. split; [reflexivity|].
      simpl. repeat split; lia.
    + unfold loop. cbn [extra_excel_prompt.loop]. rewrite (Hdown i) by lia.
      rewrite excel_extract_text. mred.
      destruct (excel_save_step_ok w option output_folder fp f
                  (tk_text w mode (path_join fp f)) records (proj1 Hio))
        as (t1 & fp1 & recs1 & E1 & O1 & B1 & X1 & L1 & K1).
      rewrite E1. mred.
      destruct (IH (S i) k fp1 recs1 Hio) as
        (t2 & recs2 & E2 & O2 & X2 & B2 & L2 & K2).
      * intros j Hj. apply Hdown. lia.
      * simpl in Hk. lia.
      * intros Hlt. replace (S i + k) with (i + S k) by lia.
        apply Hup. simpl. lia.
      * unfold loop in E2. unfold show_image. rewrite (proj2 Hio).
        unfold emit. mred. rewrite E2. mred.
        eexists _, _. split; [reflexivity|].
        unfold ocr_calls, bar_values, excel_writes in *.
        cbn [flat_map app]. rewrite !flat_map_app. cbn [flat_map app].
        rewrite O1, B1, X1, X2, B2. cbn [app length firstn map seq].
        rewrite O2.
        split; [reflexivity|]. split; [reflexivity|]. split; [reflexivity|].
        split; [lia|]. intros Hne.
        destruct (K1 Hne) as [-> Hl1]. destruct (K2 Hne) as [Hl2 Ho2].
        split; [lia|]. rewrite Ho2. reflexivity.
Qed.
End ExcelLoop.

(** ** extra_excel.prompt.py: the whole run *)

Section ExcelRun.

Variable w : World.
Variable folder_path : str.
Variable option : save_option.
Variable mode : scan_mode.
Variable names : list str.

Hypothesis Hio : io_ok w.
Hypothesis Hdir : isdir w folder_path = true.
Hypothesis Hlist : listdir w folder_path = Ok names.
Hypothesis Hsome : filter is_image names <> [].

Let files := filter is_image names.
Let k := steps_before_stop (stop_flag w) 0 (length files).

(** A run on a non-empty file set: the engine is called for the first [k]
    files; a cancelled run writes no spreadsheet; a run that reaches the
    end writes one, whose rows are at most the files, and exactly the files
    unless the option is [extracted_name], and ends with [os.startfile]. *)
Lemma excel_run_ok :
  let t := fst (extra_excel_prompt.process_bulk_images w folder_path option
                  mode) in
  snd (extra_excel_prompt.process_bulk_images w folder_path option mode)
  = (if k <? length files then Some tt
     else match startfile w (path_join folder_path (lit "Extracted_Texts"))
          with
          | None => Some tt
          | Some _ => None
          end)
  /\ length (ocr_calls t) = k
  /\ (k < length files -> excel_writes t = [])
  /\ (k = length files ->
      exists records,
        excel_writes t = [records]
        /\ length records <= length files
        /\ (option <> extracted_name -> length records = length files)).
Proof.
  destruct (steps_before_stop_spec (stop_flag w) (length files) 0)
    as (H1 & H2 & H3). fold k in H1, H2, H3.
  destruct (excel_loop_prefix w option mode
              (path_join folder_path (lit "Extracted_Texts"))
              (length files) files 0 k folder_path [] Hio H2 H1 H3)
    as (t & records & E & O & X & B & L & K).
  unfold extra_excel_prompt.process_bulk_images.
  rewrite Hdir, Hlist. cbn [negb]. fold files.
  destruct (length files =? 0) eqn:En.
  { apply Nat.eqb_eq, length_zero_iff_nil in En. contradiction. }
  destruct Hio as [Hfs Himg].
  rewrite (fs_ok w _ (Hfs _)). unfold emit. mred. rewrite E. mred.
  unfold ocr_calls, excel_writes in *.
  destruct (k <? length files) eqn:Ek.
  - apply Nat.ltb_lt in Ek. unfold ret. mred.
    cbn [flat_map app]. rewrite !flat_map_app, X. cbn [flat_map app].
    rewrite ?app_nil_r, ?length_app, O. cbn [length].
    split; [reflexivity|]. split; [lia|]. split; [reflexivity|].
    intros Hk. lia.
  - apply Nat.ltb_ge in Ek. rewrite (fs_ok w _ (Hfs _)). mred.
    unfold start_file, emit, raise.
    destruct (startfile w _); mred;
      cbn [flat_map app]; rewrite !flat_map_app, X; cbn [flat_map app];
      rewrite length_app, O; cbn [length];
      (split; [reflexivity|]); (split; [lia|]);
      (split; [intros Hk; lia|]);
      intros Hk; exists records; (split; [reflexivity|]);
      simpl in L; (split; [lia|]); intros Hne; destruct (K Hne) as [Hl _];
      simpl in Hl; lia.
Qed.

End ExcelRun.

(** ** The image filter *)

Lemma endswith_spec (s p : str) :
  endswith s p = true <-> exists stem, s = stem ++ p.
Proof.
  unfold endswith. split.
  - intros H. apply andb_true_iff in H as [Hl He].
    apply Nat.leb_le in Hl. apply str_eqb_eq in He.
    exists (firstn (length s - length p) s).
    transitivity (firstn (length s - length p) s
                  ++ skipn (length s - length p) s).
    + symmetry. apply firstn_skipn.
    + now rewrite He.
  - intros [stem ->]. rewrite length_app. apply andb_true_iff. split.
    + apply Nat.leb_le. lia.
    + apply str_eqb_eq.
      replace (length stem + length p - length p) with (length stem) by lia.
      rewrite skipn_app, skipn_all, Nat.sub_diag. reflexivity.
Qed.

Lemma endswith_lower (name ext : str) :
  endswith (lower name) ext = true <-> ends_with_ci name ext.
Proof.
  rewrite endswith_spec. unfold ends_with_ci, lower. split.
  - intros [stem' E].
    exists (firstn (length stem') name), (skipn (length stem') name).
    split; [symmetry; apply firstn_skipn|].
    rewrite <- skipn_map, E, skipn_app, skipn_all, Nat.sub_diag.
    reflexivity.
  - intros (stem & suffix & -> & E). exists (map lower_char stem).
    now rewrite map_app, E.
Qed.

(** The test of the code is the test of the specification. *)
Lemma is_image_recognized (name : str) :
  is_image name = true <-> recognized name.
Proof.
  unfold is_image, recognized. rewrite existsb_exists.
  split; intros (ext & Hin & H); exists ext; split; auto;
    now apply endswith_lower.
Qed.

Lemma filter_unrecognized (names : list str) :
  (forall name, In name names -> ~ recognized name) ->
  filter is_image names = [].
Proof.
  intros H. induction names as [|n names IH]; [reflexivity|].
  simpl. destruct (is_image n) eqn:E.
  - exfalso. apply (H n); [now left | now apply is_image_recognized].
  - apply IH. intros name Hin. apply H. now right.
Qed.

(** ** The PyQt worker: what holds of every event *)

Section QtEvents.

Variable w : World.
Variable text_length_limit : option nat.
Variables folder_path output_folder : str.
Variable total_files : nat.
Variable P : event -> Prop.
Variable Q : dict -> Prop.

(** The events a step can cause. *)
Hypothesis Hsignal : forall s,
  (forall rows out, s <> all_done rows out) ->
  (forall msg, s <> error_msg msg) -> P (Emit s).
Hypothesis Hread : forall p, P (ReadText p).
Hypothesis Hops : forall f op,
  In op (qt_ops_of w text_length_limit folder_path output_folder f) ->
  P (Fs op).
Hypothesis Hrecord : forall f,
  Q (qt_record_of w text_length_limit folder_path output_folder f).

Lemma qt_file_step_forall (idx : nat) (file_name : str) :
  Forall P (fst (LRD_QT_EXT.file_step w text_length_limit folder_path
                   output_folder total_files idx file_name))
  /\ forall r,
       snd (LRD_QT_EXT.file_step w text_length_limit folder_path
              output_folder total_files idx file_name) = Some r ->
       r = qt_record_of w text_length_limit folder_path output_folder
             file_name.
Proof.
  pose proof (Hops file_name) as Hf.
  unfold qt_ops_of, qt_record_of, qt_step_ops, qt_step_record in *.
  unfold LRD_QT_EXT.file_step, LRD_QT_EXT._extract_text, write_text, fs,
    bind, emit, ret, raise.
  cbv beta iota zeta.
  fold (qt_text w text_length_limit (path_join folder_path file_name)) in *.
  set (text := qt_text w text_length_limit (path_join folder_path file_name))
    in *.
  unfold qt_gets_folder in *.
  assert (S1 : P (Emit (file_preview (path_join folder_path file_name))))
    by (apply Hsignal; discriminate).
  assert (S2 : P (Emit (log_msg (lit "Processing: " ++ file_name))))
    by (apply Hsignal; discriminate).
  assert (S3 : P (Emit (file_done (path_join folder_path file_name) text)))
    by (apply Hsignal; discriminate).
  assert (S4 : P (Emit (progress_step (idx + 1) total_files)))
    by (apply Hsignal; discriminate).
  destruct (truthy (strip text) && negb (startswith text (lit "Error"))).
  - assert (F1 := Hf _ (or_introl eq_refl)).
    assert (F2 := Hf _ (or_intror (or_introl eq_refl))).
    assert (F3 := Hf _ (or_intror (or_intror (or_introl eq_refl)))).
    destruct (io_error w (MakeDirs _)).
    { cbn [fst snd app]. split; [repeat constructor; auto | discriminate]. }
    destruct (io_error w (OpenW _)).
    { cbn [fst snd app]. split; [repeat constructor; auto | discriminate]. }
    destruct (io_error w (WriteTo _ _)).
    { cbn [fst snd app]. split; [repeat constructor; auto | discriminate]. }
    cbn [fst snd app]. split; [repeat constructor; auto|].
    intros r Hr. now inversion Hr.
  - cbn [fst snd app]. split; [repeat constructor; auto|].
    intros r Hr. now inversion Hr.
Qed.

Lemma qt_loop_forall (files : list str) :
  forall (idx : nat) (records : list dict),
    Forall Q records ->
    Forall P (fst (LRD_QT_EXT.loop w text_length_limit folder_path
                     output_folder total_files idx files records))
    /\ forall ex records',
         snd (LRD_QT_EXT.loop w text_length_limit folder_path output_folder
                total_files idx files records) = Some (ex, records') ->
         Forall Q records'.
Proof.
  induction files as [|f rest IH]; intros idx records HQ.
  - simpl. split; [constructor|]. intros ex records' H. inversion H; subst. exact HQ.
  - cbn [LRD_QT_EXT.loop]. destruct (stop_flag w idx).
    + simpl. split; [constructor|]. intros ex records' H. inversion H; subst. exact HQ.
    + destruct (qt_file_step_forall idx f) as [Hstep Hrec].
      split.
      * apply Forall_bind; [exact Hstep|].
        intros r Hr. apply IH. apply Forall_app. split; [exact HQ|].
        constructor; [|constructor]. rewrite (Hrec r Hr). apply Hrecord.
      * intros ex records'. rewrite snd_bind.
        destruct (snd (LRD_QT_EXT.file_step _ _ _ _ _ _ _)) as [r|] eqn:Er;
          [|discriminate].
        apply IH. apply Forall_app. split; [exact HQ|].
        constructor; [|constructor]. rewrite (Hrec r eq_refl). apply Hrecord.
Qed.

End QtEvents.

Lemma fs_forall (P : event -> Prop) (w : World) (op : fs_op) :
  P (Fs op) -> Forall P (fst (fs w op)).
Proof.
  intros H. unfold fs. destruct (io_error w op); simpl; repeat constructor.
  exact H.
Qed.

Lemma emit_forall (P : event -> Prop) (e : event) :
  P e -> Forall P (fst (emit e)).
Proof. intros H. simpl. repeat constructor. exact H. Qed.

Section QtRunEvents.

Variable w : World.
Variable text_length_limit : option nat.
Variable folder_path : str.
Variable specific_files : option (list str).
Variable P : event -> Prop.
Variable Q : dict -> Prop.

Let output_folder := path_join folder_path (lit "Extracted_Texts").

Hypothesis Hsignal : forall s,
  (forall rows out, s <> all_done rows out) ->
  (forall msg, s <> error_msg msg) -> P (Emit s).
Hypothesis Herror : forall msg, P (Emit (error_msg msg)).
Hypothesis Hread : forall p, P (ReadText p).
Hypothesis Hroot : P (Fs (MakeDirs output_folder)).
Hypothesis Hops : forall f op,
  In op (qt_ops_of w text_length_limit folder_path output_folder f) ->
  P (Fs op).
Hypothesis Hrecord : forall f,
  Q (qt_record_of w text_length_limit folder_path output_folder f).
Hypothesis Hrows : forall rows path,
  Forall Q rows ->
  P (Fs (ToExcel path rows)) /\ P (Emit (all_done rows output_folder)).

(** Every event of a run satisfies [P], whatever the world does. *)
Lemma qt_run_forall :
  Forall P (fst (LRD_QT_EXT.run w text_length_limit folder_path
                   specific_files)).
Proof.
  unfold LRD_QT_EXT.run.
  destruct (LRD_QT_EXT.select_files w folder_path specific_files)
    as [files|e]; [|apply emit_forall, Herror].
  destruct (length files =? 0); [apply emit_forall, Herror|].
  fold output_folder.
  apply Forall_bind; [apply fs_forall, Hroot|]. intros _ _.
  apply Forall_bind.
  { unfold LRD_QT_EXT._get_reader. destruct (load_reader w); simpl;
      repeat constructor. apply Herror. }
  intros [[]|] _; [|constructor].
  destruct (qt_loop_forall w text_length_limit folder_path output_folder
              (length files) P Q Hsignal Hread Hops Hrecord files 0 []
              (Forall_nil Q)) as [Hloop Hrecs].
  apply Forall_bind; [exact Hloop|].
  intros [ex records] Hr. cbn [snd].
  specialize (Hrecs ex records Hr).
  apply Forall_bind;
    [|intros _ _; apply emit_forall, (proj2 (Hrows records [] Hrecs))].
  destruct records as [|r rs]; [constructor|].
  unfold try_fs. destruct (io_error w (ToExcel _ _)).
  - simpl. repeat constructor. apply Herror.
  - simpl. repeat constructor; [apply (proj1 (Hrows _ _ Hrecs))|].
    apply Hsignal; discriminate.
Qed.

End QtRunEvents.

(** ** Texts under a limit, folder names *)

Lemma qt_text_limited (w : World) (n : nat) (image_path : str) :
  limited n (qt_text w (Some n) image_path).
Proof.
  unfold qt_text, limited. destruct (readtext w normal image_path) as [r|e].
  - destruct (text_of_results_limited n r) as [H|H]; auto.
  - right. right. now exists e.
Qed.

Lemma folder_name_named (output_folder text : str) :
  named_folder output_folder
    (path_join output_folder (LRD_QT_EXT.folder_name_of text)).
Proof.
  exists text, (LRD_QT_EXT.folder_name_of text).
  split; [reflexivity|]. split; [reflexivity|].
  unfold LRD_QT_EXT.folder_name_of. fold (sanitized_prefix text).
  destruct (sanitized_prefix text) as [|c s] eqn:E; simpl.
  - repeat split; [discriminate | congruence].
  - repeat split; [discriminate | discriminate].
Qed.

(** No character of the class survives [sanitize_filename]. *)
Lemma sanitize_filename_clean (name : str) (c : N) :
  In c LRD_QT_EXT.illegal_chars ->
  ~ In c (LRD_QT_EXT.sanitize_filename name).
Proof.
  intros Hc Hin. unfold LRD_QT_EXT.sanitize_filename in Hin.
  apply filter_In in Hin as [_ H]. apply negb_true_iff in H.
  assert (E : existsb (N.eqb c) LRD_QT_EXT.illegal_chars = true).
  { apply existsb_exists. exists c. split; [exact Hc | apply N.eqb_refl]. }
  congruence.
Qed.

(** ** Projections through the filesystem calls *)

Lemma made_dirs_ops (t : list event) :
  made_dirs t = flat_map op_dirs (fs_ops t).
Proof.
  induction t as [|e t IH]; [reflexivity|].
  unfold made_dirs, fs_ops in *. cbn [flat_map]. rewrite flat_map_app, IH.
  destruct e as [op| | | | | | | | | |]; try reflexivity.
  destruct op; simpl; now rewrite ?app_nil_r.
Qed.

Lemma written_texts_ops (t : list event) :
  written_texts t = flat_map op_texts (fs_ops t).
Proof.
  induction t as [|e t IH]; [reflexivity|].
  unfold written_texts, fs_ops in *. cbn [flat_map]. rewrite flat_map_app, IH.
  destruct e as [op| | | | | | | | | |]; try reflexivity.
  destruct op; simpl; now rewrite ?app_nil_r.
Qed.

Lemma excel_writes_ops (t : list event) :
  excel_writes t = flat_map op_rows (fs_ops t).
Proof.
  induction t as [|e t IH]; [reflexivity|].
  unfold excel_writes, fs_ops in *. cbn [flat_map]. rewrite flat_map_app, IH.
  destruct e as [op| | | | | | | | | |]; try reflexivity.
  destruct op; simpl; now rewrite ?app_nil_r.
Qed.

(** The steps of the PyQt worker write no spreadsheet. *)
Lemma qt_ops_rows (w : World) (limit : option nat)
    (folder_path output_folder : str) (files : list str) :
  flat_map op_rows
    (flat_map (qt_ops_of w limit folder_path output_folder) files) = [].
Proof.
  induction files as [|f rest IH]; [reflexivity|].
  cbn [flat_map]. rewrite flat_map_app, IH, app_nil_r.
  unfold qt_ops_of, qt_step_ops. now destruct (qt_gets_folder _).
Qed.

(** Each step of the PyQt worker writes its text or nothing. *)
Lemma qt_ops_texts (w : World) (limit : option nat)
    (folder_path output_folder : str) (files : list str) :
  flat_map op_texts
    (flat_map (qt_ops_of w limit folder_path output_folder) files) =
  filter qt_gets_folder
    (map (fun f => qt_text w limit (path_join folder_path f)) files).
Proof.
  induction files as [|f rest IH]; [reflexivity|].
  cbn [flat_map map filter]. rewrite flat_map_app, IH.
  unfold qt_ops_of, qt_step_ops. now destruct (qt_gets_folder _).
Qed.

Lemma qt_ops_dirs (w : World) (limit : option nat)
    (folder_path output_folder : str) (files : list str) :
  flat_map op_dirs
    (flat_map (qt_ops_of w limit folder_path output_folder) files) =
  map (fun text =>
         path_join output_folder (LRD_QT_EXT.folder_name_of text))
    (filter qt_gets_folder
       (map (fun f => qt_text w limit (path_join folder_path f)) files)).
Proof.
  induction files as [|f rest IH]; [reflexivity|].
  cbn [flat_map map filter]. rewrite flat_map_app, IH.
  unfold qt_ops_of, qt_step_ops. now destruct (qt_gets_folder _).
Qed.

Lemma qt_record_file_name (w : World) (limit : option nat)
    (folder_path output_folder f : str) :
  get (lit "File Name")
    (qt_record_of w limit folder_path output_folder f) = Some f.
Proof. reflexivity. Qed.

Lemma qt_record_text (w : World) (limit : option nat)
    (folder_path output_folder f : str) :
  get (lit "Extracted Text")
    (qt_record_of w limit folder_path output_folder f)
  = Some (qt_text w limit (path_join folder_path f)).
Proof. reflexivity. Qed.

(** ** extra_button.py: the whole run *)


(** ** The Tk progress bar and the cancel branch *)

Lemma in_bind_r {A B} (m : M A) (k : A -> M B) (a : A) (e : event) :
  snd m = Some a -> In e (fst (k a)) -> In e (fst (bind m k)).
Proof.
  intros Hm He. rewrite fst_bind, Hm. apply in_or_app. now right.
Qed.

Lemma snd_bind_some {A B} (m : M A) (k : A -> M B) (b : B) :
  snd (bind m k) = Some b -> exists a, snd m = Some a /\ snd (k a) = Some b.
Proof.
  rewrite snd_bind. destruct (snd m) as [a|]; [|discriminate].
  intros H. now exists a.
Qed.

(** Step into the continuation of the bind at the head of the goal, using
    that the whole computation returned. *)
Ltac bind_step H :=
  let a := fresh "a" in
  let Ha := fresh "Ha" in
  apply snd_bind_some in H as (a & Ha & H);
  apply (in_bind_r _ _ a _ Ha).



(** ** Progress in the Tk variants, whatever the world does *)

Lemma tk_progress_app (t u : list event) :
  tk_progress (t ++ u) = tk_progress t ++ tk_progress u.
Proof. apply filter_app. Qed.










(** ** Counting *)

Lemma written_entries_length (out : str) (g : str -> str) (files : list str) :
  length (flat_map op_texts (map (fun f => WriteTo out (g f)) files))
  = length files.
Proof. induction files; simpl; auto. Qed.


Lemma error_marker_no_folder (cause : str) :
  qt_gets_folder (lit "Error: " ++ cause) = false.
Proof. unfold qt_gets_folder. apply andb_false_iff. right. reflexivity. Qed.





(** ** Names in the Tk variants *)

(** Replacing spaces and slashes leaves every other character in place. *)
Lemma tk_name_keeps (c : N) (s : str) :
  c <> space -> c <> slash -> In c s ->
  In c (replace_char slash underscore (replace_char space underscore s)).
Proof.
  intros Hs Hl Hin. unfold replace_char. rewrite map_map.
  apply in_map_iff. exists c. split; [|exact Hin].
  destruct (N.eqb c space) eqn:E1; [apply N.eqb_eq in E1; contradiction|].
  destruct (N.eqb c slash) eqn:E2; [apply N.eqb_eq in E2; contradiction|].
  reflexivity.
Qed.

(** ** The functions on small inputs *)

Example split_ws_words :
  split_ws (lit "  Hello   World ") = [lit "Hello"; lit "World"].
Proof. reflexivity. Qed.

Example split_ws_line_feeds :
  join space (split_ws (lit "Hello" ++ [newline; 9%N] ++ lit "World"))
  = lit "Hello World".
Proof. reflexivity. Qed.

Example strip_both_ends : strip (lit "  a  b ") = lit "a  b".
Proof. reflexivity. Qed.

Example spec_normalize_runs :
  spec_normalize (lit "  Hello   World ") = lit "Hello World".
Proof. reflexivity. Qed.

Example text_of_results_empty :
  LRD_QT_EXT.text_of_results None [] = lit "[No text found]".
Proof. reflexivity. Qed.

Example text_of_results_cut :
  LRD_QT_EXT.text_of_results (Some 6) [lit "Hello"; lit "World"]
  = lit "Hello".
Proof. reflexivity. Qed.

Example is_image_upper : is_image (lit "SCAN.JPEG") = true.
Proof. reflexivity. Qed.

Example is_image_other : is_image (lit "notes.txt") = false.
Proof. reflexivity. Qed.

Example is_image_bare : is_image (lit "png") = false.
Proof. reflexivity. Qed.

Example path_join_plain : path_join (lit "/imgs") (lit "a.png") = lit "/imgs/a.png".
Proof. reflexivity. Qed.

Example path_join_slash : path_join (lit "/imgs/") (lit "a.png") = lit "/imgs/a.png".
Proof. reflexivity. Qed.

Example path_join_absolute : path_join (lit "/imgs") (lit "/tmp") = lit "/tmp".
Proof. reflexivity. Qed.

Example splitext_root_last_dot : splitext_root (lit "a.b.png") = lit "a.b".
Proof. reflexivity. Qed.

Example splitext_root_leading_dot : splitext_root (lit ".png") = lit ".png".
Proof. reflexivity. Qed.

Example sanitize_filename_strips :
  LRD_QT_EXT.sanitize_filename (lit "a/b:c*d?e<f>g|h") = lit "abcdefgh".
Proof. reflexivity. Qed.

Example folder_name_of_hello :
  LRD_QT_EXT.folder_name_of (lit "Hello World") = lit "Hello_World".
Proof. reflexivity. Qed.

Example set_text_limit_cancelled :
  LRD_QT_EXT.set_text_limit (Some 7) 3 false = Some 7.
Proof. reflexivity. Qed.

Example steps_before_stop_second :
  steps_before_stop (fun i => (1 <=? i)%nat) 0 5 = 1.
Proof. reflexivity. Qed.

(** The text variant on two images, cancelled after the first. *)
Example update_cancelled_trace :
  fst (update.process_bulk_images w_hello_cancel imgs)
  = [BarMaximum 2;
     ProgressLabel (LabelProgress 0 2);
     Fs (OpenW (lit "/imgs/extracted_texts.txt"));
     ReadText (lit "/imgs/a.png");
     Fs (WriteTo (lit "/imgs/extracted_texts.txt")
           (update.entry (lit "a.png") (lit "Hello World")));
     BarValue 1;
     ProgressLabel (LabelProgress 1 2);
     ImagePreview (lit "/imgs/a.png");
     UpdateIdleTasks;
     MessageBox showinfo (lit "Process Stopped")
       (lit "The extraction process was canceled.");
     BarValue 0;
     ProgressLabel LabelCanceled].
Proof. reflexivity. Qed.

(** Under [extracted_name] the folder made for one file becomes the
    folder the next file is looked for in. *)
Example extracted_name_moves_folder :
  ocr_calls
    (fst (extra_excel_prompt.process_bulk_images w_hello imgs extracted_name
            normal))
  = [lit "/imgs/a.png"; lit "/imgs/Extracted_Texts/Hello_World/b.png"].
Proof. reflexivity. Qed.

(** * The claims *)







(** C3, as stated, fails: the text variant stores the empty string for an
    image without text, not the sentinel; nothing in it collapses or trims
    whitespace. *)
Lemma C3_counterexample :
  readtext w_blank normal (path_join imgs (lit "a.png")) = Ok []
  /\ snd (update.extract_text_from_image w_blank
            (path_join imgs (lit "a.png"))) = Some []
  /\ spec_stored_text (join space []) = lit "[No text found]"
  /\ ([] : str) <> lit "[No text found]".
Proof. repeat split; discriminate. Qed.

(** C3, amended: in the PyQt worker with no length limit, when the engine
    returns, the text stored in the record of a file step is the engine's
    texts joined by spaces, with whitespace runs collapsed to single spaces
    and leading and trailing whitespace trimmed, and the sentinel
    [[No text found]] when that is empty.  The three Tk variants store the
    engine's texts joined by line feeds as they are. *)
Theorem C3_stored_text (w : World) (folder_path output_folder : str)
    (total_files idx : nat) (file_name : str) (results : list str) :
  (forall op, io_error w op = None) ->
  readtext w normal (path_join folder_path file_name) = Ok results ->
  (exists t r,
      LRD_QT_EXT.file_step w None folder_path output_folder total_files idx
        file_name = (t, Some r)
      /\ get (lit "Extracted Text") r
         = Some (spec_stored_text (join space results)))
  /\ snd (update.extract_text_from_image w
            (path_join folder_path file_name))
     = Some (join newline results)
  /\ snd (extra_button.extract_text_from_image w
            (path_join folder_path file_name))
     = Some (join newline results)
  /\ snd (extra_excel_prompt.extract_text_from_image w
            (path_join folder_path file_name) normal)
     = Some (join newline results).
Proof.
  intros Hio Hr. split.
  - destruct (qt_file_step_ok w None folder_path output_folder total_files
                idx file_name Hio) as (t & E & _).
    eexists _, _. split; [exact E|].
    unfold qt_text. rewrite Hr. cbn [qt_step_record get].
    rewrite text_of_results_unlimited. reflexivity.
  - unfold update.extract_text_from_image,
      extra_button.extract_text_from_image,
      extra_excel_prompt.extract_text_from_image.
    rewrite Hr. repeat split; reflexivity.
Qed.

(** C3, an instance: an image that reads [Hello World]. *)
Lemma C3_stored_text_witness :
  exists t r,
    LRD_QT_EXT.file_step w_hello None imgs
      (path_join imgs (lit "Extracted_Texts")) 2 0 (lit "a.png")
    = (t, Some r)
    /\ get (lit "Extracted Text") r
       = Some (spec_stored_text (join space [lit "Hello World"])).
Proof.
  apply (C3_stored_text w_hello imgs (path_join imgs (lit "Extracted_Texts"))
           2 0 (lit "a.png") [lit "Hello World"]).
  - intros op. reflexivity.
  - reflexivity.
Defined.

(** C4, as stated, fails: in the spreadsheet variant, a run cancelled after
    one of two files holds a record when the loop stops and writes no
    spreadsheet. *)
Lemma C4_counterexample :
  cancelled_at w_hello_cancel 1
  /\ (exists r,
        snd (extra_excel_prompt.loop w_hello_cancel single_file normal
               (path_join imgs (lit "Extracted_Texts")) 2 0
               [lit "a.png"; lit "b.png"] imgs [])
        = Some (Break, [r]))
  /\ excel_writes
       (fst (extra_excel_prompt.process_bulk_images w_hello_cancel imgs
               single_file normal)) = [].
Proof.
  split.
  { split; [|reflexivity]. intros i Hi.
    assert (i = 0) by lia. subst i. reflexivity. }
  split; [eexists; reflexivity | reflexivity].
Qed.

(** C4, amended: on a non-empty file set, with the filesystem and the
    previews willing.  The PyQt worker writes the spreadsheet after the
    loop exactly when at least one record exists, whether the loop ran to
    the end or was cancelled, and a run cancelled before the first file has
    no record and writes none.  The spreadsheet variant writes its
    spreadsheet when the loop runs to the end and writes none when the run
    is cancelled, records or not.  The text variant opens its aggregate
    file before the loop, so the file is there however the loop ends. *)
Theorem C4_aggregate_artifact (w : World) (folder_path : str)
    (names : list str) :
  io_ok w -> isdir w folder_path = true -> load_reader w = Ok tt ->
  listdir w folder_path = Ok names -> filter is_image names <> [] ->
  (forall limit, exists records,
      done_records (fst (LRD_QT_EXT.run w limit folder_path None)) = [records]
      /\ excel_writes (fst (LRD_QT_EXT.run w limit folder_path None))
         = match records with [] => [] | _ :: _ => [records] end
      /\ (stop_flag w 0 = true -> records = []))
  /\ (forall option mode,
      (never_cancelled w ->
       exists records,
         excel_writes
           (fst (extra_excel_prompt.process_bulk_images w folder_path option
                   mode)) = [records])
      /\ (forall k, cancelled_at w k -> k < length (filter is_image names) ->
          excel_writes
            (fst (extra_excel_prompt.process_bulk_images w folder_path option
                    mode)) = []))
  /\ (exists writes,
      fs_ops (fst (update.process_bulk_images w folder_path))
      = OpenW (path_join folder_path (lit "extracted_texts.txt")) :: writes).
Proof.
  intros Hio Hdir Hreader Hlist Hsome.
  set (files := filter is_image names) in *.
  split; [|split].
  - intros limit.
    assert (Hsel : LRD_QT_EXT.select_files w folder_path None = Ok files).
    { unfold LRD_QT_EXT.select_files. now rewrite Hlist. }
    destruct (qt_run_ok w limit folder_path None files (proj1 Hio) Hreader
                Hsel Hsome) as (_ & _ & F & _ & D & _).
    eexists. split; [exact D|]. split.
    + rewrite excel_writes_ops, F. cbn [flat_map app].
      rewrite flat_map_app, qt_ops_rows. cbn [app].
      now destruct (map _ _).
    + intros Hstop. destruct files as [|f rest]; [contradiction|].
      cbn [length steps_before_stop]. rewrite Hstop. reflexivity.
  - intros option mode.
    destruct (excel_run_ok w folder_path option mode names Hio Hdir Hlist
                Hsome) as (_ & _ & Hcancel & Hdone).
    fold files in Hcancel, Hdone. split.
    + intros Hnever.
      destruct (Hdone (steps_before_stop_never w _ Hnever))
        as (records & E & _).
      now exists records.
    + intros k Hc Hlt. apply Hcancel.
      now rewrite (steps_before_stop_cancelled w k _ Hc Hlt).
  - destruct (update_run_ok w folder_path names Hio Hdir Hlist Hsome)
      as (_ & _ & F & _).
    eexists. exact F.
Qed.

(** C4, an instance: two images, cancel pressed while the first is handled. *)
Lemma C4_aggregate_artifact_witness :
  exists writes,
    fs_ops (fst (update.process_bulk_images w_hello_cancel imgs))
    = OpenW (path_join imgs (lit "extracted_texts.txt")) :: writes.
Proof.
  apply (C4_aggregate_artifact w_hello_cancel imgs
           [lit "a.png"; lit "b.png"]).
  - split; intros; reflexivity.
  - reflexivity.
  - reflexivity.
  - reflexivity.
  - vm_compute. discriminate.
Defined.

(** C5, as stated, fails: with a limit of five characters, the PyQt worker
    stores the fifteen characters of the sentinel for an image without
    text, in the text file of that image and in its record. *)
Lemma C5_counterexample :
  LRD_QT_EXT.set_text_limit None 5 true = Some 5
  /\ written_texts (fst (LRD_QT_EXT.run w_blank (Some 5) imgs None))
     = [lit "[No text found]"]
  /\ (exists r,
        done_records (fst (LRD_QT_EXT.run w_blank (Some 5) imgs None)) = [[r]]
        /\ get (lit "Extracted Text") r = Some (lit "[No text found]"))
  /\ 5 < length (lit "[No text found]").
Proof.
  split; [reflexivity|]. split; [reflexivity|].
  split; [eexists; split; reflexivity|]. vm_compute. lia.
Qed.

(** C5, amended: in the PyQt worker with a limit of [n] characters, every
    text stored by a run (the data written to a text file, the text of
    every row of the spreadsheet and of every record handed over at the
    end) has at most [n] characters unless it is the sentinel
    [[No text found]] or an error marker [Error: cause], which are stored
    whole; this holds whatever the filesystem, the engine and the cancel
    flag do.  Entering 0 in the dialog removes the limit, entering a
    positive number sets it, and without a limit the text is stored in
    full. *)
Theorem C5_text_limit (w : World) (n : nat) (folder_path : str)
    (specific_files : option (list str)) :
  Forall (event_limited n)
    (fst (LRD_QT_EXT.run w (Some n) folder_path specific_files))
  /\ (forall current, LRD_QT_EXT.set_text_limit current 0 true = None)
  /\ (forall current val,
        0 < val -> LRD_QT_EXT.set_text_limit current val true = Some val)
  /\ (forall results,
        LRD_QT_EXT.text_of_results None results
        = spec_stored_text (join space results)).
Proof.
  split; [|split; [|split]].
  - apply qt_run_forall with (Q := record_limited n).
    + intros s Hdone Herr. destruct s; simpl; auto.
      exfalso. eapply Hdone. reflexivity.
    + intros msg. exact I.
    + intros p. exact I.
    + exact I.
    + intros f op Hin. unfold qt_ops_of, qt_step_ops in Hin.
      destruct (qt_gets_folder _); [|contradiction].
      destruct Hin as [<-|[<-|[<-|[]]]]; simpl; auto.
      apply qt_text_limited.
    + intros f text Ht. rewrite qt_record_text in Ht.
      inversion Ht; subst. apply qt_text_limited.
    + intros rows path Hrows. split; exact Hrows.
  - reflexivity.
  - intros current val Hval. unfold LRD_QT_EXT.set_text_limit.
    destruct val; [lia | reflexivity].
  - apply text_of_results_unlimited.
Qed.

(** C6, the code at a failing input: the Tk variants build the name from
    the text by replacing spaces and slashes only, so every other character
    of the first line's first fifty stays in the folder or file name, a
    question mark or a colon among them; the PyQt worker removes both. *)
Theorem C6_tk_names_keep_illegal_characters :
  made_dirs
    (fst (extra_excel_prompt.process_bulk_images w_question imgs
            extracted_name normal))
  = [lit "/imgs/Extracted_Texts"; lit "/imgs/Extracted_Texts/?"]
  /\ fs_ops
       (fst (extra_button.save_text_as_filename w_colon (lit "/imgs/a.png")
               imgs))
     = [OpenW (lit "/imgs/Q:_What?.txt");
        WriteTo (lit "/imgs/Q:_What?.txt") (lit "Q: What?")]
  /\ In 63%N LRD_QT_EXT.illegal_chars
  /\ In 58%N LRD_QT_EXT.illegal_chars
  /\ (forall c text,
        c <> space -> c <> slash -> In c (firstn 50 (first_line text)) ->
        In c (extra_excel_prompt.folder_name_of text)
        /\ In c (extra_button.filename_of text))
  /\ LRD_QT_EXT.sanitize_filename (lit "Q:_What?") = lit "Q_What".
Proof.
  split; [reflexivity|]. split; [reflexivity|].
  split; [simpl; tauto|]. split; [simpl; tauto|]. split; [|reflexivity].
  intros c text Hs Hl Hin.
  pose proof (tk_name_keeps c _ Hs Hl Hin) as H. split; [exact H|].
  unfold extra_button.filename_of. apply in_or_app. now left.
Qed.

(** C7: when no entry of the folder's listing ends, case-insensitively, in
    one of the five image extensions, each of the four bulk functions
    reports that no valid image files were found and changes nothing on
    the filesystem: the report is the only thing it does. *)
Theorem C7_no_images_no_writes (w : World) (folder_path : str)
    (names : list str) :
  listdir w folder_path = Ok names ->
  isdir w folder_path = true ->
  (forall name, In name names -> ~ recognized name) ->
  (forall limit specific_files,
      specific_files = None \/ specific_files = Some [] ->
      LRD_QT_EXT.run w limit folder_path specific_files
      = ([Emit (error_msg
            (lit "No valid image files found in the selected folder."))],
         Some tt)
      /\ fs_ops (fst (LRD_QT_EXT.run w limit folder_path specific_files))
         = [])
  /\ (update.process_bulk_images w folder_path
      = ([MessageBox showinfo (lit "No Images Found")
            (lit "No valid image files found in the selected folder.")],
         Some tt)
      /\ fs_ops (fst (update.process_bulk_images w folder_path)) = [])
  /\ (forall save_as_pdf,
      extra_button.process_bulk_images w folder_path save_as_pdf
      = ([MessageBox showinfo (lit "No Images Found")
            (lit "No valid image files found in the selected folder.")],
         Some tt)
      /\ fs_ops (fst (extra_button.process_bulk_images w folder_path
                        save_as_pdf)) = [])
  /\ (forall option mode,
      extra_excel_prompt.process_bulk_images w folder_path option mode
      = ([MessageBox showinfo (lit "No Images Found")
            (lit "No valid image files found in the selected folder.")],
         Some tt)
      /\ fs_ops (fst (extra_excel_prompt.process_bulk_images w folder_path
                        option mode)) = []).
Proof.
  intros Hlist Hdir Hnone.
  pose proof (filter_unrecognized names Hnone) as Hf.
  unfold LRD_QT_EXT.run, LRD_QT_EXT.select_files,
    update.process_bulk_images, extra_button.process_bulk_images,
    extra_excel_prompt.process_bulk_images.
  rewrite Hlist, Hdir, Hf. cbn [negb length Nat.eqb].
  split; [|repeat split; reflexivity].
  intros limit specific_files [->| ->]; split; reflexivity.
Qed.

(** C7, an instance: a folder that lists [notes.txt] and [png]. *)
Lemma C7_no_images_no_writes_witness :
  update.process_bulk_images
    (world_of [lit "notes.txt"; lit "png"] (fun _ => Ok []) (fun _ => false))
    imgs
  = ([MessageBox showinfo (lit "No Images Found")
        (lit "No valid image files found in the selected folder.")],
     Some tt).
Proof.
  apply (C7_no_images_no_writes
           (world_of [lit "notes.txt"; lit "png"] (fun _ => Ok [])
              (fun _ => false))
           imgs [lit "notes.txt"; lit "png"]).
  - reflexivity.
  - reflexivity.
  - intros name Hin Hrec. apply is_image_recognized in Hrec.
    destruct Hin as [<-|[<-|[]]]; vm_compute in Hrec; discriminate.
Defined.

(** C8: the scenario.  The folder lists [a.png] and [b.jpg]; the engine
    reads [Hello World] on the first and raises [cause] on the second;
    there is no length limit and the filesystem is willing.  The PyQt
    worker makes two folders, the output folder and, inside it,
    [Hello_World] for [a.png]; the file [extracted_text.txt] of that folder
    receives [Hello World]; the record of [b.jpg] has the text
    [Error: cause] and the saved path [[No folder created]]. *)
Theorem C8_scenario (w : World) (folder_path cause : str) :
  (forall op, io_error w op = None) ->
  load_reader w = Ok tt ->
  never_cancelled w ->
  listdir w folder_path = Ok [lit "a.png"; lit "b.jpg"] ->
  readtext w normal (path_join folder_path (lit "a.png"))
  = Ok [lit "Hello World"] ->
  readtext w normal (path_join folder_path (lit "b.jpg")) = Err cause ->
  let out := path_join folder_path (lit "Extracted_Texts") in
  let a_dir := path_join out (lit "Hello_World") in
  let a_txt := path_join a_dir (lit "extracted_text.txt") in
  let records :=
    [[(lit "File Name", lit "a.png");
      (lit "Extracted Text", lit "Hello World");
      (lit "Saved Path", a_dir)];
     [(lit "File Name", lit "b.jpg");
      (lit "Extracted Text", lit "Error: " ++ cause);
      (lit "Saved Path", lit "[No folder created]")]] in
  let t := fst (LRD_QT_EXT.run w None folder_path None) in
  made_dirs t = [out; a_dir]
  /\ fs_ops t =
     [MakeDirs out; MakeDirs a_dir; OpenW a_txt;
      WriteTo a_txt (lit "Hello World");
      ToExcel (path_join out (lit "extracted_texts.xlsx")) records]
  /\ done_records t = [records].
Proof.
  intros Hio Hreader Hnever Hlist Ha Hb out a_dir a_txt records t.
  assert (Hsel : LRD_QT_EXT.select_files w folder_path None
                 = Ok [lit "a.png"; lit "b.jpg"]).
  { unfold LRD_QT_EXT.select_files. rewrite Hlist. reflexivity. }
  destruct (qt_run_ok w None folder_path None [lit "a.png"; lit "b.jpg"]
              Hio Hreader Hsel ltac:(discriminate))
    as (_ & _ & F & _ & D & _).
  rewrite (steps_before_stop_never w _ Hnever) in F, D.
  cbn [length firstn map flat_map] in F, D.
  unfold qt_ops_of, qt_record_of, qt_text in F, D.
  rewrite Ha, Hb in F, D.
  unfold qt_step_ops, qt_step_record in F, D.
  rewrite error_marker_no_folder in F, D.
  change (LRD_QT_EXT.text_of_results None [lit "Hello World"])
    with (lit "Hello World") in F, D.
  change (qt_gets_folder (lit "Hello World")) with true in F, D.
  change (LRD_QT_EXT.folder_name_of (lit "Hello World"))
    with (lit "Hello_World") in F, D.
  cbv iota in F, D. cbn [app] in F.
  fold out in F, D. fold a_dir in F, D. fold a_txt in F.
  fold records in F, D.
  split; [|split; [exact F | exact D]].
  rewrite made_dirs_ops. fold t in F. rewrite F. reflexivity.
Qed.

(** C8, an instance: the scenario with the cause [boom]. *)
Lemma C8_scenario_witness :
  done_records (fst (LRD_QT_EXT.run (w_scenario (lit "boom")) None imgs None))
  = [[[(lit "File Name", lit "a.png");
       (lit "Extracted Text", lit "Hello World");
       (lit "Saved Path",
        path_join (path_join imgs (lit "Extracted_Texts"))
          (lit "Hello_World"))];
      [(lit "File Name", lit "b.jpg");
       (lit "Extracted Text", lit "Error: " ++ lit "boom");
       (lit "Saved Path", lit "[No folder created]")]]].
Proof.
  apply (C8_scenario (w_scenario (lit "boom")) imgs (lit "boom")).
  - intros op. reflexivity.
  - reflexivity.
  - intros i. reflexivity.
  - reflexivity.
  - reflexivity.
  - reflexivity.
Defined.



(** C10: in the PyQt worker every folder a run makes is the output folder
    or a folder inside it whose name is not empty: the sanitized first
    fifty characters of the text, spaces turned into underscores, and
    [Extracted] when nothing is left of them.  This holds whatever the
    world does. *)
Theorem C10_folder_name_not_empty (w : World) (limit : option nat)
    (folder_path : str) (specific_files : option (list str)) :
  let out := path_join folder_path (lit "Extracted_Texts") in
  Forall (fun path => path = out \/ named_folder out path)
    (made_dirs (fst (LRD_QT_EXT.run w limit folder_path specific_files)))
  /\ LRD_QT_EXT.folder_name_of (lit "???") = lit "Extracted".
Proof.
  intros out. split; [|reflexivity].
  set (P := fun e => match e with
                     | Fs (MakeDirs path) =>
                         path = out \/ named_folder out path
                     | _ => True
                     end).
  assert (H : Forall P
                (fst (LRD_QT_EXT.run w limit folder_path specific_files))).
  { apply qt_run_forall with (Q := fun _ => True).
    - intros s _ _. exact I.
    - intros msg. exact I.
    - intros p. exact I.
    - left. reflexivity.
    - intros f op Hin. unfold qt_ops_of, qt_step_ops in Hin.
      destruct (qt_gets_folder _); [|contradiction].
      destruct Hin as [<-|[<-|[<-|[]]]]; simpl; auto.
      right. apply folder_name_named.
    - intros f. exact I.
    - intros rows path _. split; exact I. }
  induction (fst (LRD_QT_EXT.run w limit folder_path specific_files))
    as [|e t IH]; [constructor|].
  inversion H as [|? ? He Ht]; subst. specialize (IH Ht).
  destruct e as [op| | | | | | | | | |]; try exact IH.
  destruct op; try exact IH.
  constructor; [exact He | exact IH].
Qed.

(** * Further properties of the sources *)

(** ** Names and texts of the PyQt worker *)

Lemma illegal_existsb (c : N) :
  existsb (N.eqb c) LRD_QT_EXT.illegal_chars = true
  <-> In c LRD_QT_EXT.illegal_chars.
Proof.
  rewrite existsb_exists. split.
  - intros (x & Hin & E). apply N.eqb_eq in E. now subst.
  - intros H. exists c. split; [exact H | apply N.eqb_refl].
Qed.

(** X1: [sanitize_filename] removes the nine characters of its class and
    nothing else: a character is in the result exactly when it is in the
    name and not in the class; the others stay in order, so a name made of
    other characters is returned as it is, the function distributes over
    concatenation and applying it twice changes nothing more. *)
Theorem X1_sanitize_filename_exact (name : str) :
  (forall c, In c (LRD_QT_EXT.sanitize_filename name)
             <-> In c name /\ ~ In c LRD_QT_EXT.illegal_chars)
  /\ ((forall c, In c name -> ~ In c LRD_QT_EXT.illegal_chars) ->
      LRD_QT_EXT.sanitize_filename name = name)
  /\ (forall other,
        LRD_QT_EXT.sanitize_filename (name ++ other)
        = LRD_QT_EXT.sanitize_filename name
          ++ LRD_QT_EXT.sanitize_filename other)
  /\ LRD_QT_EXT.sanitize_filename (LRD_QT_EXT.sanitize_filename name)
     = LRD_QT_EXT.sanitize_filename name
  /\ length (LRD_QT_EXT.sanitize_filename name) <= length name.
Proof.
  unfold LRD_QT_EXT.sanitize_filename. split; [|split; [|split; [|split]]].
  - intros c. rewrite filter_In, negb_true_iff, <- not_true_iff_false,
      illegal_existsb. reflexivity.
  - intros H. induction name as [|x name IH]; [reflexivity|].
    cbn [filter]. destruct (existsb _ _) eqn:E.
    + apply illegal_existsb in E. exfalso. apply (H x); [now left | exact E].
    + cbn [negb]. f_equal. apply IH. intros c Hc. apply H. now right.
  - intros other. apply filter_app.
  - induction name as [|x name IH]; [reflexivity|].
    cbn [filter]. destruct (existsb _ _) eqn:E; cbn [negb]; [exact IH|].
    cbn [filter]. rewrite E. cbn [negb]. now f_equal.
  - apply filter_length_le.
Qed.

(** X2: the folder name the PyQt worker derives from a text has at most
    fifty characters, holds no space and none of the nine characters. *)
Theorem X2_folder_name_shape (text : str) :
  length (LRD_QT_EXT.folder_name_of text) <= 50
  /\ ~ In space (LRD_QT_EXT.folder_name_of text)
  /\ (forall c, In c LRD_QT_EXT.illegal_chars ->
                ~ In c (LRD_QT_EXT.folder_name_of text)).
Proof.
  unfold LRD_QT_EXT.folder_name_of.
  destruct (truthy (LRD_QT_EXT.sanitize_filename _)).
  - split; [|split].
    + etransitivity; [apply filter_length_le|].
      unfold replace_char. rewrite length_map. apply firstn_le_length.
    + intros H. apply filter_In in H as [H _].
      unfold replace_char in H. apply in_map_iff in H as (x & E & _).
      destruct (N.eqb x space) eqn:Ex; [discriminate|].
      apply N.eqb_neq in Ex. congruence.
    + intros c Hc. now apply sanitize_filename_clean.
  - split; [|split].
    + vm_compute. lia.
    + simpl. intuition discriminate.
    + intros c Hc.
      change (lit "Extracted")
        with (LRD_QT_EXT.sanitize_filename (lit "Extracted")).
      now apply sanitize_filename_clean.
Qed.

Lemma strip_idem (s : str) : strip (strip s) = strip s.
Proof. unfold strip at 1. rewrite lstrip_strip. apply rstrip_strip. Qed.

(** Whatever the engine and the limit, the text of a file is not blank. *)
Lemma qt_text_not_blank (w : World) (limit : option nat) (image_path : str) :
  truthy (strip (qt_text w limit image_path)) = true.
Proof.
  unfold qt_text. destruct (readtext w normal image_path) as [results|e].
  - unfold LRD_QT_EXT.text_of_results. cbv zeta.
    set (u := match limit with Some n => _ | None => _ end).
    destruct (truthy (strip u)) eqn:E; [|reflexivity].
    now rewrite strip_idem.
  - change (lit "Error: " ++ e)
      with (69%N :: (lit "rror: " ++ e)).
    unfold strip. cbn [lstrip]. change (isspace 69) with false. cbv iota.
    now rewrite rstrip_cons_nonspace.
Qed.

(** X3: in the PyQt worker the text of a file is never blank, so whether a
    file gets a folder depends on one thing only, whether its text starts
    with [Error]: if it does, be it the marker of a failure or the text read
    from the image, the step touches nothing on the filesystem and records
    [[No folder created]]; if it does not, the step makes the folder named
    after the text, writes the text into it and records the folder; an
    image without text gets the folder [[No_text_found]]. *)
Theorem X3_folder_unless_error (w : World) (limit : option nat)
    (folder_path output_folder : str) (total_files idx : nat)
    (file_name : str) :
  (forall op, io_error w op = None) ->
  let text := qt_text w limit (path_join folder_path file_name) in
  let d := path_join output_folder (LRD_QT_EXT.folder_name_of text) in
  exists t r,
    LRD_QT_EXT.file_step w limit folder_path output_folder total_files idx
      file_name = (t, Some r)
    /\ truthy (strip text) = true
    /\ (startswith text (lit "Error") = true ->
        fs_ops t = []
        /\ get (lit "Saved Path") r = Some (lit "[No folder created]"))
    /\ (startswith text (lit "Error") = false ->
        fs_ops t = [MakeDirs d;
                    OpenW (path_join d (lit "extracted_text.txt"));
                    WriteTo (path_join d (lit "extracted_text.txt")) text]
        /\ get (lit "Saved Path") r = Some d)
    /\ (text = lit "[No text found]" ->
        made_dirs t = [path_join output_folder (lit "[No_text_found]")]).
Proof.
  intros Hio text d.
  destruct (qt_file_step_ok w limit folder_path output_folder total_files
              idx file_name Hio) as (t & E & _ & F & _).
  fold text in E, F.
  exists t, (qt_step_record output_folder file_name text).
  split; [exact E|].
  pose proof (qt_text_not_blank w limit (path_join folder_path file_name))
    as Hb. fold text in Hb. split; [exact Hb|].
  unfold qt_step_ops, qt_step_record, qt_gets_folder in *. rewrite Hb in *.
  cbn [andb] in *. split; [|split].
  - intros Hs. rewrite Hs in *. cbn [negb] in *. split; [exact F|reflexivity].
  - intros Hs. rewrite Hs in *. cbn [negb] in *. split; [exact F|reflexivity].
  - intros Ht. rewrite made_dirs_ops, F, Ht. reflexivity.
Qed.

(** X3, an instance: an image that reads [Error 404] gets no folder. *)
Lemma X3_folder_unless_error_witness :
  exists t r,
    LRD_QT_EXT.file_step w_error_text None imgs
      (path_join imgs (lit "Extracted_Texts")) 1 0 (lit "a.png")
    = (t, Some r)
    /\ fs_ops t = []
    /\ get (lit "Saved Path") r = Some (lit "[No folder created]").
Proof.
  destruct (X3_folder_unless_error w_error_text None imgs
              (path_join imgs (lit "Extracted_Texts")) 1 0 (lit "a.png")
              (fun op => eq_refl)) as (t & r & E & _ & He & _).
  exists t, r. split; [exact E|]. apply He. reflexivity.
Defined.

Lemma rstrip_prefix (s : str) : prefix (rstrip s) s.
Proof.
  induction s as [|c s [rest IH]]; [now exists []|].
  simpl. destruct (rstrip s) as [|d r] eqn:E.
  - destruct (isspace c); [now exists (c :: s) | now exists s].
  - exists rest. simpl. f_equal. exact IH.
Qed.

Lemma lstrip_firstn (n : nat) (t : str) :
  lstrip t = t -> lstrip (firstn n t) = firstn n t.
Proof.
  intros H. destruct t as [|c t]; [now rewrite firstn_nil|].
  pose proof (lstrip_head _ _ _ H) as Hc.
  destruct n; [reflexivity|]. simpl. now rewrite Hc.
Qed.

Lemma lstrip_spec_normalize (s : str) :
  lstrip (spec_normalize s) = spec_normalize s.
Proof. apply lstrip_collapse_runs, lstrip_strip. Qed.

(** X4: a length limit only cuts.  With a limit of [n] the text the PyQt
    worker keeps is the sentinel or a beginning of the text it keeps
    without a limit, and when the text without a limit has at most [n]
    characters the limit changes nothing. *)
Theorem X4_limit_only_cuts (n : nat) (results : list str) :
  (LRD_QT_EXT.text_of_results (Some n) results = lit "[No text found]"
   \/ prefix (LRD_QT_EXT.text_of_results (Some n) results)
        (LRD_QT_EXT.text_of_results None results))
  /\ (length (LRD_QT_EXT.text_of_results None results) <= n ->
      LRD_QT_EXT.text_of_results (Some n) results
      = LRD_QT_EXT.text_of_results None results).
Proof.
  unfold LRD_QT_EXT.text_of_results. cbv zeta.
  rewrite join_split_ws, strip_spec_normalize.
  set (t := spec_normalize (join space results)).
  assert (Hl : lstrip (firstn n t) = firstn n t)
    by apply lstrip_firstn, lstrip_spec_normalize.
  split.
  - destruct (truthy (strip (firstn n t))) eqn:E; [right | now left].
    assert (Ht : truthy t = true).
    { destruct t; [|reflexivity]. now rewrite firstn_nil in E. }
    rewrite Ht. unfold strip. rewrite Hl.
    destruct (rstrip_prefix (firstn n t)) as [r Hr].
    exists (r ++ skipn n t). rewrite app_assoc, <- Hr. symmetry.
    apply firstn_skipn.
  - destruct t as [|c t'] eqn:Et.
    + intros _. now rewrite firstn_nil.
    + cbn [truthy]. intros Hlen. rewrite firstn_all2 by exact Hlen.
      rewrite <- Et. unfold t. rewrite strip_spec_normalize.
      fold t. rewrite Et. reflexivity.
Qed.

(** ** The limit dialog *)

Lemma set_text_limit_not_zero (l : option nat) (val : nat) (ok : bool) :
  l <> Some 0 -> LRD_QT_EXT.set_text_limit l val ok <> Some 0.
Proof.
  intros H. unfold LRD_QT_EXT.set_text_limit. destruct ok; [|exact H].
  destruct val; simpl; discriminate.
Qed.

(** X5: the limit dialog.  Starting from no limit, no series of dialogs
    ever leaves a limit of zero characters: zero always means no limit.
    The last accepted number decides the limit, a dismissed dialog changes
    nothing, and accepting the number the dialog opens with keeps the
    limit as it is. *)
Theorem X5_limit_dialog :
  (forall dialogs, after_dialogs None dialogs <> Some 0)
  /\ (forall l dialogs val,
        after_dialogs l (dialogs ++ [(val, true)])
        = if (val =? 0)%nat then None else Some val)
  /\ (forall l dialogs val,
        after_dialogs l (dialogs ++ [(val, false)]) = after_dialogs l dialogs)
  /\ (forall dialogs,
        after_dialogs None
          (dialogs ++ [(current_limit (after_dialogs None dialogs), true)])
        = after_dialogs None dialogs).
Proof.
  assert (Hz : forall dialogs l,
             l <> Some 0 -> after_dialogs l dialogs <> Some 0).
  { induction dialogs as [|d ds IH]; intros l Hl; [exact Hl|].
    simpl. apply IH. now apply set_text_limit_not_zero. }
  split; [|split; [|split]].
  - intros dialogs. apply Hz. discriminate.
  - intros l dialogs val. unfold after_dialogs.
    rewrite fold_left_app. reflexivity.
  - intros l dialogs val. unfold after_dialogs.
    rewrite fold_left_app. reflexivity.
  - intros dialogs. unfold after_dialogs at 1. rewrite fold_left_app.
    fold (after_dialogs None dialogs). cbn [fold_left fst snd].
    pose proof (Hz dialogs None ltac:(discriminate)) as H.
    destruct (after_dialogs None dialogs) as [[|n]|]; try reflexivity.
    contradiction.
Qed.

(** ** Splitting and joining *)

Lemma split_scan_word (word cur rest : str) :
  Forall (fun c => isspace c = false) word ->
  split_scan cur (word ++ rest) = split_scan (rev word ++ cur) rest.
Proof.
  revert cur. induction word as [|c word IH]; intros cur H; [reflexivity|].
  inversion H as [|? ? Hc Hw]; subst. cbn [app split_scan]. rewrite Hc.
  rewrite (IH (c :: cur) Hw). cbn [rev]. now rewrite <- app_assoc.
Qed.

Lemma split_ws_join (words : list str) :
  Forall is_word words -> split_ws (join space words) = words.
Proof.
  unfold split_ws. induction words as [|word words IH]; intros H;
    [reflexivity|].
  inversion H as [|? ? [Hne Hw] Hrest]; subst. specialize (IH Hrest).
  assert (Ht : truthy (rev word) = true).
  { destruct word as [|c word]; [contradiction|]. simpl.
    destruct (rev word); reflexivity. }
  rewrite join_cons. destruct words as [|w2 rest].
  - rewrite (split_scan_word word [] [] Hw). rewrite app_nil_r.
    cbn [split_scan]. rewrite Ht, rev_involutive. reflexivity.
  - rewrite (split_scan_word word [] _ Hw). rewrite app_nil_r.
    cbn [split_scan]. change (isspace space) with true; cbv iota; rewrite Ht, rev_involutive, IH.
    reflexivity.
Qed.

Lemma rev_is_word (cur : str) :
  truthy cur = true -> Forall (fun c => isspace c = false) cur ->
  is_word (rev cur).
Proof.
  intros Ht Hc. split.
  - intros E. apply (f_equal (@rev N)) in E. rewrite rev_involutive in E.
    subst cur. discriminate.
  - now apply Forall_rev.
Qed.

Lemma split_scan_is_word (s cur : str) :
  Forall (fun c => isspace c = false) cur ->
  Forall is_word (split_scan cur s).
Proof.
  revert cur. induction s as [|c s IH]; intros cur Hc.
  - cbn [split_scan]. destruct (truthy cur) eqn:Ht; [|constructor].
    constructor; [now apply rev_is_word | constructor].
  - cbn [split_scan]. destruct (isspace c) eqn:Ec.
    + destruct (truthy cur) eqn:Ht; [|now apply IH].
      constructor; [now apply rev_is_word | now apply IH].
    + apply IH. now constructor.
Qed.

Lemma collapse_runs_idem (s : str) :
  collapse_runs (collapse_runs s) = collapse_runs s.
Proof.
  induction s as [|c s IH]; [reflexivity|].
  destruct (isspace c) eqn:Ec.
  - rewrite (collapse_runs_space c s Ec). destruct s as [|c' s'].
    + reflexivity.
    + cbn [after_space]. destruct (isspace c') eqn:Ec'; [exact IH|].
      rewrite (collapse_runs_space space _ eq_refl).
      cbn [collapse_runs] in *. rewrite Ec' in *. cbn [after_space].
      rewrite Ec'. f_equal. exact IH.
  - cbn [collapse_runs]. rewrite Ec. cbn [collapse_runs]. rewrite Ec.
    f_equal. exact IH.
Qed.

Lemma spec_stored_text_idem (s : str) :
  spec_stored_text (spec_stored_text s) = spec_stored_text s.
Proof.
  unfold spec_stored_text at 2 3.
  destruct (spec_normalize s) as [|c t] eqn:E; [reflexivity|].
  unfold spec_stored_text, spec_normalize. rewrite <- E.
  rewrite strip_spec_normalize. unfold spec_normalize.
  rewrite collapse_runs_idem. fold (spec_normalize s). now rewrite E.
Qed.

(** X6: splitting on whitespace and joining with spaces.  The pieces
    [split] gives are words (not empty, no whitespace inside); joining
    words with single spaces and splitting again gives the same words
    back, so the normalization of the PyQt worker keeps the words of the
    recognized text, in order; and normalizing a text the worker has
    already produced returns it unchanged. *)
Theorem X6_split_join_round_trip (s : str) :
  Forall is_word (split_ws s)
  /\ split_ws (join space (split_ws s)) = split_ws s
  /\ (forall words, Forall is_word words ->
                    split_ws (join space words) = words)
  /\ (forall results,
        LRD_QT_EXT.text_of_results None
          [LRD_QT_EXT.text_of_results None results]
        = LRD_QT_EXT.text_of_results None results).
Proof.
  assert (Hw : Forall is_word (split_ws s))
    by (apply split_scan_is_word; constructor).
  split; [exact Hw|]. split; [now apply split_ws_join|].
  split; [exact split_ws_join|].
  intros results. rewrite !text_of_results_unlimited.
  cbn [join]. apply spec_stored_text_idem.
Qed.

(** ** The file set and the ways a run of the PyQt worker ends *)

(** X7: the image filter.  The bulk functions keep exactly the names of the
    listing that end, whatever the case of their letters, in one of the
    five extensions; the names kept stay in the order of the listing, a
    name listed twice is kept twice, and two names that differ only in the
    case of ASCII letters are kept or dropped together. *)
Theorem X7_image_filter (names : list str) :
  (forall f, In f (filter is_image names) <-> In f names /\ recognized f)
  /\ (forall more,
        filter is_image (names ++ more)
        = filter is_image names ++ filter is_image more)
  /\ (forall f g, lower f = lower g -> is_image f = is_image g)
  /\ (forall f, is_image (lower f) = is_image f).
Proof.
  split; [|split; [|split]].
  - intros f. rewrite filter_In, is_image_recognized. reflexivity.
  - intros more. apply filter_app.
  - intros f g H. unfold is_image. now rewrite H.
  - intros f. unfold is_image.
    assert (E0 : lower (lower f) = lower f); [|now rewrite E0].
    unfold lower. rewrite map_map.
    apply map_ext. intros c. unfold lower_char.
    destruct ((65 <=? c) && (c <=? 90))%N eqn:E; [|now rewrite E].
    apply andb_true_iff in E as [E1 E2].
    apply N.leb_le in E1, E2.
    destruct ((65 <=? c + 32) && (c + 32 <=? 90))%N eqn:E'; [|reflexivity].
    apply andb_true_iff in E' as [_ E3]. apply N.leb_le in E3. lia.
Qed.

(** X8: the failures of the PyQt worker before its loop.  When the folder
    cannot be listed the worker reports [Invalid folder] and does nothing
    else.  When the file set is not empty, the output folder is made before
    the OCR model is loaded: if making it raises, the run ends there with
    the exception and no report; if it is made and the model cannot be
    loaded, the worker reports that, leaving the empty output folder
    behind, and [all_done] is never emitted. *)
Theorem X8_failures_before_the_loop (w : World) (limit : option nat)
    (folder_path : str) :
  let out := path_join folder_path (lit "Extracted_Texts") in
  (forall e,
      listdir w folder_path = Err e ->
      LRD_QT_EXT.run w limit folder_path None
      = ([Emit (error_msg (lit "Invalid folder: " ++ e))], Some tt))
  /\ (forall names e,
      listdir w folder_path = Ok names -> filter is_image names <> [] ->
      io_error w (MakeDirs out) = Some e ->
      LRD_QT_EXT.run w limit folder_path None = ([], None))
  /\ (forall names e,
      listdir w folder_path = Ok names -> filter is_image names <> [] ->
      io_error w (MakeDirs out) = None ->
      load_reader w = Err e ->
      LRD_QT_EXT.run w limit folder_path None
      = ([Fs (MakeDirs out);
          Emit (error_msg (lit "Failed to load OCR model: " ++ e))],
         Some tt)).
Proof.
  intros out. unfold LRD_QT_EXT.run, LRD_QT_EXT.select_files.
  split; [|split].
  - intros e H. rewrite H. reflexivity.
  - intros names e Hl Hs Hm. rewrite Hl.
    destruct (length (filter is_image names) =? 0) eqn:En.
    { apply Nat.eqb_eq, length_zero_iff_nil in En. contradiction. }
    fold out. unfold fs. rewrite Hm. reflexivity.
  - intros names e Hl Hs Hm Hr. rewrite Hl.
    destruct (length (filter is_image names) =? 0) eqn:En.
    { apply Nat.eqb_eq, length_zero_iff_nil in En. contradiction. }
    fold out. unfold fs, LRD_QT_EXT._get_reader. rewrite Hm, Hr.
    reflexivity.
Qed.

(** X9: when every file has been handled and writing the spreadsheet
    raises, the PyQt worker reports [Failed writing Excel] and still emits
    [all_done] with all the records, after everything the loop did. *)
Theorem X9_excel_failure_reported (w : World) (limit : option nat)
    (folder_path : str) (specific_files : option (list str))
    (files : list str) (t : list event) (ex : loop_exit) (r : dict)
    (rs : list dict) (e : str) :
  let out := path_join folder_path (lit "Extracted_Texts") in
  LRD_QT_EXT.select_files w folder_path specific_files = Ok files ->
  files <> [] ->
  io_error w (MakeDirs out) = None ->
  load_reader w = Ok tt ->
  LRD_QT_EXT.loop w limit folder_path out (length files) 0 files []
  = (t, Some (ex, r :: rs)) ->
  io_error w (ToExcel (path_join out (lit "extracted_texts.xlsx")) (r :: rs))
  = Some e ->
  LRD_QT_EXT.run w limit folder_path specific_files
  = (Fs (MakeDirs out) :: t
     ++ [Emit (error_msg (lit "Failed writing Excel: " ++ e));
         Emit (all_done (r :: rs) out)],
     Some tt).
Proof.
  intros out Hsel Hne Hm Hr Hloop Hx.
  unfold LRD_QT_EXT.run. rewrite Hsel.
  destruct (length files =? 0) eqn:En.
  { apply Nat.eqb_eq, length_zero_iff_nil in En. contradiction. }
  fold out. rewrite (fs_ok w _ Hm).
  unfold LRD_QT_EXT._get_reader. rewrite Hr.
  rewrite bind_val, !bind_ret_l, Hloop. mred.
  unfold try_fs. rewrite Hx. unfold emit, ret. mred. reflexivity.
Qed.

(** X9, an instance: two readable images, a disk that refuses the
    spreadsheet. *)
Lemma X9_excel_failure_reported_witness :
  snd (LRD_QT_EXT.run w_excel_fails None imgs None) = Some tt
  /\ error_msgs (fst (LRD_QT_EXT.run w_excel_fails None imgs None))
     = [lit "Failed writing Excel: disk full"]
  /\ length (done_records (fst (LRD_QT_EXT.run w_excel_fails None imgs None)))
     = 1.
Proof.
  erewrite (X9_excel_failure_reported w_excel_fails None imgs None
              [lit "a.png"; lit "b.png"]);
    [ | reflexivity | discriminate | reflexivity | reflexivity
      | vm_compute; reflexivity | reflexivity ].
  repeat split; reflexivity.
Defined.

Lemma not_all_done_none (t : list event) :
  Forall not_all_done t -> done_records t = [].
Proof.
  induction 1 as [|e t He _ IH]; [reflexivity|].
  unfold done_records in *. cbn [flat_map]. rewrite IH.
  destruct e as [| |s| | | | | | | |]; try reflexivity.
  destruct s; try reflexivity. contradiction.
Qed.

Lemma qt_loop_not_all_done (w : World) (limit : option nat)
    (folder_path out : str) (total idx : nat) (files : list str)
    (records : list dict) :
  Forall not_all_done
    (fst (LRD_QT_EXT.loop w limit folder_path out total idx files records)).
Proof.
  apply (qt_loop_forall w limit folder_path out total not_all_done
           (fun _ => True)); try (intros; exact I).
  - intros s Hd _. destruct s; simpl; auto. eapply Hd. reflexivity.
  - apply Forall_forall. intros; exact I.
Qed.

(** X10: whatever the world does, a run of the PyQt worker emits
    [all_done] at most once, and when it does, that signal is the last
    thing the run does and the run ends normally. *)
Theorem X10_all_done_once_and_last (w : World) (limit : option nat)
    (folder_path : str) (specific_files : option (list str)) :
  done_records (fst (LRD_QT_EXT.run w limit folder_path specific_files)) = []
  \/ exists before records,
       LRD_QT_EXT.run w limit folder_path specific_files
       = (before
          ++ [Emit (all_done records
                      (path_join folder_path (lit "Extracted_Texts")))],
          Some tt)
       /\ done_records before = [].
Proof.
  unfold LRD_QT_EXT.run.
  destruct (LRD_QT_EXT.select_files w folder_path specific_files)
    as [files|e]; [|left; reflexivity].
  destruct (length files =? 0); [left; reflexivity|].
  set (out := path_join folder_path (lit "Extracted_Texts")).
  unfold fs. destruct (io_error w (MakeDirs out)); [left; reflexivity|].
  unfold LRD_QT_EXT._get_reader.
  destruct (load_reader w) as [[]|e]; [|left; reflexivity].
  unfold emit. rewrite bind_val, !bind_ret_l.
  pose proof (qt_loop_not_all_done w limit folder_path out (length files) 0
                files []) as Hl.
  destruct (LRD_QT_EXT.loop _ _ _ _ _ _ _ _) as [t [[ex records]|]].
  - right. cbn [fst] in Hl. apply not_all_done_none in Hl.
    rewrite bind_val. cbn [fst snd app]. unfold try_fs.
    destruct records as [|r rs].
    + exists (Fs (MakeDirs out) :: t), []. split.
      * rewrite bind_ret_l. cbn [fst snd]. reflexivity.
      * unfold done_records in *. cbn [flat_map app]. exact Hl.
    + destruct (io_error w (ToExcel _ _)) as [e|].
      * exists (Fs (MakeDirs out) :: t
                ++ [Emit (error_msg (lit "Failed writing Excel: " ++ e))]),
          (r :: rs).
        split.
        -- unfold ret. mred. cbn [fst snd app]. rewrite <- app_assoc.
           reflexivity.
        -- unfold done_records in *. cbn [flat_map app].
           rewrite flat_map_app, Hl. reflexivity.
      * eexists (Fs (MakeDirs out) :: t ++ [_; _]), (r :: rs).
        split.
        -- unfold ret. mred. cbn [fst snd app]. rewrite <- app_assoc.
           reflexivity.
        -- unfold done_records in *. cbn [flat_map app].
           rewrite flat_map_app, Hl. reflexivity.
  - left. cbn [bind fst snd app] in *.
    apply not_all_done_none in Hl. unfold done_records in *.
    cbn [flat_map app]. exact Hl.
Qed.

(** X11: a non-empty [specific_files] list is taken as it is.  The worker
    then neither lists the folder nor looks at extensions: with the
    filesystem willing it hands each of the given names to the engine, in
    order, up to a cancellation, reports no error and gives one record per
    name handled, even if the folder cannot be listed and the names are not
    image names. *)
Theorem X11_specific_files_as_given (w : World) (limit : option nat)
    (folder_path f : str) (rest : list str) :
  (forall op, io_error w op = None) ->
  load_reader w = Ok tt ->
  let files := f :: rest in
  let k := steps_before_stop (stop_flag w) 0 (length files) in
  let t := fst (LRD_QT_EXT.run w limit folder_path (Some files)) in
  ocr_calls t = map (path_join folder_path) (firstn k files)
  /\ error_msgs t = []
  /\ exists records,
       done_records t = [records]
       /\ map (get (lit "File Name")) records = map Some (firstn k files).
Proof.
  intros Hio Hr files k t.
  destruct (qt_run_ok w limit folder_path (Some files) files Hio Hr
              eq_refl ltac:(discriminate)) as (_ & O & _ & _ & D & M).
  fold k t in O, D, M. split; [exact O|]. split; [exact M|].
  eexists. split; [exact D|].
  rewrite map_map. apply map_ext. intros g. apply qt_record_file_name.
Qed.

(** X11, an instance: a text file given by name in a folder that cannot
    be listed. *)
Lemma X11_specific_files_as_given_witness :
  ocr_calls
    (fst (LRD_QT_EXT.run w_unlistable None imgs (Some [lit "notes.txt"])))
  = [lit "/imgs/notes.txt"]
  /\ error_msgs
       (fst (LRD_QT_EXT.run w_unlistable None imgs (Some [lit "notes.txt"])))
     = [].
Proof.
  destruct (X11_specific_files_as_given w_unlistable None imgs
              (lit "notes.txt") [] (fun op => eq_refl) eq_refl)
    as (O & M & _).
  split; [exact O | exact M].
Defined.

(** ** What the Tk variants leave on disk *)

Lemma str_eqb_refl (s : str) : str_eqb s s = true.
Proof. now apply str_eqb_eq. Qed.

Lemma file_content_writes (path : str) (g : str -> str) (files : list str) :
  forall content,
    fold_left (apply_op path)
      (map (fun f => WriteTo path (g f)) files) (Some content)
    = Some (content ++ concat (map g files)).
Proof.
  induction files as [|f files IH]; intros content.
  - simpl. now rewrite app_nil_r.
  - cbn [map fold_left apply_op]. rewrite str_eqb_refl. cbn [option_map].
    rewrite IH. cbn [concat]. now rewrite app_assoc.
Qed.

(** X12: the aggregate file of the text variant.  On a non-empty file set,
    with the filesystem and the previews willing, [extracted_texts.txt] is
    emptied at the start of the run and ends up holding, in the order of
    the listing, the entries of the files handled before a cancellation,
    and of all files when nobody cancels: name, colon, line feed, text,
    line feed, forty dashes, line feed. *)
Theorem X12_aggregate_file_content (w : World) (folder_path : str)
    (names : list str) :
  io_ok w -> isdir w folder_path = true ->
  listdir w folder_path = Ok names -> filter is_image names <> [] ->
  let files := filter is_image names in
  let out := path_join folder_path (lit "extracted_texts.txt") in
  let k := steps_before_stop (stop_flag w) 0 (length files) in
  let entry_of f :=
    f ++ lit ":" ++ [newline] ++ tk_text w normal (path_join folder_path f)
    ++ [newline] ++ repeat 45%N 40 ++ [newline] in
  file_content out (fs_ops (fst (update.process_bulk_images w folder_path)))
  = Some (concat (map entry_of (firstn k files)))
  /\ (never_cancelled w ->
      file_content out
        (fs_ops (fst (update.process_bulk_images w folder_path)))
      = Some (concat (map entry_of files))).
Proof.
  intros Hio Hdir Hlist Hsome files out k entry_of.
  destruct (update_run_ok w folder_path names Hio Hdir Hlist Hsome)
    as (_ & _ & F & _).
  fold files out k in F.
  assert (E : file_content out
                (fs_ops (fst (update.process_bulk_images w folder_path)))
              = Some (concat (map entry_of (firstn k files)))).
  { rewrite F. unfold file_content. cbn [fold_left apply_op].
    rewrite str_eqb_refl.
    rewrite (file_content_writes out
               (fun f => update.entry f
                           (tk_text w normal (path_join folder_path f)))).
    reflexivity. }
  split; [exact E|]. intros Hnever. rewrite E. unfold k.
  now rewrite (steps_before_stop_never w _ Hnever), firstn_all.
Qed.

(** X12, an instance: two images, cancel pressed while the first is
    handled; the file holds the entry of the first. *)
Lemma X12_aggregate_file_content_witness :
  file_content (lit "/imgs/extracted_texts.txt")
    (fs_ops (fst (update.process_bulk_images w_hello_cancel imgs)))
  = Some (lit "a.png:" ++ [newline] ++ lit "Hello World" ++ [newline]
          ++ repeat 45%N 40 ++ [newline]).
Proof.
  destruct (X12_aggregate_file_content w_hello_cancel imgs
              [lit "a.png"; lit "b.png"]) as [E _].
  - split; intros; reflexivity.
  - reflexivity.
  - reflexivity.
  - vm_compute. discriminate.
  - exact E.
Defined.

(** The loop of the per-image variant with the calls of [fs_op] willing:
    for each file a text file beside it, and a cell in the document when a
    PDF is wanted. *)
Lemma button_loop_exact (w : World) (folder_path : str) (save_as_pdf : bool)
    (files : list str) :
  forall (i : nat) (pages : list str),
    (forall op, io_error w op = None) ->
    let txt f := path_join folder_path (splitext_root f ++ lit ".txt") in
    let text f := tk_text w normal (path_join folder_path f) in
    let page f := f ++ lit ":" ++ [newline; newline] ++ text f in
    exists t,
      extra_button.loop w folder_path save_as_pdf i files pages
      = (t, Some (pages ++ if save_as_pdf then map page files else []))
      /\ fs_ops t
         = flat_map (fun f => [OpenW (txt f); WriteTo (txt f) (text f)]
                              ++ if save_as_pdf then [PdfCell (page f)]
                                 else []) files
      /\ boxes t = [].
Proof.
  induction files as [|f rest IH]; intros i pages Hio txt text page.
  - exists []. simpl. destruct save_as_pdf; rewrite app_nil_r;
      repeat split; reflexivity.
  - cbn [extra_button.loop].
    rewrite button_extract_text, bind_val. cbv beta.
    unfold write_text. rewrite !(fs_ok w _ (Hio _)).
    unfold emit, ret. rewrite !bind_val.
    destruct save_as_pdf; rewrite ?(fs_ok w _ (Hio _)); mred;
      match goal with
      | |- context [extra_button.loop w folder_path _ (S i) rest ?p] =>
          destruct (IH (S i) p Hio) as (t2 & E2 & F2 & B2)
      end;
      rewrite E2; mred; eexists; split.
    + f_equal. f_equal. fold (text f). fold (page f).
      cbn [map]. rewrite <- app_assoc. reflexivity.
    + unfold fs_ops, boxes in *. cbn [flat_map app]. rewrite F2, B2.
      split; reflexivity.
    + reflexivity.
    + unfold fs_ops, boxes in *. cbn [flat_map app]. rewrite F2, B2.
      split; reflexivity.
Qed.

(** The whole run of the per-image variant with the calls of [fs_op]
    willing. *)
Lemma button_run_exact (w : World) (folder_path : str)
    (save_as_pdf : bool) (names : list str) :
  (forall op, io_error w op = None) ->
  isdir w folder_path = true ->
  listdir w folder_path = Ok names ->
  filter is_image names <> [] ->
  let files := filter is_image names in
  let txt f := path_join folder_path (splitext_root f ++ lit ".txt") in
  let text f := tk_text w normal (path_join folder_path f) in
  let page f := f ++ lit ":" ++ [newline; newline] ++ text f in
  let t := fst (extra_button.process_bulk_images w folder_path save_as_pdf) in
  fs_ops t
  = flat_map (fun f => [OpenW (txt f); WriteTo (txt f) (text f)]
                       ++ if save_as_pdf then [PdfCell (page f)] else [])
      files
    ++ (if save_as_pdf
        then [PdfOutput (path_join folder_path (lit "extracted_texts.pdf"))
                (map page files)]
        else [])
  /\ boxes t = [showinfo].
Proof.
  intros Hio Hdir Hlist Hsome files txt text page t. unfold t.
  unfold extra_button.process_bulk_images. rewrite Hdir, Hlist. cbn [negb].
  fold files.
  destruct (length files =? 0) eqn:En.
  { apply Nat.eqb_eq, length_zero_iff_nil in En. contradiction. }
  destruct (button_loop_exact w folder_path save_as_pdf files 0 [] Hio)
    as (t1 & E & F & B).
  unfold emit. mred. rewrite E. mred.
  unfold fs_ops, boxes in *.
  destruct save_as_pdf; rewrite ?(fs_ok w _ (Hio _)); mred;
    cbn [flat_map app]; rewrite !flat_map_app, F, B; cbn [flat_map app];
    rewrite ?app_nil_r; split; reflexivity.
Qed.

(** X13: the outputs of the per-image variant.  On a non-empty file set,
    with the filesystem and the PDF library willing (no call of [fs_op]
    raises), a run handles the images in the order of the listing: for
    each it opens and writes the text file in the same folder, named after
    the stem of the image with [.txt] for its extension, with the text of
    the image, and, when a PDF is wanted, calls [add_page] and lays out
    one cell made of the name, a colon, an empty line and the text; after
    the loop it writes [extracted_texts.pdf], once, with these cells in
    the same order; when no PDF is wanted, no cell is laid out and no PDF
    written.  The run shows one message box, of success. *)
Theorem X13_per_image_outputs (w : World) (folder_path : str)
    (save_as_pdf : bool) (names : list str) :
  (forall op, io_error w op = None) ->
  isdir w folder_path = true ->
  listdir w folder_path = Ok names ->
  filter is_image names <> [] ->
  let files := filter is_image names in
  let txt f := path_join folder_path (splitext_root f ++ lit ".txt") in
  let text f := tk_text w normal (path_join folder_path f) in
  let page f := f ++ lit ":" ++ [newline; newline] ++ text f in
  let t := fst (extra_button.process_bulk_images w folder_path save_as_pdf) in
  fs_ops t
  = flat_map (fun f => [OpenW (txt f); WriteTo (txt f) (text f)]
                       ++ if save_as_pdf then [PdfCell (page f)] else [])
      files
    ++ (if save_as_pdf
        then [PdfOutput (path_join folder_path (lit "extracted_texts.pdf"))
                (map page files)]
        else [])
  /\ boxes t = [showinfo].
Proof.
  exact (button_run_exact w folder_path save_as_pdf names).
Qed.

(** X13, an instance: two images, a PDF wanted. *)
Lemma X13_per_image_outputs_witness :
  boxes (fst (extra_button.process_bulk_images w_hello imgs true))
  = [showinfo].
Proof.
  destruct (X13_per_image_outputs w_hello imgs true
              [lit "a.png"; lit "b.png"]) as [_ B].
  - intros op. reflexivity.
  - reflexivity.
  - reflexivity.
  - vm_compute. discriminate.
  - exact B.
Defined.

(** The loop of the per-image variant, a PDF wanted, up to an image whose
    cell the PDF library refuses: the text file of that image is written,
    then the exception leaves the loop. *)
Lemma button_loop_cell_refused (w : World) (folder_path : str)
    (f : str) (post : list str) (pre : list str) :
  let txt f := path_join folder_path (splitext_root f ++ lit ".txt") in
  let text f := tk_text w normal (path_join folder_path f) in
  let page f := f ++ lit ":" ++ [newline; newline] ++ text f in
  forall (i : nat) (pages : list str),
    (forall g, In g (pre ++ [f]) ->
               io_error w (OpenW (txt g)) = None
               /\ io_error w (WriteTo (txt g) (text g)) = None) ->
    (forall g, In g pre -> io_error w (PdfCell (page g)) = None) ->
    io_error w (PdfCell (page f)) <> None ->
    exists t,
      extra_button.loop w folder_path true i (pre ++ f :: post) pages
      = (t, None)
      /\ ocr_calls t = map (path_join folder_path) (pre ++ [f])
      /\ fs_ops t
         = flat_map (fun g => [OpenW (txt g); WriteTo (txt g) (text g);
                               PdfCell (page g)]) pre
           ++ [OpenW (txt f); WriteTo (txt f) (text f)]
      /\ boxes t = [].
Proof.
  intros txt text page. subst txt text page. cbv beta.
  induction pre as [|p pre IH]; intros i pages Hw Hc Hf.
  - cbn [app extra_button.loop].
    rewrite button_extract_text, bind_val. cbv beta zeta.
    destruct (Hw f (or_introl eq_refl)) as [Ho Hwr].
    unfold write_text.
    rewrite (fs_ok w _ Ho), (fs_ok w _ Hwr).
    match goal with
    | |- context [fs w (PdfCell ?c)] =>
        destruct (io_error w (PdfCell c)) as [e|] eqn:E;
          [rewrite (fs_refused w _ _ E) | exfalso; apply Hf; exact E]
    end.
    unfold emit. mred. rewrite !bind_none.
    eexists. split; [reflexivity|]. repeat split; reflexivity.
  - cbn [app extra_button.loop].
    rewrite button_extract_text, bind_val. cbv beta zeta.
    destruct (Hw p (or_introl eq_refl)) as [Ho Hwr].
    unfold write_text.
    rewrite (fs_ok w _ Ho), (fs_ok w _ Hwr).
    match goal with
    | |- context [fs w (PdfCell ?c)] =>
        rewrite (fs_ok w (PdfCell c) (Hc p (or_introl eq_refl)))
    end.
    unfold emit, ret. mred.
    match goal with
    | |- context [extra_button.loop w folder_path true (S i) _ ?q] =>
        destruct (IH (S i) q) as (t2 & E2 & O2 & F2 & B2)
    end.
    + intros g Hg. apply Hw. now right.
    + intros g Hg. apply Hc. now right.
    + exact Hf.
    + rewrite E2. mred. eexists. split; [reflexivity|].
      unfold ocr_calls, fs_ops, boxes in *. cbn [flat_map app map].
      rewrite O2, F2, B2. repeat split; reflexivity.
Qed.

(** X25: a cell the PDF library refuses ends a run of the per-image
    variant without a word.  When a PDF is wanted, the text files can be
    written, the cells of the images before some image are accepted and
    the cell of that image is refused ([multi_cell] raising on a text the
    font cannot encode), the exception leaves the run: the images up to
    and including that one have been read and have their text files, no
    later image is read, no PDF is written and no message box is shown. *)
Theorem X25_refused_cell_ends_run_silently (w : World) (folder_path : str)
    (names pre post : list str) (f : str) :
  let txt f := path_join folder_path (splitext_root f ++ lit ".txt") in
  let text f := tk_text w normal (path_join folder_path f) in
  let page f := f ++ lit ":" ++ [newline; newline] ++ text f in
  isdir w folder_path = true ->
  listdir w folder_path = Ok names ->
  filter is_image names = pre ++ f :: post ->
  (forall g, In g (pre ++ [f]) ->
             io_error w (OpenW (txt g)) = None
             /\ io_error w (WriteTo (txt g) (text g)) = None) ->
  (forall g, In g pre -> io_error w (PdfCell (page g)) = None) ->
  io_error w (PdfCell (page f)) <> None ->
  let r := extra_button.process_bulk_images w folder_path true in
  snd r = None
  /\ ocr_calls (fst r) = map (path_join folder_path) (pre ++ [f])
  /\ fs_ops (fst r)
     = flat_map (fun g => [OpenW (txt g); WriteTo (txt g) (text g);
                           PdfCell (page g)]) pre
       ++ [OpenW (txt f); WriteTo (txt f) (text f)]
  /\ boxes (fst r) = [].
Proof.
  intros txt text page Hdir Hlist Hfiles Hw Hc Hf r.
  unfold r, extra_button.process_bulk_images. rewrite Hdir, Hlist, Hfiles.
  cbn [negb].
  destruct (length (pre ++ f :: post) =? 0) eqn:En.
  { apply Nat.eqb_eq in En. rewrite length_app in En. simpl in En. lia. }
  destruct (button_loop_cell_refused w folder_path f post pre 0 [] Hw Hc Hf)
    as (t & E & O & F & B).
  unfold emit. mred. rewrite E, bind_none. cbn [fst snd].
  unfold ocr_calls, fs_ops, boxes in *. cbn [flat_map app].
  rewrite O, F, B. repeat split; reflexivity.
Qed.

(** X25, an instance: the second of two images reads a euro sign, which the
    font of the document cannot encode. *)
Lemma X25_refused_cell_ends_run_silently_witness :
  snd (extra_button.process_bulk_images w_euro imgs true) = None
  /\ boxes (fst (extra_button.process_bulk_images w_euro imgs true)) = []
  /\ ocr_calls (fst (extra_button.process_bulk_images w_euro imgs true))
     = [lit "/imgs/a.png"; lit "/imgs/b.png"].
Proof.
  destruct (X25_refused_cell_ends_run_silently w_euro imgs
              [lit "a.png"; lit "b.png"] [lit "a.png"] [] (lit "b.png"))
    as (A & O & _ & B).
  - reflexivity.
  - reflexivity.
  - reflexivity.
  - intros g Hg. split; reflexivity.
  - intros g [<-|[]]. reflexivity.
  - discriminate.
  - repeat split; assumption.
Defined.

(** ** Names of the files written *)

Lemma not_image_suffix (s o : str) :
  (forall ext X Y, In ext image_extensions ->
                   rev (lower o) ++ X <> rev ext ++ Y) ->
  is_image (s ++ o) = false.
Proof.
  intros H. destruct (is_image (s ++ o)) eqn:E; [|reflexivity].
  exfalso. unfold is_image in E. apply existsb_exists in E.
  destruct E as (ext & Hin & He). apply endswith_spec in He.
  destruct He as [stem He]. apply (f_equal (@rev N)) in He.
  unfold lower in He. rewrite map_app, !rev_app_distr in He.
  exact (H ext _ _ Hin He).
Qed.

Ltac not_image :=
  apply not_image_suffix; intros ext X Y Hin E;
  unfold image_extensions in Hin; cbn [In] in Hin;
  destruct Hin as [<-|[<-|[<-|[<-|[<-|[]]]]]];
  vm_compute in E; discriminate.

(** X14: a run does not feed on what an earlier run wrote.  The folder
    [Extracted_Texts] and every name that ends in [.txt], [.pdf] or
    [.xlsx], the only kinds of name the four programs create, are dropped
    by the filter of the bulk functions: a listing with such names added
    gives the same file set. *)
Theorem X14_outputs_are_not_inputs (names outputs : list str) :
  Forall (fun o => o = lit "Extracted_Texts"
                   \/ exists s, o = s ++ lit ".txt" \/ o = s ++ lit ".pdf"
                                \/ o = s ++ lit ".xlsx") outputs ->
  filter is_image (names ++ outputs) = filter is_image names.
Proof.
  intros H. rewrite filter_app.
  assert (E : filter is_image outputs = []).
  { induction H as [|o outputs Ho _ IH]; [reflexivity|].
    cbn [filter].
    assert (Eo : is_image o = false).
    { destruct Ho as [->|[s [->|[->| ->]]]];
        [reflexivity | not_image | not_image | not_image]. }
    now rewrite Eo. }
  rewrite E. apply app_nil_r.
Qed.

(** X14, an instance: the listing of a folder after a run of the per-image
    variant with a PDF. *)
Lemma X14_outputs_are_not_inputs_witness :
  filter is_image
    ([lit "a.png"; lit "b.JPG"]
     ++ [lit "a.txt"; lit "b.txt"; lit "extracted_texts.pdf";
         lit "Extracted_Texts"])
  = filter is_image [lit "a.png"; lit "b.JPG"].
Proof.
  apply X14_outputs_are_not_inputs.
  apply Forall_cons; [right; exists (lit "a"); left; reflexivity|].
  apply Forall_cons; [right; exists (lit "b"); left; reflexivity|].
  apply Forall_cons;
    [right; exists (lit "extracted_texts"); right; left; reflexivity|].
  apply Forall_cons; [left; reflexivity|].
  apply Forall_nil.
Defined.

(** ** Saving the text of one image *)



(** X16: [save_text_with_preview] against [save_text_as_filename].  With
    the filesystem willing the two write the same file and end with the
    same box, the first showing the text as well.  When the file cannot be
    opened, the second reports it in an error box and ends normally, while
    the first lets the exception escape and shows no box at all. *)
Theorem X16_preview_variant_does_not_catch (w : World)
    (image_path folder_path : str) :
  let text := tk_text w normal image_path in
  let save_path := path_join folder_path (extra_button.filename_of text) in
  let plain := extra_button.save_text_as_filename w image_path folder_path in
  let preview :=
    extra_button_ui.save_text_with_preview w image_path folder_path in
  ((forall op, io_error w op = None) ->
   snd preview = Some tt
   /\ fs_ops (fst preview) = fs_ops (fst plain)
   /\ boxes (fst preview) = boxes (fst plain))
  /\ (truthy (strip text) = true ->
      io_error w (OpenW save_path) <> None ->
      snd preview = None /\ boxes (fst preview) = []
      /\ snd plain = Some tt /\ boxes (fst plain) = [showerror]).
Proof.
  intros text save_path plain preview.
  unfold plain, preview, extra_button.save_text_as_filename,
    extra_button_ui.save_text_with_preview.
  rewrite !button_extract_text, !bind_val. cbv beta. fold text.
  split.
  - intros Hio. destruct (truthy (strip text)).
    + cbv zeta. fold save_path. unfold write_text, try_fs.
      rewrite !(fs_ok w _ (Hio _)), !Hio. unfold emit, ret. mred.
      repeat split; reflexivity.
    + repeat split; reflexivity.
  - intros Et Ho. rewrite Et. cbv zeta. fold save_path.
    unfold write_text, try_fs, fs.
    destruct (io_error w (OpenW save_path)) eqn:Eo; [|contradiction].
    unfold raise, emit, ret. mred. repeat split; reflexivity.
Qed.

(** X16, an instance: a folder nothing can be written to. *)
Lemma X16_preview_variant_does_not_catch_witness :
  snd (extra_button_ui.save_text_with_preview w_read_only
         (lit "/imgs/a.png") (lit "/out")) = None
  /\ boxes (fst (extra_button.save_text_as_filename w_read_only
                   (lit "/imgs/a.png") (lit "/out"))) = [showerror].
Proof.
  destruct (X16_preview_variant_does_not_catch w_read_only
              (lit "/imgs/a.png") (lit "/out")) as [_ H].
  destruct H as (A & _ & _ & B).
  - reflexivity.
  - discriminate.
  - split; [exact A | exact B].
Defined.

(** ** The history list *)

Lemma add_to_history_firstn (p : str) (h : list str) :
  extra_button_ui.add_to_history p h = firstn 10 (p :: h).
Proof.
  unfold extra_button_ui.add_to_history. cbv zeta.
  destruct (10 <? length (p :: h)) eqn:E; [reflexivity|].
  apply Nat.ltb_ge in E. symmetry. now apply firstn_all2.
Qed.

(** X17: the history holds the ten most recent paths, the most recent
    first.  After any series of calls of [add_to_history] on a list of at
    most ten items, the list is the paths in reverse order of the calls,
    followed by the old items, cut after the tenth; a path added twice is
    listed twice. *)
Theorem X17_history_most_recent_ten (paths history_list : list str) :
  length history_list <= 10 ->
  let after :=
    fold_left (fun h p => extra_button_ui.add_to_history p h) paths
      history_list in
  after = firstn 10 (rev paths ++ history_list) /\ length after <= 10.
Proof.
  intros Hlen after.
  assert (E : after = firstn 10 (rev paths ++ history_list)).
  { unfold after. clear after. induction paths as [|p paths IH] using rev_ind.
    - cbn [fold_left rev app]. symmetry. now apply firstn_all2.
    - rewrite fold_left_app. cbn [fold_left]. rewrite IH.
      rewrite add_to_history_firstn, rev_app_distr. cbn [rev app].
      rewrite !(firstn_cons 9). f_equal. rewrite firstn_firstn.
      reflexivity. }
  split; [exact E|]. rewrite E. apply firstn_le_length.
Qed.

(** X17, an instance: eleven paths into an empty history; the first one
    is dropped. *)
Lemma X17_history_most_recent_ten_witness :
  fold_left (fun h p => extra_button_ui.add_to_history p h)
    (map (fun n => [N.of_nat n]) (seq 0 11)) []
  = map (fun n => [N.of_nat n]) (rev (seq 1 10)).
Proof.
  destruct (X17_history_most_recent_ten
              (map (fun n => [N.of_nat n]) (seq 0 11)) []) as [E _].
  - simpl. lia.
  - exact E.
Defined.

(** ** Images that share a stem *)

Lemma rfind_from_absent (c : N) (s : str) :
  ~ In c s -> forall i, rfind_from c s i = (-1)%Z.
Proof.
  induction s as [|x s IH]; intros Hn i; [reflexivity|].
  cbn [rfind_from]. rewrite IH by (intros H; apply Hn; now right).
  cbv zeta. cbn [Z.leb Z.compare].
  destruct (N.eqb x c) eqn:E; [|reflexivity].
  apply N.eqb_eq in E. subst x. exfalso. apply Hn. now left.
Qed.

Lemma rfind_from_last (c : N) (ext : str) :
  ~ In c ext ->
  forall (stem : str) (i : Z),
    (0 <= i)%Z ->
    rfind_from c (stem ++ c :: ext) i = (i + Z.of_nat (length stem))%Z.
Proof.
  intros Hn. induction stem as [|x stem IH]; intros i Hi.
  - cbn [app rfind_from length]. rewrite (rfind_from_absent c ext Hn).
    cbv zeta. cbn [Z.leb Z.compare]. rewrite N.eqb_refl. cbn. lia.
  - cbn [app rfind_from]. rewrite IH by lia. cbv zeta.
    destruct (0 <=? i + 1 + Z.of_nat (length stem))%Z eqn:E.
    + cbn [length]. lia.
    + apply Z.leb_gt in E. lia.
Qed.

(** The stem of a plain file name: what stands before the last dot. *)
Lemma splitext_root_stem (stem ext : str) :
  ~ In slash stem -> (exists c, In c stem /\ c <> dot) ->
  ~ In dot ext -> ~ In slash ext ->
  splitext_root (stem ++ dot :: ext) = stem.
Proof.
  intros Hs (c & Hc & Hcd) Hd He. unfold splitext_root, rfind.
  rewrite (rfind_from_last dot ext Hd stem 0%Z) by lia.
  rewrite (rfind_from_absent slash).
  2:{ intros H. apply in_app_or in H. destruct H as [H|[H|H]]; auto.
      discriminate. }
  cbv zeta.
  replace (Z.to_nat (0 + Z.of_nat (length stem) - (-1 + 1)))
    with (length stem) by lia.
  replace (Z.to_nat (0 + Z.of_nat (length stem))) with (length stem) by lia.
  change (Z.to_nat (-1 + 1)) with 0. cbn [skipn].
  rewrite firstn_app, Nat.sub_diag, firstn_all. cbn [firstn]. rewrite app_nil_r.
  assert (Ex : existsb (fun c0 => negb (N.eqb c0 dot)) stem = true).
  { apply existsb_exists. exists c. split; [exact Hc|].
    apply negb_true_iff, N.eqb_neq. exact Hcd. }
  rewrite Ex.
  destruct (-1 <? 0 + Z.of_nat (length stem))%Z eqn:E.
  - reflexivity.
  - apply Z.ltb_ge in E. lia.
Qed.

Lemma file_content_app_other (path : str) (ops more : list fs_op) :
  Forall (fun op => match op with
                    | OpenW _ | WriteTo _ _ => False
                    | _ => True
                    end) more ->
  file_content path (ops ++ more) = file_content path ops.
Proof.
  intros H. unfold file_content. rewrite fold_left_app.
  generalize (fold_left (apply_op path) ops None).
  induction H as [|op more Hop _ IH]; intros c; [reflexivity|].
  cbn [fold_left].
  destruct op; try contradiction; cbn [apply_op]; apply IH.
Qed.

Lemma file_content_last (txt text : str -> str) (extra : str -> list fs_op)
    (path : str) (files : list str) :
  (forall f, Forall (fun op => match op with
                               | OpenW _ | WriteTo _ _ => False
                               | _ => True
                               end) (extra f)) ->
  file_content path
    (flat_map (fun f => [OpenW (txt f); WriteTo (txt f) (text f)] ++ extra f)
       files)
  = option_map text (find (fun g => str_eqb (txt g) path) (rev files)).
Proof.
  intros Hextra. induction files as [|g files IH] using rev_ind.
  - reflexivity.
  - rewrite flat_map_app. cbn [flat_map]. rewrite app_nil_r, app_assoc.
    rewrite (file_content_app_other path _ (extra g) (Hextra g)).
    unfold file_content in *. rewrite fold_left_app, IH, rev_app_distr.
    cbn [app fold_left apply_op rev find].
    destruct (str_eqb (txt g) path); reflexivity.
Qed.

(** X18: the per-image variant names the text file after the stem of the
    image, so images that share a stem share the file.  After a run with
    the filesystem and, when a PDF is wanted, the PDF library willing, a
    file holds the text of the last image of the
    listing whose text file it is; a path that is the text file of no image
    has not been written.  Two plain names that differ in the extension
    only, as [a.png] and [a.jpg], have the same text file. *)
Theorem X18_same_stem_last_wins (w : World) (folder_path : str)
    (save_as_pdf : bool) (names : list str) :
  (forall op, io_error w op = None) ->
  isdir w folder_path = true ->
  listdir w folder_path = Ok names ->
  filter is_image names <> [] ->
  let files := filter is_image names in
  let txt f := path_join folder_path (splitext_root f ++ lit ".txt") in
  let text f := tk_text w normal (path_join folder_path f) in
  let t := fst (extra_button.process_bulk_images w folder_path save_as_pdf) in
  (forall path,
     file_content path (fs_ops t)
     = option_map text (find (fun g => str_eqb (txt g) path) (rev files)))
  /\ (forall stem ext ext',
        ~ In slash stem -> (exists c, In c stem /\ c <> dot) ->
        ~ In dot ext -> ~ In slash ext ->
        ~ In dot ext' -> ~ In slash ext' ->
        txt (stem ++ dot :: ext) = txt (stem ++ dot :: ext')).
Proof.
  intros Hio Hdir Hlist Hsome files txt text t. split.
  - intros path.
    destruct (button_run_exact w folder_path save_as_pdf names
                Hio Hdir Hlist Hsome) as [F _].
    fold files txt text t in F. rewrite F.
    rewrite file_content_app_other.
    + apply (file_content_last txt text).
      intros g. destruct save_as_pdf; repeat constructor.
    + destruct save_as_pdf; repeat constructor.
  - intros stem ext ext' Hs Hc Hd He Hd' He'. unfold txt.
    now rewrite !splitext_root_stem.
Qed.

(** X18, an instance: [a.png] reads [first], [a.jpg] reads [second];
    [a.txt] ends up with [second]. *)
Lemma X18_same_stem_last_wins_witness :
  file_content (lit "/imgs/a.txt")
    (fs_ops (fst (extra_button.process_bulk_images w_same_stem imgs false)))
  = Some (lit "second").
Proof.
  destruct (X18_same_stem_last_wins w_same_stem imgs false
              [lit "a.png"; lit "a.jpg"]) as [E _].
  - intros op. reflexivity.
  - reflexivity.
  - reflexivity.
  - vm_compute. discriminate.
  - rewrite E. reflexivity.
Defined.

(** ** The names the Tk variants build from a text *)

Lemma first_line_no_newline (s : str) : ~ In newline (first_line s).
Proof.
  induction s as [|c s IH]; [intros []|].
  cbn [first_line]. destruct (N.eqb c newline) eqn:E; [intros []|].
  intros [H|H]; [|now apply IH].
  apply N.eqb_neq in E. contradiction.
Qed.

Lemma first_line_empty (s : str) :
  first_line s = [] <-> s = [] \/ exists rest, s = newline :: rest.
Proof.
  destruct s as [|c s]; cbn [first_line].
  - split; [now left | reflexivity].
  - destruct (N.eqb c newline) eqn:E.
    + apply N.eqb_eq in E. subst c. split; [|reflexivity].
      intros _. right. now exists s.
    + split; [discriminate|]. intros [H|[rest H]]; [discriminate|].
      injection H as -> _. now rewrite N.eqb_refl in E.
Qed.

(** X19: the name the Tk variants build from a text.  It has at most 50
    characters, all of the first line of the text, and holds no space, no
    slash and no line feed; the file name of the per-image variant is this
    name followed by [.txt].  The name is empty exactly when the text is
    empty or begins with a line feed, which a text that is not blank
    can do. *)
Theorem X19_tk_name_shape (text : str) :
  let name := extra_excel_prompt.folder_name_of text in
  length name <= 50
  /\ ~ In space name /\ ~ In slash name /\ ~ In newline name
  /\ extra_button.filename_of text = name ++ lit ".txt"
  /\ (name = [] <-> text = [] \/ exists rest, text = newline :: rest)
  /\ (forall rest, truthy (strip rest) = true ->
        truthy (strip (newline :: rest)) = true
        /\ extra_excel_prompt.folder_name_of (newline :: rest) = []).
Proof.
  intros name. unfold name, extra_excel_prompt.folder_name_of,
    extra_button.filename_of, replace_char.
  rewrite map_map.
  set (g := fun c : N => if ((if c =? space then underscore else c) =? slash)%N
                         then underscore
                         else if (c =? space)%N then underscore else c).
  assert (Hg : forall c x, g c = x -> x = underscore \/ x = c /\ c <> space
                                          /\ c <> slash).
  { intros c x <-. unfold g. destruct (N.eqb c space) eqn:E1.
    - left. reflexivity.
    - destruct (N.eqb c slash) eqn:E2; [now left|].
      right. apply N.eqb_neq in E1, E2. auto. }
  repeat split.
  - rewrite length_map. apply firstn_le_length.
  - intros H. apply in_map_iff in H. destruct H as (c & E & _).
    apply Hg in E. destruct E as [E|(E & E1 & _)]; [discriminate|].
    congruence.
  - intros H. apply in_map_iff in H. destruct H as (c & E & _).
    apply Hg in E. destruct E as [E|(E & _ & E2)]; [discriminate|].
    congruence.
  - intros H. apply in_map_iff in H. destruct H as (c & E & Hin).
    apply Hg in E. destruct E as [E|(E & _ & _)]; [discriminate|].
    subst c. apply (first_line_no_newline text).
    rewrite <- (firstn_skipn 50 (first_line text)).
    apply in_or_app. now left.
  - intros H. apply map_eq_nil in H.
    apply first_line_empty.
    destruct (first_line text); [reflexivity|discriminate].
  - intros H. apply first_line_empty in H. now rewrite H.
  - cbn [strip lstrip]. change (isspace newline) with true. cbv iota.
    exact H.
Qed.

(** ** Failures in the middle of a run *)

(** X20: under [extracted_name] the spreadsheet variant assigns the folder
    it made for a file to [folder_path], the variable the next file is
    looked for in.  After a first file whose text is not blank and whose
    preview can be made, the engine is called for the second file on a path
    inside the folder named after the first text, not inside the folder the
    user chose. *)
Theorem X20_extracted_name_moves_folder (w : World) (folder_path : str)
    (mode : scan_mode) (names : list str) (f1 f2 : str) (rest : list str) :
  (forall op, io_error w op = None) ->
  image_open w (path_join folder_path f1) = true ->
  isdir w folder_path = true ->
  listdir w folder_path = Ok names ->
  filter is_image names = f1 :: f2 :: rest ->
  stop_flag w 0 = false -> stop_flag w 1 = false ->
  let output_folder := path_join folder_path (lit "Extracted_Texts") in
  let text1 := tk_text w mode (path_join folder_path f1) in
  truthy (strip text1) = true ->
  exists more,
    ocr_calls (fst (extra_excel_prompt.process_bulk_images w folder_path
                      extracted_name mode))
    = path_join folder_path f1
      :: path_join
           (path_join output_folder
              (extra_excel_prompt.folder_name_of text1)) f2
      :: more.
Proof.
  intros Hio Himg Hdir Hlist Hfiles H0 H1 output_folder text1 Ht.
  unfold extra_excel_prompt.process_bulk_images.
  rewrite Hdir, Hlist, Hfiles. cbn [negb length Nat.eqb].
  fold output_folder.
  rewrite (fs_ok w _ (Hio _)). unfold emit. mred.
  cbn [extra_excel_prompt.loop]. rewrite H0, H1.
  rewrite !excel_extract_text, !bind_val. cbv beta.
  fold text1. unfold extra_excel_prompt.save_step at 1. rewrite Ht.
  unfold write_text, show_image. rewrite !(fs_ok w _ (Hio _)), !Himg.
  unfold emit, ret. mred. cbv beta iota. mred.
  repeat (cbv beta iota; mred).
  rewrite excel_extract_text, bind_val. cbv beta. cbn [fst snd app].
  repeat match goal with
         | |- context [fst (bind ?m ?k)] => rewrite (fst_bind m k); cbn [fst]
         end.
  unfold ocr_calls.
  repeat first [rewrite flat_map_app | progress cbn [flat_map app]].
  eexists. reflexivity.
Qed.

(** X20, an instance: two images reading [Hello World]. *)
Lemma X20_extracted_name_moves_folder_witness :
  exists more,
    ocr_calls (fst (extra_excel_prompt.process_bulk_images w_hello imgs
                      extracted_name normal))
    = lit "/imgs/a.png" :: lit "/imgs/Extracted_Texts/Hello_World/b.png"
      :: more.
Proof.
  apply (X20_extracted_name_moves_folder w_hello imgs normal
           [lit "a.png"; lit "b.png"] (lit "a.png") (lit "b.png") []).
  - intros op. reflexivity.
  - reflexivity.
  - reflexivity.
  - reflexivity.
  - reflexivity.
  - reflexivity.
  - reflexivity.
  - reflexivity.
Defined.

(** The loop of the text variant up to an image that cannot be opened for
    the preview: its entry is written and counted, then the exception
    leaves the loop. *)
Lemma update_loop_preview_fails (w : World)
    (folder_path output_file_path : str) (total_files : nat)
    (f : str) (post : list str) (pre : list str) :
  forall i,
    (forall op, io_error w op = None) ->
    (forall p, In p pre -> image_open w (path_join folder_path p) = true) ->
    image_open w (path_join folder_path f) = false ->
    (forall j, i <= j <= i + length pre -> stop_flag w j = false) ->
    exists t,
      update.loop w folder_path output_file_path total_files i
        (pre ++ f :: post) = (t, None)
      /\ ocr_calls t = map (path_join folder_path) (pre ++ [f])
      /\ fs_ops t
         = map (fun g => WriteTo output_file_path
                           (update.entry g
                              (tk_text w normal (path_join folder_path g))))
             (pre ++ [f])
      /\ bar_values t = map (fun j => j + 1) (seq i (S (length pre)))
      /\ boxes t = [].
Proof.
  induction pre as [|p pre IH]; intros i Hio Hpre Hf Hdown.
  - cbn [app update.loop]. rewrite (Hdown i) by (simpl; lia).
    rewrite tk_extract_text, bind_val. cbv beta.
    rewrite (fs_ok w _ (Hio _)). unfold show_image. rewrite Hf.
    unfold emit, raise. mred.
    eexists. split; [reflexivity|]. repeat split; reflexivity.
  - cbn [app update.loop]. rewrite (Hdown i) by (simpl; lia).
    rewrite tk_extract_text, bind_val. cbv beta.
    rewrite (fs_ok w _ (Hio _)). unfold show_image.
    rewrite (Hpre p) by now left.
    destruct (IH (S i) Hio) as (t2 & E2 & O2 & F2 & B2 & M2).
    + intros q Hq. apply Hpre. now right.
    + exact Hf.
    + intros j Hj. apply Hdown. simpl. lia.
    + unfold emit. mred. rewrite E2. mred.
      eexists. split; [reflexivity|].
      unfold ocr_calls, fs_ops, bar_values, boxes in *.
      cbn [flat_map app map length seq].
      rewrite O2, F2, B2, M2. repeat split; reflexivity.
Qed.

(** X21: an image that cannot be opened for the preview ends a run of the
    text variant without a word.  With the filesystem willing and no
    cancellation up to that image, the run ends by the exception of
    [Image.open]: the engine has read the images up to and including that
    one, their entries are in [extracted_texts.txt], the bar has counted
    them, no later image is read and no message box is shown. *)
Theorem X21_preview_failure_is_silent (w : World) (folder_path : str)
    (names pre post : list str) (f : str) :
  (forall op, io_error w op = None) ->
  isdir w folder_path = true ->
  listdir w folder_path = Ok names ->
  filter is_image names = pre ++ f :: post ->
  (forall p, In p pre -> image_open w (path_join folder_path p) = true) ->
  image_open w (path_join folder_path f) = false ->
  (forall j, j <= length pre -> stop_flag w j = false) ->
  let out := path_join folder_path (lit "extracted_texts.txt") in
  let entry_of g :=
    update.entry g (tk_text w normal (path_join folder_path g)) in
  let r := update.process_bulk_images w folder_path in
  snd r = None
  /\ boxes (fst r) = []
  /\ ocr_calls (fst r) = map (path_join folder_path) (pre ++ [f])
  /\ file_content out (fs_ops (fst r))
     = Some (concat (map entry_of (pre ++ [f])))
  /\ bar_values (fst r) = map (fun j => j + 1) (seq 0 (S (length pre))).
Proof.
  intros Hio Hdir Hlist Hfiles Hpre Hf Hdown out entry_of r.
  unfold r, update.process_bulk_images. rewrite Hdir, Hlist, Hfiles.
  cbn [negb].
  destruct (length (pre ++ f :: post) =? 0) eqn:En.
  { apply Nat.eqb_eq in En. rewrite length_app in En. simpl in En. lia. }
  fold out. rewrite (fs_ok w _ (Hio _)).
  destruct (update_loop_preview_fails w folder_path out
              (length (pre ++ f :: post)) f post pre 0 Hio Hpre Hf)
    as (t & E & O & F & B & M).
  { intros j Hj. apply Hdown. lia. }
  unfold emit. mred. rewrite E, bind_none. mred.
  unfold boxes, ocr_calls, fs_ops, bar_values in *.
  rewrite ?app_nil_r. cbn [flat_map app]. rewrite ?flat_map_app, O, F, B, M.
  repeat split; try reflexivity.
  unfold file_content. cbn [fold_left apply_op]. rewrite str_eqb_refl.
  rewrite (file_content_writes out entry_of). reflexivity.
Qed.

(** X21, an instance: two images that PIL cannot open; the run ends at the
    first. *)
Lemma X21_preview_failure_is_silent_witness :
  snd (update.process_bulk_images w_no_preview imgs) = None
  /\ boxes (fst (update.process_bulk_images w_no_preview imgs)) = []
  /\ ocr_calls (fst (update.process_bulk_images w_no_preview imgs))
     = [lit "/imgs/a.png"].
Proof.
  destruct (X21_preview_failure_is_silent w_no_preview imgs
              [lit "a.png"; lit "b.png"] [] [lit "b.png"] (lit "a.png"))
    as (A & B & C & _).
  - intros op. reflexivity.
  - reflexivity.
  - reflexivity.
  - reflexivity.
  - intros p [].
  - reflexivity.
  - intros j _. reflexivity.
  - repeat split; assumption.
Defined.

(** ** A refused filesystem call in the PyQt worker *)

Section QtRefused.

Variable w : World.
Variable text_length_limit : option nat.
Variables folder_path output_folder : str.
Variable total_files : nat.

Let ops_of := qt_ops_of w text_length_limit folder_path output_folder.
Let record_of := qt_record_of w text_length_limit folder_path output_folder.

(** A step whose own filesystem calls succeed. *)
Lemma qt_file_step_when (idx : nat) (file_name : str) :
  (forall op, In op (ops_of file_name) -> io_error w op = None) ->
  exists t,
    LRD_QT_EXT.file_step w text_length_limit folder_path output_folder
      total_files idx file_name = (t, Some (record_of file_name))
    /\ ocr_calls t = [path_join folder_path file_name]
    /\ fs_ops t = ops_of file_name
    /\ progress_signals t = [(idx + 1, total_files)]
    /\ error_msgs t = [] /\ done_records t = [].
Proof.
  unfold ops_of, record_of, qt_ops_of, qt_record_of.
  set (text := qt_text w text_length_limit (path_join folder_path file_name)).
  intros Hio.
  unfold LRD_QT_EXT.file_step, LRD_QT_EXT._extract_text, write_text, fs,
    bind, emit, ret.
  cbv beta iota zeta.
  fold (qt_text w text_length_limit (path_join folder_path file_name)).
  fold text. unfold qt_step_record, qt_step_ops, qt_gets_folder in *.
  destruct (truthy (strip text) && negb (startswith text (lit "Error"))).
  - rewrite (Hio _ (or_introl eq_refl)),
      (Hio _ (or_intror (or_introl eq_refl))),
      (Hio _ (or_intror (or_intror (or_introl eq_refl)))).
    cbv beta iota zeta.
    eexists. split; [reflexivity|]. repeat split; reflexivity.
  - cbv beta iota zeta.
    eexists. split; [reflexivity|]. repeat split; reflexivity.
Qed.

(** A step one of whose filesystem calls is refused: the exception leaves
    the step after the calls before it; nothing is reported. *)
Lemma qt_file_step_refused (idx : nat) (file_name : str) :
  (exists op, In op (ops_of file_name) /\ io_error w op <> None) ->
  exists t n,
    LRD_QT_EXT.file_step w text_length_limit folder_path output_folder
      total_files idx file_name = (t, None)
    /\ ocr_calls t = [path_join folder_path file_name]
    /\ fs_ops t = firstn n (ops_of file_name) /\ n < 3
    /\ progress_signals t = []
    /\ error_msgs t = [] /\ done_records t = [].
Proof.
  unfold ops_of, qt_ops_of.
  set (text := qt_text w text_length_limit (path_join folder_path file_name)).
  intros (op & Hin & Hop).
  unfold LRD_QT_EXT.file_step, LRD_QT_EXT._extract_text, write_text, fs,
    bind, emit, ret, raise.
  cbv beta iota zeta.
  fold (qt_text w text_length_limit (path_join folder_path file_name)).
  fold text. unfold qt_step_ops, qt_gets_folder in *.
  destruct (truthy (strip text) && negb (startswith text (lit "Error")));
    [|destruct Hin].
  destruct (io_error w (MakeDirs _)) eqn:E1.
  { exists [Emit (file_preview (path_join folder_path file_name));
            Emit (log_msg (lit "Processing: " ++ file_name));
            ReadText (path_join folder_path file_name)], 0.
    repeat split; try reflexivity. lia. }
  destruct (io_error w (OpenW _)) eqn:E2.
  { eexists _, 1. split; [reflexivity|].
    repeat split; try reflexivity. lia. }
  destruct (io_error w (WriteTo _ _)) eqn:E3.
  { eexists _, 2. split; [reflexivity|].
    repeat split; try reflexivity. lia. }
  exfalso. destruct Hin as [<-|[<-|[<-|[]]]]; contradiction.
Qed.

(** The loop up to a file with a refused call. *)
Lemma qt_loop_refused (f : str) (post : list str) (pre : list str) :
  forall (idx : nat) (records : list dict),
    (forall j, idx <= j <= idx + length pre -> stop_flag w j = false) ->
    (forall g op, In g pre -> In op (ops_of g) -> io_error w op = None) ->
    (exists op, In op (ops_of f) /\ io_error w op <> None) ->
    exists t n,
      LRD_QT_EXT.loop w text_length_limit folder_path output_folder
        total_files idx (pre ++ f :: post) records = (t, None)
      /\ ocr_calls t = map (path_join folder_path) (pre ++ [f])
      /\ fs_ops t = flat_map ops_of pre ++ firstn n (ops_of f) /\ n < 3
      /\ progress_signals t
         = map (fun i => (i + 1, total_files)) (seq idx (length pre))
      /\ error_msgs t = [] /\ done_records t = [].
Proof.
  induction pre as [|p pre IH]; intros idx records Hdown Hpre Hf.
  - cbn [app LRD_QT_EXT.loop]. rewrite (Hdown idx) by (simpl; lia).
    destruct (qt_file_step_refused idx f Hf)
      as (t & n & E & O & F & Hn & P & M & D).
    rewrite E, bind_none. exists t, n. repeat split; assumption.
  - cbn [app LRD_QT_EXT.loop]. rewrite (Hdown idx) by (simpl; lia).
    destruct (qt_file_step_when idx p) as (t1 & E1 & O1 & F1 & P1 & M1 & D1).
    { intros op Hop. apply (Hpre p op); [now left | exact Hop]. }
    destruct (IH (S idx) (records ++ [record_of p]))
      as (t2 & n & E2 & O2 & F2 & Hn & P2 & M2 & D2).
    + intros j Hj. apply Hdown. simpl. lia.
    + intros g op Hg. apply Hpre. now right.
    + exact Hf.
    + rewrite E1, bind_val. cbv beta. rewrite E2. cbn [fst snd].
      exists (t1 ++ t2), n. split; [reflexivity|].
      rewrite ocr_calls_app, fs_ops_app, progress_signals_app,
        error_msgs_app, done_records_app, O1, O2, F1, F2, P1, P2,
        M1, M2, D1, D2.
      cbn [flat_map map app length seq]. rewrite <- app_assoc.
      repeat split; try reflexivity. exact Hn.
Qed.

End QtRefused.

(** X22: a refused filesystem call in the loop of the PyQt worker ends the
    run without any report.  When the output folder can be made, the
    reader loads, the flag stays down, the calls for the files before some
    file succeed and a call for that file (its folder, or opening or
    writing its text file) is refused, the exception leaves [run]: the
    files up to that one have been read and the ones before it have their
    folders, yet no spreadsheet is written, [all_done] is not emitted, and
    neither is [error_msg]. *)
Theorem X22_refused_call_ends_run_silently (w : World) (limit : option nat)
    (folder_path : str) (names pre post : list str) (f : str) :
  let output_folder := path_join folder_path (lit "Extracted_Texts") in
  let ops_of := qt_ops_of w limit folder_path output_folder in
  listdir w folder_path = Ok names ->
  filter is_image names = pre ++ f :: post ->
  io_error w (MakeDirs output_folder) = None ->
  load_reader w = Ok tt ->
  (forall j, j <= length pre -> stop_flag w j = false) ->
  (forall g op, In g pre -> In op (ops_of g) -> io_error w op = None) ->
  (exists op, In op (ops_of f) /\ io_error w op <> None) ->
  let r := LRD_QT_EXT.run w limit folder_path None in
  snd r = None
  /\ ocr_calls (fst r) = map (path_join folder_path) (pre ++ [f])
  /\ (exists n, n < 3
        /\ fs_ops (fst r)
           = MakeDirs output_folder :: flat_map ops_of pre
             ++ firstn n (ops_of f))
  /\ progress_signals (fst r)
     = map (fun i => (i + 1, length (pre ++ f :: post))) (seq 0 (length pre))
  /\ excel_writes (fst r) = []
  /\ done_records (fst r) = []
  /\ error_msgs (fst r) = [].
Proof.
  intros output_folder ops_of Hlist Hfiles Hroot Hreader Hdown Hpre Hf r.
  unfold r, LRD_QT_EXT.run, LRD_QT_EXT.select_files.
  rewrite Hlist, Hfiles.
  destruct (length (pre ++ f :: post) =? 0) eqn:En.
  { apply Nat.eqb_eq in En. rewrite length_app in En. simpl in En. lia. }
  cbv zeta. fold output_folder.
  rewrite (fs_ok w _ Hroot). unfold LRD_QT_EXT._get_reader.
  rewrite Hreader.
  destruct (qt_loop_refused w limit folder_path output_folder
              (length (pre ++ f :: post)) f post pre 0 [])
    as (t & n & E & O & F & Hn & P & M & D).
  { intros j Hj. apply Hdown. lia. }
  { exact Hpre. }
  { exact Hf. }
  mred. rewrite E, bind_none. mred.
  rewrite excel_writes_ops.
  unfold ocr_calls, fs_ops, progress_signals, done_records, error_msgs in *.
  cbn [flat_map app]. rewrite O, F, P, M, D.
  repeat split; try reflexivity.
  - exists n. split; [exact Hn | reflexivity].
  - cbn [flat_map op_rows app]. rewrite flat_map_app.
    fold ops_of. unfold ops_of at 1. rewrite qt_ops_rows.
    cbn [app]. unfold ops_of, qt_ops_of, qt_step_ops.
    destruct (qt_gets_folder _); [|now destruct n].
    destruct n as [|[|[|n]]]; try reflexivity. lia.
Qed.

(** X22, an instance: two images reading [Hello World] where no folder
    can be made inside the output folder. *)
Lemma X22_refused_call_ends_run_silently_witness :
  snd (LRD_QT_EXT.run w_no_subfolder None imgs None) = None
  /\ done_records (fst (LRD_QT_EXT.run w_no_subfolder None imgs None)) = []
  /\ error_msgs (fst (LRD_QT_EXT.run w_no_subfolder None imgs None)) = [].
Proof.
  destruct (X22_refused_call_ends_run_silently w_no_subfolder None imgs
              [lit "a.png"; lit "b.png"] [] [lit "b.png"] (lit "a.png"))
    as (A & _ & _ & _ & _ & D & M).
  - reflexivity.
  - reflexivity.
  - reflexivity.
  - reflexivity.
  - intros j _. reflexivity.
  - intros g op [].
  - exists (MakeDirs (lit "/imgs/Extracted_Texts/Hello_World")).
    split; [left; reflexivity | discriminate].
  - repeat split; assumption.
Defined.

(** ** The rows of the spreadsheet variant *)

Section ExcelRows.

Variable w : World.
Variable option : save_option.
Variable mode : scan_mode.
Variables folder_path output_folder : str.
Variable total_files : nat.

Hypothesis Hio : io_ok w.
Hypothesis Hoption : option <> extracted_name.

Let text (f : str) : str := tk_text w mode (path_join folder_path f).
Let txt (f : str) : str :=
  path_join (path_join output_folder (splitext_root f))
    (lit "extracted_text.txt").
Let row (f : str) : dict :=
  match option with
  | single_file => [(lit "File Name", f); (lit "Extracted Text", text f)]
  | _ => [(lit "File Name", f); (lit "Saved Path", txt f)]
  end.
Let ops (f : str) : list fs_op :=
  match option with
  | single_file => []
  | _ => [MakeDirs (path_join output_folder (splitext_root f));
          OpenW (txt f); WriteTo (txt f) (text f)]
  end.

(** The loop under [single_file] and [separate_files] with the flag down:
    one row per file, and under [separate_files] one folder and one text
    file per file. *)
Lemma excel_loop_rows (files : list str) :
  forall (i : nat) (records : list dict),
    (forall j, i <= j < i + length files -> stop_flag w j = false) ->
    exists t,
      extra_excel_prompt.loop w option mode output_folder total_files i files
        folder_path records
      = (t, Some (Exhausted, records ++ map row files))
      /\ ocr_calls t = map (path_join folder_path) files
      /\ fs_ops t = flat_map ops files
      /\ boxes t = [].
Proof.
  destruct Hio as [Hfs Himg].
  induction files as [|f rest IH]; intros i records Hdown.
  - exists []. simpl. rewrite app_nil_r. repeat split; reflexivity.
  - cbn [extra_excel_prompt.loop]. rewrite (Hdown i) by (simpl; lia).
    rewrite excel_extract_text, bind_val. cbv beta. fold (text f).
    unfold extra_excel_prompt.save_step, write_text, show_image.
    unfold row, ops in *.
    destruct option; [| |contradiction].
    + rewrite Himg. unfold emit, ret. mred. cbv beta iota. mred.
      match goal with
      | |- context [extra_excel_prompt.loop w _ mode output_folder
                      total_files (S i) rest folder_path ?r] =>
          destruct (IH (S i) r) as (t2 & E2 & O2 & F2 & B2);
            [intros j Hj; apply Hdown; simpl; lia|]
      end.
      rewrite E2. mred. eexists. split.
      * rewrite <- app_assoc. reflexivity.
      * unfold ocr_calls, fs_ops, boxes in *. cbn [flat_map app map].
        rewrite O2, F2, B2. repeat split; reflexivity.
    + rewrite !(fs_ok w _ (Hfs _)), Himg. unfold emit, ret. mred.
      cbv beta iota. mred. fold (txt f).
      match goal with
      | |- context [extra_excel_prompt.loop w _ mode output_folder
                      total_files (S i) rest folder_path ?r] =>
          destruct (IH (S i) r) as (t2 & E2 & O2 & F2 & B2);
            [intros j Hj; apply Hdown; simpl; lia|]
      end.
      rewrite E2. mred. eexists. split.
      * rewrite <- app_assoc. reflexivity.
      * unfold ocr_calls, fs_ops, boxes in *. cbn [flat_map app map].
        rewrite O2, F2, B2. repeat split; reflexivity.
Qed.

End ExcelRows.

(** X23: what the spreadsheet variant writes under [single_file] and
    [separate_files] when nobody cancels and the filesystem and the
    previews are willing.  Under [single_file] the only file written is
    the spreadsheet, with one row per image holding its name and its text.
    Under [separate_files] each image gets a folder named after its stem
    with the text in [extracted_text.txt], and the row of the image holds
    its name and the path of that file, not the text.  The rows are in the
    order of the listing.  After the spreadsheet the run shows one message
    box, of success, and calls [os.startfile] on the output folder: it ends
    normally if that call succeeds and by its exception otherwise, as on
    every platform without [os.startfile], with all the files written. *)
Theorem X23_spreadsheet_rows (w : World) (folder_path : str)
    (option : save_option) (mode : scan_mode) (names : list str) :
  io_ok w -> never_cancelled w -> isdir w folder_path = true ->
  listdir w folder_path = Ok names -> filter is_image names <> [] ->
  option <> extracted_name ->
  let files := filter is_image names in
  let output_folder := path_join folder_path (lit "Extracted_Texts") in
  let text f := tk_text w mode (path_join folder_path f) in
  let txt f :=
    path_join (path_join output_folder (splitext_root f))
      (lit "extracted_text.txt") in
  let row f :=
    match option with
    | single_file => [(lit "File Name", f); (lit "Extracted Text", text f)]
    | _ => [(lit "File Name", f); (lit "Saved Path", txt f)]
    end in
  let ops f :=
    match option with
    | single_file => []
    | _ => [MakeDirs (path_join output_folder (splitext_root f));
            OpenW (txt f); WriteTo (txt f) (text f)]
    end in
  let r := extra_excel_prompt.process_bulk_images w folder_path option mode in
  snd r = match startfile w output_folder with
          | None => Some tt
          | Some _ => None
          end
  /\ fs_ops (fst r)
     = MakeDirs output_folder :: flat_map ops files
       ++ [ToExcel (path_join output_folder (lit "extracted_texts.xlsx"))
             (map row files)]
  /\ boxes (fst r) = [showinfo].
Proof.
  intros Hio Hnever Hdir Hlist Hsome Hopt files output_folder text txt row
    ops r.
  unfold r, extra_excel_prompt.process_bulk_images.
  rewrite Hdir, Hlist. cbn [negb]. fold files.
  destruct (length files =? 0) eqn:En.
  { apply Nat.eqb_eq, length_zero_iff_nil in En. contradiction. }
  fold output_folder.
  destruct (excel_loop_rows w option mode folder_path output_folder
              (length files) Hio Hopt files 0 [])
    as (t & E & O & F & B).
  { intros j _. apply Hnever. }
  destruct Hio as [Hfs Himg].
  rewrite !(fs_ok w _ (Hfs _)). unfold emit. mred. rewrite E. mred.
  rewrite !(fs_ok w _ (Hfs _)). mred.
  unfold start_file, emit, raise.
  destruct (startfile w output_folder); mred;
    unfold fs_ops, boxes in *; cbn [flat_map app];
    rewrite !flat_map_app, F, B; cbn [flat_map app];
    repeat split; reflexivity.
Qed.

(** X23, an instance: two images reading [Hello World], one folder each,
    on a platform without [os.startfile]: the spreadsheet is written, then
    the run ends by the exception. *)
Lemma X23_spreadsheet_rows_witness :
  snd (extra_excel_prompt.process_bulk_images w_hello imgs separate_files
         normal) = None
  /\ excel_writes
       (fst (extra_excel_prompt.process_bulk_images w_hello imgs
               separate_files normal))
     = [[[(lit "File Name", lit "a.png");
          (lit "Saved Path",
           lit "/imgs/Extracted_Texts/a/extracted_text.txt")];
         [(lit "File Name", lit "b.png");
          (lit "Saved Path",
           lit "/imgs/Extracted_Texts/b/extracted_text.txt")]]].
Proof.
  destruct (X23_spreadsheet_rows w_hello imgs separate_files normal
              [lit "a.png"; lit "b.png"]) as (E & F & _).
  - split; intros; reflexivity.
  - intros i. reflexivity.
  - reflexivity.
  - reflexivity.
  - vm_compute. discriminate.
  - discriminate.
  - split; [exact E|]. rewrite excel_writes_ops, F. reflexivity.
Defined.

(** ** The worker and the preview slot *)

Lemma qt_file_step_own_text (w : World) (limit : option nat)
    (folder_path out : str) (total idx : nat) (file_name : str) :
  Forall (done_with_own_text w limit)
    (fst (LRD_QT_EXT.file_step w limit folder_path out total idx file_name)).
Proof.
  unfold LRD_QT_EXT.file_step, LRD_QT_EXT._extract_text, write_text, fs,
    bind, emit, ret, raise.
  cbv beta iota zeta.
  fold (qt_text w limit (path_join folder_path file_name)).
  set (text := qt_text w limit (path_join folder_path file_name)).
  destruct (truthy (strip text) && negb (startswith text (lit "Error"))).
  - destruct (io_error w (MakeDirs _)).
    { cbn [fst app]. repeat constructor. }
    destruct (io_error w (OpenW _)).
    { cbn [fst app]. repeat constructor. }
    destruct (io_error w (WriteTo _ _)); cbn [fst app]; repeat constructor.
  - cbn [fst app]. repeat constructor.
Qed.

Lemma qt_loop_own_text (w : World) (limit : option nat)
    (folder_path out : str) (total : nat) (files : list str) :
  forall (idx : nat) (records : list dict),
    Forall (done_with_own_text w limit)
      (fst (LRD_QT_EXT.loop w limit folder_path out total idx files records)).
Proof.
  induction files as [|f rest IH]; intros idx records.
  - constructor.
  - cbn [LRD_QT_EXT.loop]. destruct (stop_flag w idx); [constructor|].
    apply Forall_bind; [apply qt_file_step_own_text|].
    intros r _. apply IH.
Qed.

Lemma file_done_signals_forall (w : World) (limit : option nat)
    (t : list event) :
  Forall (done_with_own_text w limit) t ->
  Forall (fun pt => snd pt = qt_text w limit (fst pt)) (file_done_signals t).
Proof.
  induction 1 as [|e t He _ IH]; [constructor|].
  unfold file_done_signals in *. cbn [flat_map].
  apply Forall_app. split; [|exact IH].
  destruct e as [| |s| | | | | | | |]; try constructor.
  destruct s; constructor; [exact He | constructor].
Qed.

(** X24: the worker never hands an empty text to the preview.  Whatever
    the world does, every [file_done] signal of a run carries the text
    [_extract_text] gives for its path, which is not blank; so the slot
    [_on_file_done] shows that text as it is, and its fallback to
    [[No text found]] is never taken. *)
Theorem X24_file_done_text_never_empty (w : World) (limit : option nat)
    (folder_path : str) (specific_files : option (list str)) :
  Forall (fun pt => snd pt = qt_text w limit (fst pt)
                    /\ truthy (strip (snd pt)) = true
                    /\ OCRApp._on_file_done (snd pt) = snd pt)
    (file_done_signals
       (fst (LRD_QT_EXT.run w limit folder_path specific_files))).
Proof.
  assert (H : Forall (done_with_own_text w limit)
                (fst (LRD_QT_EXT.run w limit folder_path specific_files))).
  { unfold LRD_QT_EXT.run.
    destruct (LRD_QT_EXT.select_files w folder_path specific_files)
      as [files|e]; [|repeat constructor].
    destruct (length files =? 0); [repeat constructor|].
    apply Forall_bind; [apply fs_forall; exact I|]. intros _ _.
    apply Forall_bind.
    { unfold LRD_QT_EXT._get_reader. destruct (load_reader w);
        repeat constructor. }
    intros [r|] _; [|constructor].
    apply Forall_bind; [apply qt_loop_own_text|].
    intros [ex records] _. cbn [snd].
    destruct records as [|r0 rs].
    - rewrite bind_ret_l. repeat constructor.
    - apply Forall_bind; [|intros; repeat constructor].
      apply Forall_bind.
      + unfold try_fs. destruct (io_error w _); repeat constructor.
      + intros [u|e] _; repeat constructor. }
  apply file_done_signals_forall in H.
  eapply Forall_impl; [|exact H].
  intros [p text] E. cbn [fst snd] in *. subst text.
  pose proof (qt_text_not_blank w limit p) as Hb.
  repeat split; [exact Hb|].
  unfold OCRApp._on_file_done.
  destruct (qt_text w limit p); [discriminate|reflexivity].
Qed.

(** ** How a run of the text variant ends *)

(** Whatever the world does, the loop of the text variant shows a message
    box exactly when it is left by its cancel branch. *)
Lemma update_loop_boxes (w : World) (folder_path out : str) (total : nat)
    (files : list str) :
  forall i,
    boxes (fst (update.loop w folder_path out total i files))
    = match snd (update.loop w folder_path out total i files) with
      | Some Break => [showinfo]
      | _ => []
      end.
Proof.
  induction files as [|f rest IH]; intros i; [reflexivity|].
  cbn [update.loop]. destruct (stop_flag w i); [reflexivity|].
  rewrite tk_extract_text, bind_val. cbv beta.
  unfold fs. destruct (io_error w (WriteTo _ _)); [reflexivity|].
  unfold show_image. destruct (image_open w _).
  - unfold emit. mred. specialize (IH (S i)).
    destruct (update.loop w folder_path out total (S i) rest) as [t2 r2].
    cbn [fst snd] in *. unfold boxes in *. cbn [flat_map app]. exact IH.
  - unfold emit, raise. mred. rewrite bind_none. reflexivity.
Qed.

Lemma update_loop_cancel_box (w : World) (folder_path out : str)
    (total : nat) (files : list str) :
  forall i,
    snd (update.loop w folder_path out total i files) = Some Break ->
    In (MessageBox showinfo (lit "Process Stopped")
          (lit "The extraction process was canceled."))
      (fst (update.loop w folder_path out total i files)).
Proof.
  induction files as [|f rest IH]; intros i H; [discriminate|].
  cbn [update.loop] in *. destruct (stop_flag w i).
  - simpl. tauto.
  - do 6 bind_step H. now apply IH.
Qed.

(** X26: how a run of the text variant ends when the filesystem and the
    previews are willing.  A cancelled run shows the box of the
    cancellation and ends normally.  A run that handles every file shows
    one box, of success, naming the aggregate file, and then calls
    [os.startfile] on the folder, outside any [try]: the run ends normally
    when that call succeeds and by its exception when it raises, as it
    does on every platform without [os.startfile]; the file is complete
    by then. *)
Theorem X26_text_variant_ends_with_startfile (w : World) (folder_path : str)
    (names : list str) :
  io_ok w -> isdir w folder_path = true ->
  listdir w folder_path = Ok names -> filter is_image names <> [] ->
  let files := filter is_image names in
  let out := path_join folder_path (lit "extracted_texts.txt") in
  let k := steps_before_stop (stop_flag w) 0 (length files) in
  let r := update.process_bulk_images w folder_path in
  (k < length files ->
   snd r = Some tt
   /\ boxes (fst r) = [showinfo]
   /\ In (MessageBox showinfo (lit "Process Stopped")
             (lit "The extraction process was canceled.")) (fst r))
  /\ (k = length files ->
      snd r = match startfile w folder_path with
              | None => Some tt
              | Some _ => None
              end
      /\ exists before,
           fst r = before
                   ++ MessageBox showinfo (lit "Success")
                        (lit "All texts have been extracted and saved to "
                         ++ out)
                      :: match startfile w folder_path with
                         | None => [StartFile folder_path]
                         | Some _ => []
                         end
           /\ boxes before = []
           /\ length (written_texts before) = length files).
Proof.
  intros Hio Hdir Hlist Hsome files out k r.
  destruct (steps_before_stop_spec (stop_flag w) (length files) 0)
    as (H1 & H2 & H3). fold k in H1, H2, H3.
  destruct (update_loop_prefix w folder_path out (length files) files 0 k
              Hio H2 H1 H3) as (t & E & O & F & B).
  pose proof (update_loop_boxes w folder_path out (length files) files 0)
    as Hb.
  rewrite E in Hb. cbn [fst snd] in Hb.
  unfold r, update.process_bulk_images. rewrite Hdir, Hlist. cbn [negb].
  fold files. destruct (length files =? 0) eqn:En.
  { apply Nat.eqb_eq, length_zero_iff_nil in En. contradiction. }
  fold out. destruct Hio as [Hfs Himg].
  rewrite (fs_ok w _ (Hfs _)). unfold emit. mred. rewrite E. mred.
  split.
  - intros Hk. apply Nat.ltb_lt in Hk. rewrite Hk in *.
    unfold ret. mred. split; [reflexivity|]. split.
    + unfold boxes in *. cbn [flat_map app].
      rewrite flat_map_app, Hb. reflexivity.
    + pose proof (update_loop_cancel_box w folder_path out (length files)
                    files 0) as Hc.
      rewrite E in Hc. cbn [fst snd] in Hc.
      right. right. right. apply in_or_app. left. now apply Hc.
  - intros Hk. assert (Hge : (k <? length files) = false)
      by (apply Nat.ltb_ge; lia).
    rewrite Hge in *. unfold start_file, emit, raise.
    destruct (startfile w folder_path); mred;
      (split; [reflexivity|]);
      eexists (BarMaximum _ :: ProgressLabel _ :: Fs (OpenW out) :: t);
      (split; [cbn [app]; rewrite ?app_nil_r; reflexivity|]);
      (split; [unfold boxes in *; cbn [flat_map app]; exact Hb|]);
      rewrite written_texts_ops; unfold fs_ops in *; cbn [flat_map app];
      rewrite F, Hk, firstn_all; cbn [flat_map op_texts app];
      apply written_entries_length.
Qed.

(** X26, an instance: two images, nobody cancelling, no [os.startfile]: the
    run ends by the exception, with both entries written. *)
Lemma X26_text_variant_ends_with_startfile_witness :
  snd (update.process_bulk_images w_hello imgs) = None
  /\ boxes (fst (update.process_bulk_images w_hello imgs)) = [showinfo]
  /\ length (written_texts (fst (update.process_bulk_images w_hello imgs)))
     = 2.
Proof.
  destruct (X26_text_variant_ends_with_startfile w_hello imgs
              [lit "a.png"; lit "b.png"]) as [_ H].
  - split; intros; reflexivity.
  - reflexivity.
  - reflexivity.
  - vm_compute. discriminate.
  - destruct H as (S & before & E & B & W); [reflexivity|].
    split; [exact S|]. rewrite E.
    unfold boxes, written_texts in *. rewrite !flat_map_app, B.
    cbn [flat_map app]. rewrite app_nil_r.
    split; [reflexivity | exact W].
Defined.
